(** * Game-Theory-Bot: display protocol driver, menu redraw and joystick input

    A shallow embedding of [display_driver.py], [ui_manager.py] and
    [joystick_driver.py].  Methods that talk to the hardware become functions
    returning the list of bus events they perform; methods that read the
    hardware take the values read as arguments; mutable instance fields are
    threaded through explicitly. *)

From Stdlib Require Import ZArith List String Ascii Bool Lia.
Import ListNotations.
Open Scope Z_scope.

(** ** display_driver.py *)

Module Display.

(** The four optional control lines of the panel. *)
Inductive pin := RESET | DC | CS | BL.

(** What the driver does to the outside world, in program order. *)
Inductive event :=
| PinInit (p : pin) (v : Z)      (* pin.init(Pin.OUT, value=v) *)
| PinSet (p : pin) (v : Z)       (* pin(v) *)
| SpiWrite (data : list Z)       (* spi.write(data), one transfer *)
| SleepMs (ms : Z).              (* time.sleep_ms(ms) *)

Definition trace := list event.

(** Command opcodes used by the methods below. *)
Definition SWRESET := 0x01.
Definition SLPOUT := 0x11.
Definition DISPON := 0x29.
Definition CASET := 0x2A.
Definition RASET := 0x2B.
Definition RAMWR := 0x2C.
Definition COLMOD := 0x3A.
Definition MADCTL := 0x36.

(** Colour constants, as the class declares them. *)
Definition WHITE := 0x0000.
Definition YELLOW := 0x001F.
Definition CYAN := 0xF800.
Definition MAGENTA := 0x07E0.
Definition RED := 0x07FF.
Definition GREEN := 0xF81F.
Definition BLUE := 0xFFE0.
Definition BLACK := 0xFFFF.

(** The instance fields.  A pin field is [true] when a pin object was passed
    (the code tests [if self.reset_pin:] and so on). *)
Record ST7789 := {
  width : Z;
  height : Z;
  reset_pin : bool;
  dc_pin : bool;
  cs_pin : bool;
  bl_pin : bool;
  rotation : Z
}.

(** [ustruct.pack(">H", v)]: two bytes, most significant first.  MicroPython
    does not range-check the value and keeps its low 16 bits. *)
Definition pack_H (v : Z) : list Z := [(v / 256) mod 256; v mod 256].

(** [ustruct.pack(">HH", a, b)]. *)
Definition pack_HH (a b : Z) : list Z := pack_H a ++ pack_H b.

(** [data * n] on bytes: [n] copies, none when [n <= 0]. *)
Definition bytes_mul (data : list Z) (n : Z) : list Z :=
  List.concat (repeat data (Z.to_nat n)).

(** [if self.<pin>: self.<pin>(v)] *)
Definition pin_set (present : bool) (p : pin) (v : Z) : trace :=
  if present then [PinSet p v] else [].

Definition pin_init (present : bool) (p : pin) (v : Z) : trace :=
  if present then [PinInit p v] else [].

Definition reset (d : ST7789) : trace :=
  if reset_pin d then
    [PinSet RESET 1; SleepMs 100; PinSet RESET 0; SleepMs 100;
     PinSet RESET 1; SleepMs 200]
  else [].

Definition _get_madctl (d : ST7789) : Z :=
  if rotation d =? 0 then 0x00
  else if rotation d =? 1 then 0x60
  else if rotation d =? 2 then 0xC0
  else 0xA0.

Definition _write_data (d : ST7789) (data : list Z) : trace :=
  pin_set (dc_pin d) DC 1 ++ pin_set (cs_pin d) CS 0 ++
  [SpiWrite data] ++ pin_set (cs_pin d) CS 1.

Definition _write_command (d : ST7789) (command : Z) (data : option (list Z))
  : trace :=
  pin_set (dc_pin d) DC 0 ++ pin_set (cs_pin d) CS 0 ++
  [SpiWrite [command]] ++ pin_set (cs_pin d) CS 1 ++
  match data with
  | Some bytes => _write_data d bytes
  | None => []
  end.

Definition set_window (d : ST7789) (x0 y0 x1 y1 : Z) : trace :=
  let '(x0, y0, x1, y1) :=
    if (rotation d =? 1) || (rotation d =? 3)
    then (y0, x0, y1, x1)
    else (x0, y0, x1, y1) in
  _write_command d CASET (Some (pack_HH x0 x1)) ++
  _write_command d RASET (Some (pack_HH y0 y1)) ++
  _write_command d RAMWR None.

Definition pixel (d : ST7789) (x y color : Z) : trace :=
  if (0 <=? x) && (x <? width d) && (0 <=? y) && (y <? height d)
  then set_window d x y x y ++ _write_data d (pack_H color)
  else [].

(** Number of values of [range(0, stop, step)] for a positive [step]. *)
Definition range_len (stop step : Z) : nat := Z.to_nat ((stop + step - 1) / step).

Definition chunk_size := 512.

(** The body of the [for] loop of [fill_rect]: [iters] iterations, fixed when
    the loop starts, over the running counter [pixels]. *)
Fixpoint fill_loop (d : ST7789) (pixel_data : list Z) (iters : nat) (pixels : Z)
  : trace :=
  match iters with
  | O => []
  | S n =>
      _write_data d (bytes_mul pixel_data (Z.min chunk_size pixels)) ++
      fill_loop d pixel_data n (pixels - chunk_size)
  end.

Definition fill_rect (d : ST7789) (x y w h color : Z) : trace :=
  let x_end := Z.min (x + w - 1) (width d - 1) in
  let y_end := Z.min (y + h - 1) (height d - 1) in
  let pixel_data := pack_H color in
  let pixels := w * h in
  set_window d x y x_end y_end ++
  fill_loop d pixel_data (range_len pixels chunk_size) pixels.

Definition fill (d : ST7789) (color : Z) : trace :=
  fill_rect d 0 0 (width d) (height d) color.

(** [ST7789.__init__]: the instance and the power-on sequence it performs. *)
Definition init (w h : Z) (rst dc cs bl : bool) (rot : Z) : ST7789 * trace :=
  let d := {| width := w; height := h; reset_pin := rst; dc_pin := dc;
              cs_pin := cs; bl_pin := bl; rotation := rot mod 4 |} in
  (d,
   pin_init rst RESET 1 ++ pin_init dc DC 0 ++ pin_init cs CS 1 ++
   pin_init bl BL 1 ++
   reset d ++
   _write_command d SWRESET None ++ [SleepMs 150] ++
   _write_command d SLPOUT None ++ [SleepMs 255] ++
   _write_command d COLMOD (Some [0x55]) ++
   _write_command d MADCTL (Some [_get_madctl d]) ++
   _write_command d DISPON None ++ [SleepMs 100] ++
   fill d BLACK).

(** *** Observations on traces *)

(** The level written to the reset line and for how long it is then held:
    one entry per write to the line, with the sleeps that follow it. *)
Fixpoint line_phases (t : trace) : list (Z * Z) :=
  match t with
  | [] => []
  | PinSet RESET v :: t' =>
      let fix held (u : trace) : Z :=
        match u with
        | SleepMs ms :: u' => ms + held u'
        | _ => 0
        end in
      (v, held t') :: line_phases t'
  | _ :: t' => line_phases t'
  end.

(** The device's view of the bus, for a driver with a data/command line:
    the payloads written in data mode after the last memory-write command. *)
Fixpoint ramwr_stream (armed : bool) (dc : Z) (t : trace) : list (list Z) :=
  match t with
  | [] => []
  | PinSet DC v :: t' => ramwr_stream armed v t'
  | SpiWrite data :: t' =>
      if dc =? 0
      then ramwr_stream (match data with [c] => c =? RAMWR | _ => false end) dc t'
      else if armed then data :: ramwr_stream armed dc t'
           else ramwr_stream armed dc t'
  | _ :: t' => ramwr_stream armed dc t'
  end.

(** Pixels per transfer of the stream that follows the memory-write command. *)
Definition pixel_transfers (t : trace) : list Z :=
  map (fun data => Z.of_nat (List.length data) / 2) (ramwr_stream false 0 t).

Definition sumZ (l : list Z) : Z := fold_right Z.add 0 l.

(** The payload of every SPI transfer, in order. *)
Definition spi_payloads (t : trace) : list (list Z) :=
  flat_map (fun e => match e with SpiWrite data => [data] | _ => [] end) t.

(** A 16-bit bound as two bytes, most significant first. *)
Definition be16 (v : Z) : list Z := [Z.land (Z.shiftr v 8) 0xFF; Z.land v 0xFF].

(** One data transfer of [n] copies of a packed colour. *)
Definition write_chunk (d : ST7789) (pixel_data : list Z) (n : Z) : trace :=
  _write_data d (bytes_mul pixel_data n).

(** The pixel counts [fill_loop] hands to [_write_data], turn by turn. *)
Fixpoint chunks (iters : nat) (pixels : Z) : list Z :=
  match iters with
  | O => []
  | S n => Z.min chunk_size pixels :: chunks n (pixels - chunk_size)
  end.

(** The rectangle clipped to the canvas, as the specification words it: the
    intersection of [x, x+w) x [y, y+h) with the screen, and its area. *)
Definition spec_clipped_window (d : ST7789) (x y w h : Z) : Z * Z * Z * Z :=
  (Z.max x 0, Z.max y 0, Z.min (x + w) (width d) - 1, Z.min (y + h) (height d) - 1).

Definition spec_clipped_area (d : ST7789) (x y w h : Z) : Z :=
  Z.max 0 (Z.min (x + w) (width d) - Z.max x 0) *
  Z.max 0 (Z.min (y + h) (height d) - Z.max y 0).

(** The reset pulse as the specification words it: the line low for at least
    100 ms, then high for at least 100 ms, then a release phase of at least
    200 ms, whatever level releasing leaves on the line. *)
Definition spec_reset_pulse (phases : list (Z * Z)) : Prop :=
  exists t_low t_high released t_release,
    phases = [(0, t_low); (1, t_high); (released, t_release)] /\
    100 <= t_low /\ 100 <= t_high /\ 200 <= t_release.

(** [range(n)] *)
Definition range (n : Z) : list Z := map Z.of_nat (seq 0 (Z.to_nat n)).

(** The pixel buffer [text] fills from the frame buffer: for every cell, row
    by row, the high byte and the low byte of its colour.  [fb_pixel px py]
    is what [fb.pixel(px, py)] reads. *)
Definition text_buffer (fb_pixel : Z -> Z -> Z) (draw_width draw_height : Z)
    (text_color : Z) (bg_color : option Z) : list Z :=
  flat_map
    (fun py =>
       flat_map
         (fun px =>
            let is_pixel_set := fb_pixel px py =? 1 in
            let target_color :=
              if is_pixel_set then text_color
              else match bg_color with Some bg => bg | None => BLACK end in
            [Z.land (Z.shiftr target_color 8) 0xFF; Z.land target_color 0xFF])
         (range draw_width))
    (range draw_height).

(** [text].  The glyphs come from the [framebuf] module: [fb_text s w h] is
    the reader of the [w] x [h] frame buffer after [fb.fill(0)] and
    [fb.text(s, 0, 0, 1)]. *)
Definition text (d : ST7789) (fb_text : string -> Z -> Z -> Z -> Z -> Z)
    (text_string : string) (x y text_color : Z) (bg_color : option Z)
    (font_height : Z) : trace :=
  let char_width := if font_height >=? 8 then font_height / 2 else 8 in
  let text_pixel_width := Z.of_nat (String.length text_string) * char_width in
  let x_end := Z.min (x + text_pixel_width) (width d) in
  let y_end := Z.min (y + font_height) (height d) in
  let draw_width := x_end - x in
  let draw_height := y_end - y in
  if (draw_width <=? 0) || (draw_height <=? 0) then []
  else
    set_window d x y (x_end - 1) (y_end - 1) ++
    _write_data d
      (text_buffer (fb_text text_string draw_width draw_height) draw_width
         draw_height text_color bg_color).

(** [char].  [buf i] is byte [i] of the glyph buffer after [fbuf.fill] and
    [fbuf.text]. *)
Definition char (d : ST7789) (buf : Z -> Z) (x y color : Z)
    (bg_color : option Z) (font_size : Z) : trace :=
  flat_map
    (fun yy =>
       flat_map
         (fun xx =>
            if negb (Z.land (buf (yy * ((font_size + 7) / 8) + xx / 8))
                       (Z.shiftl 1 (7 - xx mod 8)) =? 0)
            then pixel d (x + xx) (y + yy) color
            else match bg_color with
                 | Some bg => pixel d (x + xx) (y + yy) bg
                 | None => []
                 end)
         (range font_size))
    (range font_size).

Definition backlight (d : ST7789) (value : Z) : trace := pin_set (bl_pin d) BL value.

(** The chip-select discipline of a trace that starts with the select line
    at level [cs]: every SPI transfer is made with the line low, the
    data/command line changes only while it is high, and it is high at the
    end. *)
Fixpoint framed (cs : Z) (t : trace) : bool :=
  match t with
  | [] => cs =? 1
  | PinSet CS v :: t' => framed v t'
  | PinInit CS v :: t' => framed v t'
  | PinSet DC _ :: t' => (cs =? 1) && framed cs t'
  | SpiWrite _ :: t' => (cs =? 0) && framed cs t'
  | _ :: t' => framed cs t'
  end.

(** The delays of a trace, in order. *)
Definition sleeps (t : trace) : list Z :=
  flat_map (fun e => match e with SleepMs ms => [ms] | _ => [] end) t.

(** What the bus must carry to set a window: the column-address opcode and
    its two bounds, the row-address opcode and its two bounds, each bound as
    two bytes with the high byte first, then the memory-write opcode; the
    column register takes the y bounds when the rotation is 1 or 3. *)
Definition window_payloads (d : ST7789) (x0 y0 x1 y1 : Z) : list (list Z) :=
  if (rotation d =? 1) || (rotation d =? 3)
  then [[CASET]; be16 y0 ++ be16 y1; [RASET]; be16 x0 ++ be16 x1; [RAMWR]]
  else [[CASET]; be16 x0 ++ be16 x1; [RASET]; be16 y0 ++ be16 y1; [RAMWR]].

(** The bytes of [n] pixels of one colour, high byte first. *)
Definition solid (color n : Z) : list Z :=
  List.concat (repeat (be16 color) (Z.to_nat n)).

(** The order of events on the reset line, the bus and the clock: the trace
    without the writes to the select, data/command and backlight lines. *)
Definition timeline (t : trace) : trace :=
  filter
    (fun e => match e with
              | PinSet RESET _ | SpiWrite _ | SleepMs _ => true
              | _ => false
              end) t.

(** The panel as [main.py] builds it: 240x320, reset, data/command and
    backlight lines, no chip select, rotation 0. *)
Definition main_display : ST7789 := fst (init 240 320 true true false true 0).

End Display.

(** ** ui_manager.py *)

Module UI.

(** The calls [UIManager] makes on its screen driver, in program order. *)
Inductive screen_call :=
| Fill (color : Z)                               (* screen.fill(color) *)
| FillRect (x y w h color : Z)                   (* screen.fill_rect(...) *)
| Text (text_string : string) (x y text_color : Z).  (* screen.text(...) *)

Inductive exn := IndexError.

(** The dictionary [_last_menu_state].  [items] is [None] until a list is
    stored; [title_text] is what [.get('title_text')] returns, [None] both
    for a missing key and for a stored [None]. *)
Record menu_state := {
  selected_idx : Z;
  items : option (list string);
  start_y : Z;
  title_text : option string
}.

Record UIManager := {
  screen : Display.ST7789;
  width : Z;
  height : Z;
  text_color : Z;
  bg_color : Z;
  highlight_text_color : Z;
  highlight_bg_color : Z;
  char_width_eng : Z;
  char_height : Z;
  line_spacing : Z;
  _last_menu_state : menu_state
}.

Definition set__last_menu_state (m : menu_state) (ui : UIManager) : UIManager :=
  {| screen := screen ui; width := width ui; height := height ui;
     text_color := text_color ui; bg_color := bg_color ui;
     highlight_text_color := highlight_text_color ui;
     highlight_bg_color := highlight_bg_color ui;
     char_width_eng := char_width_eng ui; char_height := char_height ui;
     line_spacing := line_spacing ui; _last_menu_state := m |}.

(** [a if a is not None else b] *)
Definition or_default {A} (a : option A) (b : A) : A :=
  match a with Some v => v | None => b end.

(** [UIManager.__init__] *)
Definition init (st7789_driver : Display.ST7789)
    (default_text_color default_bg_color default_highlight_color : option Z)
  : UIManager :=
  {| screen := st7789_driver;
     width := Display.width st7789_driver;
     height := Display.height st7789_driver;
     text_color := or_default default_text_color Display.WHITE;
     bg_color := or_default default_bg_color Display.BLACK;
     highlight_text_color := or_default default_highlight_color Display.GREEN;
     highlight_bg_color := Display.YELLOW;
     char_width_eng := 8;
     char_height := 16;
     line_spacing := 4;
     _last_menu_state :=
       {| selected_idx := -1; items := None; start_y := 0;
          title_text := None |} |}.

Definition clear_screen (ui : UIManager) (color : option Z) : list screen_call :=
  [Fill (or_default color (bg_color ui))].

(** [ord(char)] *)
Definition ord (c : ascii) : Z := Z.of_N (N_of_ascii c).

Definition _draw_char_internal (ui : UIManager) (char_code : ascii)
    (x y color : Z) (bg_color : option Z) : list screen_call :=
  let char := if ord char_code <? 128 then char_code else "?"%char in
  match bg_color with
  | Some bg => [FillRect x y (char_width_eng ui) (char_height ui) bg]
  | None => []
  end ++ [Text (String char EmptyString) x y color].

(** The [for] loop of [display_text_line]; the result carries [current_x]. *)
Fixpoint text_line_loop (ui : UIManager) (text : string) (x current_x y color : Z)
    (bg_color max_width : option Z) : list screen_call * Z :=
  match text with
  | EmptyString => ([], current_x)
  | String char rest =>
      if match max_width with
         | Some m => current_x + char_width_eng ui >? x + m
         | None => false
         end
      then ([], current_x)
      else
        let '(t, last_x) :=
          text_line_loop ui rest x (current_x + char_width_eng ui) y color
            bg_color max_width in
        (_draw_char_internal ui char current_x y color bg_color ++ t, last_x)
  end.

Definition display_text_line (ui : UIManager) (text : string) (x y : Z)
    (text_color_arg bg_color max_width : option Z) : list screen_call * Z :=
  let color := or_default text_color_arg (text_color ui) in
  text_line_loop ui text x x y color bg_color max_width.

(** [text.split(' ')] *)
Fixpoint split_space (text : string) : list string :=
  match text with
  | EmptyString => [EmptyString]
  | String c rest =>
      if Ascii.eqb c " "%char then EmptyString :: split_space rest
      else match split_space rest with
           | w :: ws => String c w :: ws
           | [] => [String c EmptyString]
           end
  end.

(** Truth value of a string: non-empty. *)
Definition nonempty (s : string) : bool :=
  match s with EmptyString => false | _ => true end.

Definition len (s : string) : Z := Z.of_nat (String.length s).

(** The [for word in words] loop of [display_text_multiline] and the drawing
    of the last line that follows it. *)
Fixpoint multiline_loop (ui : UIManager) (words : list string)
    (current_line : string) (x y max_width color : Z) (bg_color : option Z)
    (actual_line_height : Z) : list screen_call :=
  match words with
  | [] =>
      if nonempty current_line
      then fst (display_text_line ui current_line x y (Some color) bg_color
                  (Some max_width))
      else []
  | word :: rest =>
      let test_line :=
        (current_line ++ (if nonempty current_line then " " else "") ++ word)%string in
      if len test_line * char_width_eng ui <=? max_width
      then multiline_loop ui rest test_line x y max_width color bg_color
             actual_line_height
      else
        fst (display_text_line ui current_line x y (Some color) bg_color
               (Some max_width)) ++
        let y := y + actual_line_height in
        if y + char_height ui >? height ui then []
        else multiline_loop ui rest word x y max_width color bg_color
               actual_line_height
  end.

Definition display_text_multiline (ui : UIManager) (text : string)
    (x y max_width : Z) (text_color_arg bg_color line_height : option Z)
  : list screen_call :=
  let color := or_default text_color_arg (text_color ui) in
  let actual_line_height :=
    or_default line_height (char_height ui + line_spacing ui) in
  multiline_loop ui (split_space text) EmptyString x y max_width color bg_color
    actual_line_height.

Definition _draw_menu_item (ui : UIManager) (index : Z) (text : string)
    (start_y title_height : Z) (is_selected : bool) : list screen_call :=
  let y_pos :=
    start_y + title_height + index * (char_height ui + line_spacing ui * 2) in
  let item_height := char_height ui + line_spacing ui in
  FillRect 0 y_pos (width ui) item_height
    (if is_selected then highlight_bg_color ui else bg_color ui) ::
  let color := if is_selected then highlight_text_color ui else text_color ui in
  fst (display_text_line ui text 5 (y_pos + line_spacing ui) (Some color) None
         None).

(** [l[i]] with Python's negative indices; [None] stands for [IndexError]. *)
Definition py_index {A} (l : list A) (i : Z) : option A :=
  let n := Z.of_nat (List.length l) in
  if (0 <=? i) && (i <? n) then nth_error l (Z.to_nat i)
  else if (- n <=? i) && (i <? 0) then nth_error l (Z.to_nat (i + n))
  else None.

(** [enumerate(items)] from a starting index. *)
Fixpoint enumerate {A} (i : Z) (l : list A) : list (Z * A) :=
  match l with
  | [] => []
  | a :: l' => (i, a) :: enumerate (i + 1) l'
  end.

(** Equality of two lists of strings, and of two optional values. *)
Fixpoint items_eqb (a b : list string) : bool :=
  match a, b with
  | [], [] => true
  | x :: a', y :: b' => String.eqb x y && items_eqb a' b'
  | _, _ => false
  end.

Definition option_eqb {A} (eqb : A -> A -> bool) (a b : option A) : bool :=
  match a, b with
  | None, None => true
  | Some x, Some y => eqb x y
  | _, _ => false
  end.

(** Truth value of the [title] argument: a non-empty string. *)
Definition truthy (title : option string) : bool :=
  match title with Some s => nonempty s | None => false end.

(** How a call of [draw_menu] ends: normally, or with an exception after the
    screen calls already made. *)
Inductive outcome :=
| Done (ui : UIManager) (calls : list screen_call)
| Raised (e : exn) (ui : UIManager) (calls : list screen_call).

Definition draw_menu (ui : UIManager) (items_arg : list string)
    (selected_index : Z) (title : option string) (start_y_arg : Z) : outcome :=
  let last_state := _last_menu_state ui in
  let need_full_refresh :=
    negb (option_eqb items_eqb (items last_state) (Some items_arg)) ||
    negb (start_y last_state =? start_y_arg) ||
    negb (option_eqb String.eqb (title_text last_state) title) in
  let title_height :=
    if truthy title then char_height ui + line_spacing ui else 0 in
  if need_full_refresh then
    Done ui
      (clear_screen ui None ++
       if truthy title then
         FillRect 0 start_y_arg (width ui) title_height (bg_color ui) ::
         display_text_multiline ui (or_default title EmptyString) 5 start_y_arg
           (width ui - 10) (Some (highlight_text_color ui)) (Some (bg_color ui))
           None ++
         flat_map
           (fun '(i, item) =>
              _draw_menu_item ui i item start_y_arg title_height
                (i =? selected_index))
           (enumerate 0 items_arg)
       else [])
  else
    let old_idx := selected_idx last_state in
    if negb (old_idx =? selected_index) then
      match py_index items_arg old_idx with
      | None => Raised IndexError ui []
      | Some old_item =>
          let t1 :=
            _draw_menu_item ui old_idx old_item start_y_arg title_height false in
          match py_index items_arg selected_index with
          | None => Raised IndexError ui t1
          | Some new_item =>
              Done
                (set__last_menu_state
                   {| selected_idx := selected_index; items := Some items_arg;
                      start_y := start_y_arg; title_text := title |} ui)
                (t1 ++
                 _draw_menu_item ui selected_index new_item start_y_arg
                   title_height true)
          end
      end
    else Done ui [].

(** A run of [draw_menu] calls on one instance: the screen calls of each. *)
Fixpoint draw_menus (ui : UIManager)
    (calls : list (list string * Z * option string * Z))
  : list (list screen_call) * UIManager :=
  match calls with
  | [] => ([], ui)
  | (its, sel, title, sy) :: rest =>
      match draw_menu ui its sel title sy with
      | Done ui' t =>
          let '(ts, ui'') := draw_menus ui' rest in (t :: ts, ui'')
      | Raised _ ui' t => ([t], ui')
      end
  end.

(** A repaint is full when it starts by clearing the screen. *)
Definition clears_screen (t : list screen_call) : bool :=
  match t with Fill _ :: _ => true | _ => false end.

(** The rows a repaint touches: the [y] of each rectangle fill. *)
Definition filled_rows (t : list screen_call) : list Z :=
  flat_map (fun c => match c with FillRect _ y _ _ _ => [y] | _ => [] end) t.

(** The loop over [message_lines] in [show_message_box]. *)
Fixpoint message_lines_loop (ui : UIManager) (message_lines : list string)
    (padding box_height current_y : Z) : list screen_call :=
  match message_lines with
  | [] => []
  | line :: rest =>
      display_text_multiline ui line padding current_y (width ui - 2 * padding)
        (Some (text_color ui)) (Some (bg_color ui)) None ++
      let current_y := current_y + (char_height ui + line_spacing ui) in
      if current_y >? box_height - 20 then []
      else message_lines_loop ui rest padding box_height current_y
  end.

(** The button row of [show_message_box], drawn when [options] is neither
    [None] nor empty. *)
Definition message_box_buttons (ui : UIManager) (options : list string)
    (selected_option_index padding box_height : Z) : list screen_call :=
  match options with
  | [] => []
  | _ =>
      let button_spacing := 5 in
      let n := Z.of_nat (List.length options) in
      let button_width :=
        (width ui - 2 * padding - (n - 1) * button_spacing) / n in
      flat_map
        (fun '(i, option) =>
           let btn_x := padding + i * (button_width + button_spacing) in
           let is_selected := i =? selected_option_index in
           let color :=
             if is_selected then highlight_text_color ui else text_color ui in
           let bg := if is_selected then highlight_bg_color ui else bg_color ui in
           FillRect btn_x (box_height - 25) button_width 20 bg ::
           let text_x := btn_x + (button_width - len option * char_width_eng ui) / 2 in
           fst (display_text_line ui option text_x (box_height - 20) (Some color)
                  None None))
        (enumerate 0 options)
  end.

(** [show_message_box]; [options] is the empty list for [None]. *)
Definition show_message_box (ui : UIManager) (message_lines : list string)
    (title : option string) (options : list string)
    (selected_option_index : Z) : list screen_call :=
  let padding := 10 in
  let box_height := height ui - 2 * padding in
  let current_y := padding in
  clear_screen ui None ++
  (if truthy title
   then display_text_multiline ui (or_default title EmptyString) padding
          current_y (width ui - 2 * padding) (Some (highlight_text_color ui))
          (Some (bg_color ui)) None
   else []) ++
  message_lines_loop ui message_lines padding box_height
    (if truthy title then current_y + (char_height ui + line_spacing ui * 2)
     else current_y) ++
  message_box_buttons ui options selected_option_index padding box_height.

Definition show_welcome_screen (ui : UIManager) : list screen_call :=
  clear_screen ui (Some Display.BLUE) ++
  let title := "Gambling bot"%string in
  let text_x := (width ui - len title * char_width_eng ui) / 2 in
  fst (display_text_line ui title text_x (height ui / 2 - 10)
         (Some Display.YELLOW) None None) ++
  fst (display_text_line ui "Loading..."%string 10 (height ui / 2 + 10)
         (Some Display.WHITE) None None).

(** Where a repaint draws: the cell of every character and the rectangle of
    every fill. *)
Definition text_cells (t : list screen_call) : list (Z * Z) :=
  flat_map (fun c => match c with Text _ x y _ => [(x, y)] | _ => [] end) t.

Definition drawn_text (t : list screen_call) : string :=
  String.concat EmptyString
    (flat_map (fun c => match c with Text s _ _ _ => [s] | _ => [] end) t).

Definition fill_rects (t : list screen_call) : list (Z * Z * Z * Z) :=
  flat_map
    (fun c => match c with FillRect x y w h _ => [(x, y, w, h)] | _ => [] end) t.

(** What one drawn character of the one-line path shows: the character
    itself, or a question mark for a code of 128 and above. *)
Definition shown (c : ascii) : ascii := if ord c <? 128 then c else "?"%char.

Fixpoint shown_text (s : string) : string :=
  match s with
  | EmptyString => EmptyString
  | String c rest => String (shown c) (shown_text rest)
  end.

(** A screen call that is a character cell or a cell background lying, with
    its [cw] columns, between column [x] and column [x + m], on a row that
    is [y] or leaves room for [ch] rows above row [bottom]. *)
Definition cell_within (x m cw y ch bottom : Z) (c : screen_call) : Prop :=
  match c with
  | Text _ cx cy _ =>
      x <= cx /\ cx + cw <= x + m /\ (cy = y \/ cy + ch <= bottom)
  | FillRect cx cy w _ _ =>
      x <= cx /\ cx + w <= x + m /\ (cy = y \/ cy + ch <= bottom)
  | Fill _ => False
  end.

(** The words of a text joined again, each after the first behind one
    space. *)
Definition join_sp (words : list string) : string :=
  String.concat EmptyString (map (fun w => (" " ++ w)%string) words).

(** The rows filled with a given colour. *)
Definition rows_filled_with (color : Z) (t : list screen_call) : list Z :=
  flat_map
    (fun c => match c with
              | FillRect _ y _ _ col => if col =? color then [y] else []
              | _ => []
              end) t.

(** The main menu of [main.py] and the manager it draws it with. *)
Definition main_menu_items : list string :=
  ["1. game_trust_evolution"; "2. game_points_showdown"; "3. game_auction";
   "4. exit"]%string.

Definition main_ui : UIManager := init Display.main_display None None None.

End UI.

(** ** joystick_driver.py *)

Module Joystick.

(** The five strings [get_direction] returns. *)
Inductive Direction := center | up | down | left | right.

Definition Direction_eqb (a b : Direction) : bool :=
  match a, b with
  | center, center | up, up | down, down | left, left | right, right => true
  | _, _ => false
  end.

(** [time.ticks_ms()] counts milliseconds modulo a fixed period and
    [time.ticks_diff] subtracts on that ring; the period is MicroPython's
    [2^30] of the 32-bit ports. *)
Definition TICKS_PERIOD := 2 ^ 30.
Definition TICKS_HALF := TICKS_PERIOD / 2.

Definition ticks_ms (clock : Z) : Z := clock mod TICKS_PERIOD.

Definition ticks_diff (a b : Z) : Z :=
  (a - b + TICKS_HALF) mod TICKS_PERIOD - TICKS_HALF.

(** The instance fields.  [_button_was_pressed_for_click] is [None] while the
    attribute does not exist; [_button_state_for_click] and
    [_last_button_value_for_click] start from the class attributes. *)
Record Joystick := {
  x_center : Z;
  y_center : Z;
  threshold : Z;
  debounce_ms : Z;
  click_threshold_ms : Z;
  _last_button_state : Z;
  _last_button_change_time : Z;
  _button_pressed_since_last_check : bool;
  _button_down_start_time : Z;
  _last_direction : Direction;
  _last_direction_time : Z;
  direction_repeat_delay_ms : Z;
  _button_was_pressed_for_click : option bool;
  _button_state_for_click : Z;
  _last_button_value_for_click : Z
}.

(** Assignments to one field. *)
Definition set_x_center (v : Z) (j : Joystick) : Joystick :=
  let '(Build_Joystick _ b c d e f g h i k l m n o p) := j in
  Build_Joystick v b c d e f g h i k l m n o p.

Definition set_y_center (v : Z) (j : Joystick) : Joystick :=
  let '(Build_Joystick a _ c d e f g h i k l m n o p) := j in
  Build_Joystick a v c d e f g h i k l m n o p.

Definition set__last_button_state (v : Z) (j : Joystick) : Joystick :=
  let '(Build_Joystick a b c d e _ g h i k l m n o p) := j in
  Build_Joystick a b c d e v g h i k l m n o p.

Definition set__last_button_change_time (v : Z) (j : Joystick) : Joystick :=
  let '(Build_Joystick a b c d e f _ h i k l m n o p) := j in
  Build_Joystick a b c d e f v h i k l m n o p.

Definition set__button_pressed_since_last_check (v : bool) (j : Joystick) : Joystick :=
  let '(Build_Joystick a b c d e f g _ i k l m n o p) := j in
  Build_Joystick a b c d e f g v i k l m n o p.

Definition set__button_down_start_time (v : Z) (j : Joystick) : Joystick :=
  let '(Build_Joystick a b c d e f g h _ k l m n o p) := j in
  Build_Joystick a b c d e f g h v k l m n o p.

Definition set__last_direction (v : Direction) (j : Joystick) : Joystick :=
  let '(Build_Joystick a b c d e f g h i _ l m n o p) := j in
  Build_Joystick a b c d e f g h i v l m n o p.

Definition set__last_direction_time (v : Z) (j : Joystick) : Joystick :=
  let '(Build_Joystick a b c d e f g h i k _ m n o p) := j in
  Build_Joystick a b c d e f g h i k v m n o p.

Definition set__button_was_pressed_for_click (v : option bool) (j : Joystick) : Joystick :=
  let '(Build_Joystick a b c d e f g h i k l m _ o p) := j in
  Build_Joystick a b c d e f g h i k l m v o p.

Definition set__button_state_for_click (v : Z) (j : Joystick) : Joystick :=
  let '(Build_Joystick a b c d e f g h i k l m n _ p) := j in
  Build_Joystick a b c d e f g h i k l m n v p.

Definition set__last_button_value_for_click (v : Z) (j : Joystick) : Joystick :=
  let '(Build_Joystick a b c d e f g h i k l m n o _) := j in
  Build_Joystick a b c d e f g h i k l m n o v.
(** [Joystick.__init__]: [button_value] is what [self.button.value()] reads,
    [t0] and [t1] what the two calls of [time.ticks_ms()] read. *)
Definition init (x_center_arg y_center_arg threshold_arg debounce_ms_arg
    click_threshold_ms_arg button_value t0 t1 : Z) : Joystick :=
  {| x_center := x_center_arg;
     y_center := y_center_arg;
     threshold := threshold_arg;
     debounce_ms := debounce_ms_arg;
     click_threshold_ms := click_threshold_ms_arg;
     _last_button_state := button_value;
     _last_button_change_time := t0;
     _button_pressed_since_last_check := false;
     _button_down_start_time := 0;
     _last_direction := center;
     _last_direction_time := t1;
     direction_repeat_delay_ms := 150;
     _button_was_pressed_for_click := None;
     _button_state_for_click := 0;
     _last_button_value_for_click := 1 |}.

(** The zone test at the head of [get_direction]. *)
Definition current_direction (j : Joystick) (x_val y_val : Z) : Direction :=
  if x_val >? x_center j + threshold j then right
  else if x_val <? x_center j - threshold j then left
  else if y_val >? y_center j + threshold j then down
  else if y_val <? y_center j - threshold j then up
  else center.

(** [get_direction]: [x_val], [y_val] are the two ADC reads and
    [current_time] the [ticks_ms()] read. *)
Definition get_direction (j : Joystick) (allow_repeat : bool)
    (x_val y_val current_time : Z) : Direction * Joystick :=
  let cur := current_direction j x_val y_val in
  if allow_repeat then
    if negb (Direction_eqb cur center) then
      if negb (Direction_eqb cur (_last_direction j)) ||
         (ticks_diff current_time (_last_direction_time j)
            >? direction_repeat_delay_ms j)
      then (cur, set__last_direction_time current_time (set__last_direction cur j))
      else (center, j)
    else (center, set__last_direction center j)
  else
    if negb (Direction_eqb cur (_last_direction j))
    then (cur, set__last_direction cur j)
    else (center, j).

Definition is_button_down (j : Joystick) (current_time raw_button_state : Z)
  : bool * Joystick :=
  let j :=
    if negb (raw_button_state =? _last_button_state j)
    then set__last_button_state raw_button_state
           (set__last_button_change_time current_time j)
    else j in
  if ticks_diff current_time (_last_button_change_time j) >? debounce_ms j
  then (_last_button_state j =? 0, j)
  else (_last_button_state j =? 0, j).

(** Exceptions and a state-and-exception monad for the methods that can
    raise: the fields keep the writes made before the exception. *)
Inductive exn := AttributeError (name : string).

Inductive result (A : Type) :=
| Ok (a : A)
| Raise (e : exn).
Arguments Ok {A} a.
Arguments Raise {A} e.

Definition M (A : Type) := Joystick -> result A * Joystick.

Definition ret {A} (a : A) : M A := fun j => (Ok a, j).

Definition bind {A B} (m : M A) (f : A -> M B) : M B :=
  fun j => match m j with
           | (Ok a, j') => f a j'
           | (Raise e, j') => (Raise e, j')
           end.

Notation "x <- m ;; k" := (bind m (fun x => k))
  (at level 61, m at next level, right associativity).
Notation "m ;;; k" := (bind m (fun _ => k))
  (at level 61, right associativity).

Definition assign (f : Joystick -> Joystick) : M unit := fun j => (Ok tt, f j).

(** Reading [self._button_was_pressed_for_click]. *)
Definition get__button_was_pressed_for_click : M bool :=
  fun j => match _button_was_pressed_for_click j with
           | Some b => (Ok b, j)
           | None => (Raise (AttributeError "_button_was_pressed_for_click"), j)
           end.

Definition get__button_pressed_since_last_check : M bool :=
  fun j => (Ok (_button_pressed_since_last_check j), j).

(** [a and b], [b] evaluated only when [a] holds. *)
Definition and_then (a : bool) (b : M bool) : M bool :=
  if a then b else ret false.

Definition is_button_clicked_once (current_time raw_button_state : Z) : M bool :=
  pressed_now <- (fun j => let '(b, j') := is_button_down j current_time
                                             raw_button_state in (Ok b, j')) ;;
  let tail : M bool :=
    c <- and_then (negb pressed_now) get__button_pressed_since_last_check ;;
    (if c then assign (set__button_pressed_since_last_check false) else ret tt) ;;;
    ret false in
  c1 <- and_then pressed_now
          (w <- get__button_was_pressed_for_click ;; ret (negb w)) ;;
  if c1 then
    assign (set__button_was_pressed_for_click (Some true)) ;;;
    assign (set__button_pressed_since_last_check false) ;;;
    tail
  else
    c2 <- and_then (negb pressed_now) get__button_was_pressed_for_click ;;
    if c2 then
      assign (set__button_was_pressed_for_click (Some false)) ;;;
      assign (set__button_pressed_since_last_check true) ;;;
      ret true
    else tail.

(** [check_for_single_click]: [current_value] is the pin read and
    [current_time] the [ticks_ms()] read. *)
Definition check_for_single_click (j : Joystick) (current_value current_time : Z)
  : bool * Joystick :=
  let '(clicked, j) :=
    if _button_state_for_click j =? 0 then
      if (current_value =? 0) && (_last_button_value_for_click j =? 1) then
        if ticks_diff current_time (_last_button_change_time j) >? debounce_ms j
        then (false,
              set__last_button_change_time current_time
                (set__button_down_start_time current_time
                   (set__button_state_for_click 1 j)))
        else (false, j)
      else (false, j)
    else if _button_state_for_click j =? 1 then
      if current_value =? 1 then
        if ticks_diff current_time (_last_button_change_time j) >? debounce_ms j
        then (ticks_diff current_time (_button_down_start_time j)
                <? click_threshold_ms j,
              set__last_button_change_time current_time
                (set__button_state_for_click 0 j))
        else (false, j)
      else (false, j)
    else (false, j) in
  (clicked, set__last_button_value_for_click current_value j).

(** What [calibrate] prints. *)
Inductive message :=
| CalibrationStart (calibration_time_s : Z)
| CalibrationDone (x y : Z)
| CalibrationFailed.

(** The value a call evaluates to; a method without [return] gives [None]. *)
Inductive pyvalue := PyNone | PyTuple (a b : Z).

(** The [while] loop of [calibrate].  Each entry of [obs] is one turn of the
    loop: the clock read by the loop test and the two ADC values read by the
    body when the test passes; the 10 ms sleep that ends the body shows in
    the next clock reading.  [None] when the observations end before the
    loop does. *)
Fixpoint calibrate_loop (start_time limit : Z) (obs : list (Z * (Z * Z)))
    (x_sum y_sum samples : Z) : option (Z * Z * Z) :=
  match obs with
  | [] => None
  | (now, (x_val, y_val)) :: rest =>
      if ticks_diff now start_time <? limit
      then calibrate_loop start_time limit rest (x_sum + x_val) (y_sum + y_val)
             (samples + 1)
      else Some (x_sum, y_sum, samples)
  end.

Definition calibrate (j : Joystick) (calibration_time_s start_time : Z)
    (obs : list (Z * (Z * Z))) : option (pyvalue * Joystick * list message) :=
  match calibrate_loop start_time (calibration_time_s * 1000) obs 0 0 0 with
  | None => None
  | Some (x_sum, y_sum, samples) =>
      if samples >? 0 then
        let j := set_x_center (x_sum / samples) j in
        let j := set_y_center (y_sum / samples) j in
        Some (PyNone, j,
              [CalibrationStart calibration_time_s;
               CalibrationDone (x_center j) (y_center j)])
      else
        Some (PyNone, j,
              [CalibrationStart calibration_time_s; CalibrationFailed])
  end.

(** Polling [check_for_single_click] on a list of (pin value, clock) reads. *)
Fixpoint poll_clicks (j : Joystick) (polls : list (Z * Z)) : list bool * Joystick :=
  match polls with
  | [] => ([], j)
  | (v, clock) :: rest =>
      let '(c, j') := check_for_single_click j v (ticks_ms clock) in
      let '(cs, j'') := poll_clicks j' rest in
      (c :: cs, j'')
  end.

(** Polling [get_direction(allow_repeat=False)] on a list of
    (x, y, clock) reads. *)
Fixpoint poll_directions (j : Joystick) (polls : list (Z * Z * Z))
  : list Direction * Joystick :=
  match polls with
  | [] => ([], j)
  | (x, y, clock) :: rest =>
      let '(d, j') := get_direction j false x y (ticks_ms clock) in
      let '(ds, j'') := poll_directions j' rest in
      (d :: ds, j'')
  end.

(** Calling [is_button_clicked_once] on a list of (clock, pin value) reads. *)
Fixpoint poll_clicked_once (j : Joystick) (polls : list (Z * Z))
  : list (result bool) * Joystick :=
  match polls with
  | [] => ([], j)
  | (clock, v) :: rest =>
      let '(r, j') := is_button_clicked_once (ticks_ms clock) v j in
      let '(rs, j'') := poll_clicked_once j' rest in
      (r :: rs, j'')
  end.

Definition clicks (out : list bool) : nat := count_occ bool_dec out true.

Definition total (l : list Z) : Z := fold_right Z.add 0 l.

(** A pair of ADC reads inside the dead zone, and one past the right
    threshold. *)
Definition in_dead_zone (j : Joystick) (p : Z * Z * Z) : Prop :=
  let '(x, y, _) := p in
  x_center j - threshold j <= x <= x_center j + threshold j /\
  y_center j - threshold j <= y <= y_center j + threshold j.

Definition pushed_right (j : Joystick) (p : Z * Z * Z) : Prop :=
  let '(x, _, _) := p in x_center j + threshold j < x.

(** Two instances with the same centre and threshold classify alike. *)
Definition same_zones (j j' : Joystick) : Prop :=
  x_center j' = x_center j /\ y_center j' = y_center j /\
  threshold j' = threshold j.

(** The click detector at rest at clock [clock]: Idle, the last value seen
    inactive, and the last transition more than the debounce window ago. *)
Definition settled_idle (j : Joystick) (clock : Z) : Prop :=
  _button_state_for_click j = 0 /\
  _last_button_value_for_click j = 1 /\
  debounce_ms j < ticks_diff (ticks_ms clock) (_last_button_change_time j).

(** The click detector in Pressed since the tick reading [t]. *)
Definition pressed_at (j : Joystick) (t : Z) : Prop :=
  _button_state_for_click j = 1 /\
  _button_down_start_time j = t /\
  _last_button_change_time j = t.

(** The construction-time settings of the click detector are those of [j]. *)
Definition same_timing (j j' : Joystick) : Prop :=
  debounce_ms j' = debounce_ms j /\
  click_threshold_ms j' = click_threshold_ms j.

(** Polling [get_direction(allow_repeat=True)] on a list of (x, y, clock)
    reads: the clocks of the polls that answered a direction other than
    [center]. *)
Fixpoint repeat_emissions (j : Joystick) (polls : list (Z * Z * Z)) : list Z :=
  match polls with
  | [] => []
  | (x, y, clock) :: rest =>
      let '(d, j') := get_direction j true x y (ticks_ms clock) in
      if Direction_eqb d center then repeat_emissions j' rest
      else clock :: repeat_emissions j' rest
  end.

(** Consecutive entries of a list of clocks are more than [gap] apart. *)
Fixpoint spaced (gap : Z) (l : list Z) : Prop :=
  match l with
  | a :: (b :: _) as rest => gap < b - a /\ spaced gap rest
  | _ => True
  end.

(** The clocks of the polls of [poll_clicks] that report a click. *)
Fixpoint click_clocks (j : Joystick) (polls : list (Z * Z)) : list Z :=
  match polls with
  | [] => []
  | (v, clock) :: rest =>
      let '(c, j') := check_for_single_click j v (ticks_ms clock) in
      if c then clock :: click_clocks j' rest else click_clocks j' rest
  end.

(** No direction other than [center] stands twice in a row in a list of
    answers. *)
Fixpoint no_repeat (l : list Direction) : Prop :=
  match l with
  | a :: (b :: _) as rest => (a = center \/ a <> b) /\ no_repeat rest
  | _ => True
  end.

(** The joystick as [main.py] builds it, with the button released, at clock
    values [t0] and [t1]. *)
Definition main_joystick (t0 t1 : Z) : Joystick :=
  init 2048 2048 800 50 300 1 (ticks_ms t0) (ticks_ms t1).

End Joystick.

(** ** main.py: the main menu *)

Module Main.

(** States of the main loop. *)
Definition STATE_MAIN_MENU := 1.
Definition STATE_GAME_TE_INIT := 10.
Definition STATE_GAME_PS_INIT := 20.
Definition STATE_GAME_AUCTION_INIT := 30.
Definition STATE_EXITING := 99.

(** The globals [handle_main_menu_input] works on; an instance global is
    [true] while it holds a game object. *)
Record globals := {
  main_menu_selected_idx : Z;
  current_state : Z;
  game_te_instance : bool;
  game_ps_instance : bool;
  game_auction_instance : bool;
  joystick_dev : Joystick.Joystick;
  ui : UI.UIManager
}.

(** How the call ends, and the screen calls it made. *)
Inductive outcome :=
| Returned (g : globals) (calls : list UI.screen_call)
| Raised (e : UI.exn) (g : globals) (calls : list UI.screen_call).

(** [ui.draw_menu(main_menu_items, idx, title="gambling bot")] after the
    index was stored. *)
Definition redraw (g : globals) (j : Joystick.Joystick) (idx : Z) : outcome :=
  let g' := {| main_menu_selected_idx := idx;
               current_state := current_state g;
               game_te_instance := game_te_instance g;
               game_ps_instance := game_ps_instance g;
               game_auction_instance := game_auction_instance g;
               joystick_dev := j;
               ui := ui g |} in
  match UI.draw_menu (ui g) UI.main_menu_items idx
          (Some "gambling bot"%string) 10 with
  | UI.Done ui' calls =>
      Returned {| main_menu_selected_idx := idx;
                  current_state := current_state g;
                  game_te_instance := game_te_instance g;
                  game_ps_instance := game_ps_instance g;
                  game_auction_instance := game_auction_instance g;
                  joystick_dev := j;
                  ui := ui' |} calls
  | UI.Raised e _ calls => Raised e g' calls
  end.

(** [handle_main_menu_input]: [x_val], [y_val], [t_dir] are the reads of
    [get_direction] and [button], [t_click] those of
    [check_for_single_click]. *)
Definition handle_main_menu_input (g : globals)
    (x_val y_val t_dir button t_click : Z) : outcome :=
  let '(direction, j) :=
    Joystick.get_direction (joystick_dev g) false x_val y_val t_dir in
  let '(clicked, j) := Joystick.check_for_single_click j button t_click in
  let n := Z.of_nat (List.length UI.main_menu_items) in
  if Joystick.Direction_eqb direction Joystick.up then
    redraw g j ((main_menu_selected_idx g - 1 + n) mod n)
  else if Joystick.Direction_eqb direction Joystick.down then
    redraw g j ((main_menu_selected_idx g + 1) mod n)
  else
    let g' := {| main_menu_selected_idx := main_menu_selected_idx g;
                 current_state := current_state g;
                 game_te_instance := game_te_instance g;
                 game_ps_instance := game_ps_instance g;
                 game_auction_instance := game_auction_instance g;
                 joystick_dev := j;
                 ui := ui g |} in
    if clicked then
      match UI.py_index UI.main_menu_items (main_menu_selected_idx g) with
      | None => Raised UI.IndexError g' []
      | Some selected_option =>
          let next :=
            if String.eqb selected_option "1. game_trust_evolution"
            then STATE_GAME_TE_INIT
            else if String.eqb selected_option "2. game_points_showdown"
            then STATE_GAME_PS_INIT
            else if String.eqb selected_option "3. game_auction"
            then STATE_GAME_AUCTION_INIT
            else if String.eqb selected_option "4. exit"
            then STATE_EXITING
            else current_state g in
          Returned {| main_menu_selected_idx := main_menu_selected_idx g;
                      current_state := next;
                      game_te_instance := false;
                      game_ps_instance := false;
                      game_auction_instance := false;
                      joystick_dev := j;
                      ui := ui g |} []
      end
    else Returned g' [].

(** The globals when the main menu is first shown: index 0, the menu state,
    no game, the devices as built. *)
Definition at_main_menu (j : Joystick.Joystick) : globals :=
  {| main_menu_selected_idx := 0;
     current_state := STATE_MAIN_MENU;
     game_te_instance := false;
     game_ps_instance := false;
     game_auction_instance := false;
     joystick_dev := j;
     ui := UI.main_ui |}.

End Main.

(** ** The manager on its driver *)

Module Render.

(** What one screen call of the manager does on the bus: the driver method
    it names, with the arguments the manager passes ([text] is called with
    four arguments, so without background and with the font height 16). *)
Definition run_call (d : Display.ST7789)
    (fb_text : string -> Z -> Z -> Z -> Z -> Z) (c : UI.screen_call)
  : Display.trace :=
  match c with
  | UI.Fill color => Display.fill d color
  | UI.FillRect x y w h color => Display.fill_rect d x y w h color
  | UI.Text s x y color => Display.text d fb_text s x y color None 16
  end.

Definition run_calls (d : Display.ST7789)
    (fb_text : string -> Z -> Z -> Z -> Z -> Z) (calls : list UI.screen_call)
  : Display.trace :=
  flat_map (run_call d fb_text) calls.

End Render.

(** ** game_trust_evolution.py: the payoff table *)

Module Trust.

(** [calc_score(player, computer)] *)
Definition calc_score (player computer : string) : Z * Z :=
  if String.eqb player "C" && String.eqb computer "C" then (3, 3)
  else if String.eqb player "C" && String.eqb computer "D" then (0, 5)
  else if String.eqb player "D" && String.eqb computer "C" then (5, 0)
  else (1, 1).

End Trust.

(** * Properties of the display driver *)

Module DisplayFacts.
Import Display.

Lemma fill_loop_chunks d data n pixels :
  fill_loop d data n pixels = flat_map (write_chunk d data) (chunks n pixels).
Proof.
  revert pixels; induction n as [|n IH]; intros pixels; simpl.
  - reflexivity.
  - now rewrite IH.
Qed.

Lemma chunks_length n pixels : List.length (chunks n pixels) = n.
Proof.
  revert pixels; induction n as [|n IH]; intros; simpl; [reflexivity|].
  now rewrite IH.
Qed.

(** With the iteration count that covers [pixels], every chunk is non-empty
    and within the capacity, and the chunks add up to [pixels]. *)
Lemma chunks_cover n pixels :
  0 <= pixels ->
  chunk_size * Z.of_nat n - chunk_size < pixels <= chunk_size * Z.of_nat n ->
  Forall (fun c => 0 < c <= chunk_size) (chunks n pixels) /\
  sumZ (chunks n pixels) = pixels.
Proof.
  unfold chunk_size.
  revert pixels; induction n as [|n IH]; intros pixels Hp Hn.
  - cbn [chunks sumZ fold_right]. split; [constructor | lia].
  - cbn [chunks sumZ fold_right]. unfold chunk_size.
    destruct n as [|n].
    + cbn [chunks fold_right].
      split; [constructor; [lia | constructor] | lia].
    + destruct (IH (pixels - 512)) as [HF HS]; try lia.
      split.
      * constructor; [lia | exact HF].
      * fold (sumZ (chunks (S n) (pixels - 512))). rewrite HS. lia.
Qed.

Lemma range_len_bounds pixels :
  0 < pixels ->
  chunk_size * Z.of_nat (range_len pixels chunk_size) - chunk_size < pixels
    <= chunk_size * Z.of_nat (range_len pixels chunk_size).
Proof.
  intros Hp. unfold range_len, chunk_size.
  assert (H0 : 0 <= (pixels + 512 - 1) / 512) by (apply Z.div_pos; lia).
  rewrite Z2Nat.id by exact H0.
  pose proof (Z.div_mod (pixels + 512 - 1) 512 ltac:(lia)) as Hd.
  pose proof (Z.mod_pos_bound (pixels + 512 - 1) 512 ltac:(lia)) as Hm.
  lia.
Qed.

Lemma set_window_no_swap d x0 y0 x1 y1 :
  (rotation d =? 1) || (rotation d =? 3) = false ->
  set_window d x0 y0 x1 y1 =
  _write_command d CASET (Some (pack_HH x0 x1)) ++
  _write_command d RASET (Some (pack_HH y0 y1)) ++
  _write_command d RAMWR None.
Proof. intros H. unfold set_window. now rewrite H. Qed.

Lemma set_window_swap d x0 y0 x1 y1 :
  (rotation d =? 1) || (rotation d =? 3) = true ->
  set_window d x0 y0 x1 y1 =
  _write_command d CASET (Some (pack_HH y0 y1)) ++
  _write_command d RASET (Some (pack_HH x0 x1)) ++
  _write_command d RAMWR None.
Proof. intros H. unfold set_window. now rewrite H. Qed.

Lemma pack_H_be16 v : pack_H v = be16 v.
Proof.
  unfold pack_H, be16.
  change 0xFF with (Z.ones 8).
  rewrite !Z.land_ones by lia.
  rewrite Z.shiftr_div_pow2 by lia.
  reflexivity.
Qed.

Lemma ramwr_stream_set_window d armed dc x0 y0 x1 y1 rest :
  dc_pin d = true ->
  ramwr_stream armed dc (set_window d x0 y0 x1 y1 ++ rest) =
  ramwr_stream true 0 rest.
Proof.
  intros Hdc.
  unfold set_window, _write_command, _write_data, pin_set.
  rewrite Hdc.
  destruct ((rotation d =? 1) || (rotation d =? 3)), (cs_pin d); reflexivity.
Qed.

Lemma ramwr_stream_chunks d data dc sizes :
  dc_pin d = true ->
  ramwr_stream true dc (flat_map (write_chunk d data) sizes) =
  map (bytes_mul data) sizes.
Proof.
  intros Hdc. revert dc.
  induction sizes as [|n sizes IH]; intros dc; [reflexivity|].
  cbn [flat_map map].
  unfold write_chunk at 1, _write_data, pin_set. rewrite Hdc.
  destruct (cs_pin d); simpl; now rewrite IH.
Qed.

Lemma bytes_mul_pixels a b n :
  0 <= n -> Z.of_nat (List.length (bytes_mul [a; b] n)) / 2 = n.
Proof.
  intros Hn. unfold bytes_mul.
  assert (H : forall k, List.length (List.concat (repeat [a; b] k)) = (2 * k)%nat).
  { induction k as [|k IH]; simpl; [reflexivity | rewrite IH; lia]. }
  rewrite H, Nat2Z.inj_mul, Z2Nat.id by lia.
  change (Z.of_nat 2) with 2.
  rewrite Z.mul_comm. apply Z.div_mul. lia.
Qed.

(** On a driver with a data/command line the device sees, after the window
    set-up of [fill_rect], exactly the chunks of the loop. *)
Lemma pixel_transfers_fill_rect d x y w h color :
  dc_pin d = true ->
  Forall (fun n => 0 <= n) (chunks (range_len (w * h) chunk_size) (w * h)) ->
  pixel_transfers (fill_rect d x y w h color) =
  chunks (range_len (w * h) chunk_size) (w * h).
Proof.
  intros Hdc Hpos.
  unfold pixel_transfers, fill_rect.
  rewrite fill_loop_chunks, ramwr_stream_set_window, ramwr_stream_chunks
    by exact Hdc.
  rewrite map_map.
  induction Hpos as [|n l Hn _ IH]; [reflexivity|].
  cbn [map]. unfold pack_H at 1. rewrite bytes_mul_pixels by exact Hn.
  now rewrite IH.
Qed.

Lemma spi_payloads_set_window d x0 y0 x1 y1 :
  spi_payloads (set_window d x0 y0 x1 y1) = window_payloads d x0 y0 x1 y1.
Proof.
  unfold window_payloads.
  destruct ((rotation d =? 1) || (rotation d =? 3)) eqn:E;
    [rewrite set_window_swap by exact E | rewrite set_window_no_swap by exact E];
    unfold _write_command, _write_data, pin_set, pack_HH;
    rewrite !pack_H_be16;
    destruct (dc_pin d), (cs_pin d); reflexivity.
Qed.

Lemma spi_payloads_write_data d data :
  spi_payloads (_write_data d data) = [data].
Proof.
  unfold _write_data, pin_set. destruct (dc_pin d), (cs_pin d); reflexivity.
Qed.

Lemma spi_payloads_chunks d color sizes :
  spi_payloads (flat_map (write_chunk d (pack_H color)) sizes) =
  map (solid color) sizes.
Proof.
  induction sizes as [|n sizes IH]; [reflexivity|].
  cbn [flat_map map]. unfold spi_payloads in *. rewrite flat_map_app, IH.
  fold (spi_payloads (write_chunk d (pack_H color) n)).
  unfold write_chunk. rewrite spi_payloads_write_data.
  unfold bytes_mul, solid. now rewrite pack_H_be16.
Qed.

(** C3: a rectangle with positive sides that lies inside the canvas is
    painted by one [set_window] call on the bounds (x, y, x+w-1, y+h-1)
    followed by data transfers only; there are ceil(w*h/512) of them, each
    carries between 1 and 512 pixels, and together they carry w*h pixels.
    On the bus this is the five transfers that set that window, once, and
    then one transfer for each chunk, holding that many copies of the
    colour; a device with a data/command line receives exactly those
    chunks after the memory-write command. *)
Theorem fill_rect_inside_canvas d x y w h color :
  0 < w -> 0 < h -> 0 <= x -> 0 <= y ->
  x + w <= width d -> y + h <= height d ->
  exists sizes : list Z,
    fill_rect d x y w h color =
      set_window d x y (x + w - 1) (y + h - 1) ++
      flat_map (write_chunk d (pack_H color)) sizes /\
    spi_payloads (fill_rect d x y w h color) =
      window_payloads d x y (x + w - 1) (y + h - 1) ++
      map (solid color) sizes /\
    (dc_pin d = true -> pixel_transfers (fill_rect d x y w h color) = sizes) /\
    512 * (Z.of_nat (List.length sizes) - 1) < w * h
      <= 512 * Z.of_nat (List.length sizes) /\
    Forall (fun n => 0 < n <= 512) sizes /\
    sumZ sizes = w * h.
Proof.
  intros Hw Hh Hx Hy Hxw Hyh.
  assert (Hp : 0 < w * h) by nia.
  exists (chunks (range_len (w * h) chunk_size) (w * h)).
  pose proof (range_len_bounds (w * h) Hp) as Hb.
  destruct (chunks_cover _ (w * h) ltac:(lia) Hb) as [HF HS].
  assert (Heq : fill_rect d x y w h color =
      set_window d x y (x + w - 1) (y + h - 1) ++
      flat_map (write_chunk d (pack_H color))
        (chunks (range_len (w * h) chunk_size) (w * h))).
  { unfold fill_rect. rewrite fill_loop_chunks.
    rewrite (Z.min_l (x + w - 1)) by lia.
    rewrite (Z.min_l (y + h - 1)) by lia.
    reflexivity. }
  split; [exact Heq|]. split; [|split; [|repeat split]].
  - rewrite Heq. unfold spi_payloads at 1. rewrite flat_map_app.
    fold (spi_payloads (set_window d x y (x + w - 1) (y + h - 1))).
    fold (spi_payloads
            (flat_map (write_chunk d (pack_H color))
               (chunks (range_len (w * h) chunk_size) (w * h)))).
    now rewrite spi_payloads_set_window, spi_payloads_chunks.
  - intros Hdc. apply pixel_transfers_fill_rect; [exact Hdc|].
    eapply Forall_impl; [|exact HF]. cbv beta. intros; lia.
  - rewrite chunks_length. unfold chunk_size in *. lia.
  - rewrite chunks_length. unfold chunk_size in *. lia.
  - exact HF.
  - exact HS.
Qed.

Lemma fill_rect_inside_canvas_witness :
  exists sizes : list Z,
    fill_rect main_display 10 20 100 50 RED =
      set_window main_display 10 20 109 69 ++
      flat_map (write_chunk main_display (pack_H RED)) sizes /\
    spi_payloads (fill_rect main_display 10 20 100 50 RED) =
      window_payloads main_display 10 20 109 69 ++ map (solid RED) sizes /\
    (dc_pin main_display = true ->
     pixel_transfers (fill_rect main_display 10 20 100 50 RED) = sizes) /\
    512 * (Z.of_nat (List.length sizes) - 1) < 100 * 50
      <= 512 * Z.of_nat (List.length sizes) /\
    Forall (fun n => 0 < n <= 512) sizes /\
    sumZ sizes = 100 * 50.
Proof.
  apply (fill_rect_inside_canvas main_display 10 20 100 50 RED);
    simpl; lia.
Defined.

Lemma full_screen_chunks :
  chunks (range_len (240 * 320) chunk_size) (240 * 320) = repeat 512 150.
Proof. vm_compute. reflexivity. Qed.

Lemma repeat_512_nonneg k : Forall (fun n => 0 <= n) (repeat 512 k).
Proof.
  apply Forall_forall. intros n Hn. apply repeat_spec in Hn. lia.
Qed.

(** C8, as the code has it: on a 240x320 canvas the full-screen fill of
    76800 pixels is one window set-up followed by exactly 150 transfers, and
    every one of the 150 is a full chunk of 512 pixels. *)
Theorem fill_screen_transfers d :
  width d = 240 -> height d = 320 ->
  fill_rect d 0 0 240 320 BLACK =
    set_window d 0 0 239 319 ++
    flat_map (write_chunk d (pack_H BLACK)) (repeat 512 150) /\
  fill d BLACK = fill_rect d 0 0 240 320 BLACK /\
  sumZ (repeat 512 150) = 76800 /\
  (dc_pin d = true ->
   pixel_transfers (fill_rect d 0 0 240 320 BLACK) = repeat 512 150).
Proof.
  intros Hw Hh.
  pose proof full_screen_chunks as Hc.
  repeat split.
  - unfold fill_rect. rewrite fill_loop_chunks, Hc, Hw, Hh. reflexivity.
  - unfold fill. now rewrite Hw, Hh.
  - intros Hdc. rewrite pixel_transfers_fill_rect, Hc; [reflexivity | exact Hdc |].
    rewrite Hc. apply repeat_512_nonneg.
Qed.

Lemma fill_screen_transfers_witness :
  fill_rect main_display 0 0 240 320 BLACK =
    set_window main_display 0 0 239 319 ++
    flat_map (write_chunk main_display (pack_H BLACK)) (repeat 512 150) /\
  fill main_display BLACK = fill_rect main_display 0 0 240 320 BLACK /\
  sumZ (repeat 512 150) = 76800 /\
  (dc_pin main_display = true ->
   pixel_transfers (fill_rect main_display 0 0 240 320 BLACK) = repeat 512 150).
Proof.
  apply (fill_screen_transfers main_display); reflexivity.
Defined.

(** C8, as the specification states it, fails: of the transfers of the
    full-screen fill, it is not the case that 149 carry 512 pixels and one
    carries 256. *)
Lemma fill_screen_not_149_plus_256 :
  ~ (let ts := pixel_transfers (fill_rect main_display 0 0 240 320 BLACK) in
     sumZ ts = 76800 /\ List.length ts = 150%nat /\
     count_occ Z.eq_dec ts 512 = 149%nat /\
     count_occ Z.eq_dec ts 256 = 1%nat).
Proof.
  rewrite pixel_transfers_fill_rect.
  - rewrite full_screen_chunks. vm_compute.
    intros (_ & _ & H & _). discriminate H.
  - reflexivity.
  - rewrite full_screen_chunks. apply repeat_512_nonneg.
Qed.

(** C2 at two rectangles that leave the 240x320 canvas.  The rectangle
    (300, 0, 10, 10) lies wholly to the right of the canvas and its clipped
    area is empty, yet a window is set and one transfer of 100 pixels is
    sent.  The rectangle (200, 0, 100, 10) has a clipped area of 400 pixels
    and its window is cut at column 239, yet 1000 pixels are streamed. *)
Theorem fill_rect_ignores_clipped_area :
  spec_clipped_area main_display 300 0 10 10 = 0 /\
  fill_rect main_display 300 0 10 10 BLACK =
    set_window main_display 300 0 239 9 ++
    write_chunk main_display (pack_H BLACK) 100 /\
  pixel_transfers (fill_rect main_display 300 0 10 10 BLACK) = [100] /\
  spec_clipped_window main_display 200 0 100 10 = (200, 0, 239, 9) /\
  spec_clipped_area main_display 200 0 100 10 = 400 /\
  fill_rect main_display 200 0 100 10 BLACK =
    set_window main_display 200 0 239 9 ++
    flat_map (write_chunk main_display (pack_H BLACK)) [512; 488] /\
  sumZ (pixel_transfers (fill_rect main_display 200 0 100 10 BLACK)) = 1000.
Proof.
  repeat split; vm_compute; reflexivity.
Qed.

(** C6: for a rotation selector in {0,1,2,3}, [set_window] makes five
    transfers: the column-address opcode, its two bounds as big-endian
    16-bit values, the row-address opcode, its two bounds likewise, and the
    memory-write opcode.  The column register receives the y bounds and the
    row register the x bounds exactly when the rotation is 1 or 3; for 0 and
    2 the axes are not swapped.  The orientation byte is the entry of the
    rotation in a table of four distinct bytes. *)
Theorem set_window_registers d x0 y0 x1 y1 :
  0 <= rotation d < 4 ->
  (rotation d = 1 \/ rotation d = 3 ->
   spi_payloads (set_window d x0 y0 x1 y1) =
     [[CASET]; be16 y0 ++ be16 y1; [RASET]; be16 x0 ++ be16 x1; [RAMWR]]) /\
  (rotation d = 0 \/ rotation d = 2 ->
   spi_payloads (set_window d x0 y0 x1 y1) =
     [[CASET]; be16 x0 ++ be16 x1; [RASET]; be16 y0 ++ be16 y1; [RAMWR]]) /\
  Forall (fun v => 0 <= v < 256)
    (List.concat (spi_payloads (set_window d x0 y0 x1 y1))) /\
  _get_madctl d = nth (Z.to_nat (rotation d)) [0x00; 0x60; 0xC0; 0xA0] 0 /\
  NoDup [0x00; 0x60; 0xC0; 0xA0].
Proof.
  intros Hrot.
  assert (Hpay : forall a0 b0 a1 b1,
    spi_payloads (_write_command d CASET (Some (pack_HH a0 a1)) ++
                  _write_command d RASET (Some (pack_HH b0 b1)) ++
                  _write_command d RAMWR None) =
    [[CASET]; be16 a0 ++ be16 a1; [RASET]; be16 b0 ++ be16 b1; [RAMWR]]).
  { intros. unfold pack_HH. rewrite !pack_H_be16.
    unfold _write_command, _write_data, pin_set.
    destruct (dc_pin d), (cs_pin d); reflexivity. }
  assert (Hsw : rotation d = 1 \/ rotation d = 3 ->
    spi_payloads (set_window d x0 y0 x1 y1) =
     [[CASET]; be16 y0 ++ be16 y1; [RASET]; be16 x0 ++ be16 x1; [RAMWR]]).
  { intros H. rewrite set_window_swap, Hpay; [reflexivity|].
    destruct H as [H|H]; rewrite H; reflexivity. }
  assert (Hns : rotation d = 0 \/ rotation d = 2 ->
    spi_payloads (set_window d x0 y0 x1 y1) =
     [[CASET]; be16 x0 ++ be16 x1; [RASET]; be16 y0 ++ be16 y1; [RAMWR]]).
  { intros H. rewrite set_window_no_swap, Hpay; [reflexivity|].
    destruct H as [H|H]; rewrite H; reflexivity. }
  assert (Hbyte : forall v, 0 <= Z.land v 0xFF < 256).
  { intros v. change 0xFF with (Z.ones 8). rewrite Z.land_ones by lia.
    apply Z.mod_pos_bound. lia. }
  split; [exact Hsw|]. split; [exact Hns|]. split.
  - assert (Hcase : rotation d = 1 \/ rotation d = 3 \/
                    rotation d = 0 \/ rotation d = 2) by lia.
    destruct Hcase as [H|[H|H]];
      [rewrite Hsw by tauto | rewrite Hsw by tauto | rewrite Hns by exact H];
      unfold be16; cbn [List.concat app];
      repeat (constructor; [first [apply Hbyte | unfold CASET, RASET, RAMWR; lia]|]);
      constructor.
  - split.
    + unfold _get_madctl.
      assert (Hcase : rotation d = 0 \/ rotation d = 1 \/
                      rotation d = 2 \/ rotation d = 3) by lia.
      destruct Hcase as [H|[H|[H|H]]]; rewrite H; reflexivity.
    + repeat constructor; simpl; intuition lia.
Qed.

Lemma set_window_registers_witness :
  spi_payloads (set_window (fst (init 240 320 true true false true 1)) 10 20 30 300)
  = [[0x2A]; [0; 20; 1; 44]; [0x2B]; [0; 10; 0; 30]; [0x2C]].
Proof.
  assert (Hr : 0 <= rotation (fst (init 240 320 true true false true 1)) < 4)
    by (change (0 <= 1 < 4); lia).
  destruct (set_window_registers (fst (init 240 320 true true false true 1))
              10 20 30 300 Hr) as [Hsw _].
  rewrite Hsw by (left; reflexivity).
  reflexivity.
Defined.

(** C7, as the code has it: with a reset line, [reset] drives the line high
    and holds it 100 ms, then low for 100 ms, then high for 200 ms, and does
    nothing else; without a reset line it makes no transition and no
    delay. *)
Theorem reset_pulse d :
  (reset_pin d = true ->
   reset d = [PinSet RESET 1; SleepMs 100; PinSet RESET 0; SleepMs 100;
              PinSet RESET 1; SleepMs 200] /\
   line_phases (reset d) = [(1, 100); (0, 100); (1, 200)]) /\
  (reset_pin d = false -> reset d = []).
Proof.
  unfold reset. split; intros H; rewrite H; [split|]; reflexivity.
Qed.

Lemma reset_pulse_witness :
  line_phases (reset main_display) = [(1, 100); (0, 100); (1, 200)] /\
  reset (fst (init 240 320 false true false true 0)) = [].
Proof.
  split.
  - apply (proj1 (reset_pulse main_display)). reflexivity.
  - apply (proj2 (reset_pulse (fst (init 240 320 false true false true 0)))).
    reflexivity.
Defined.

(** C7, as the specification states it, fails: the pulse of [reset] does not
    start with a low phase followed by a high one. *)
Lemma reset_pulse_not_low_first :
  reset_pin main_display = true /\
  ~ spec_reset_pulse (line_phases (reset main_display)).
Proof.
  split; [reflexivity|].
  intros (t_low & t_high & released & t_release & Heq & _).
  vm_compute in Heq. discriminate Heq.
Qed.

End DisplayFacts.

(** * Properties of the menu redraw *)

Module UIFacts.
Import UI.

(** A manager whose retained menu state holds no item list repaints in full
    and keeps its state. *)
Lemma draw_menu_without_items ui its sel title sy :
  items (_last_menu_state ui) = None ->
  draw_menu ui its sel title sy =
  Done ui
    (Fill (bg_color ui) ::
     if truthy title then
       FillRect 0 sy (width ui) (char_height ui + line_spacing ui) (bg_color ui) ::
       display_text_multiline ui (or_default title EmptyString) 5 sy
         (width ui - 10) (Some (highlight_text_color ui)) (Some (bg_color ui))
         None ++
       flat_map
         (fun '(i, item) =>
            _draw_menu_item ui i item sy (char_height ui + line_spacing ui)
              (i =? sel))
         (enumerate 0 its)
     else []).
Proof.
  intros Hnone. unfold draw_menu. rewrite Hnone. cbn [option_eqb negb orb].
  unfold clear_screen, or_default at 1.
  destruct (truthy title); reflexivity.
Qed.

Lemma draw_menus_without_items ui calls :
  items (_last_menu_state ui) = None ->
  snd (draw_menus ui calls) = ui /\
  Forall (fun t => clears_screen t = true) (fst (draw_menus ui calls)).
Proof.
  intros Hnone.
  induction calls as [|[[[its sel] title] sy] calls [IHs IHf]].
  - split; [reflexivity | constructor].
  - cbn [draw_menus]. rewrite draw_menu_without_items by exact Hnone.
    destruct (draw_menus ui calls) as [ts ui'] eqn:E.
    cbn [fst snd] in *. split; [exact IHs|].
    constructor; [reflexivity | exact IHf].
Qed.

(** C1 on the code: on a manager built by the constructor every call of
    [draw_menu] clears the screen and leaves the retained state as the
    constructor set it, however many calls came before and whatever they
    passed; so a second call with the same items, title and start_y and
    another selected index is a full repaint too.  A call without a title
    clears the screen and draws no row.  On the main menu of [main.py],
    moving the selection from row 0 to row 1 clears the screen and fills the
    title band and all four rows again. *)
Theorem draw_menu_repaints_in_full st tc bc hc :
  let ui := init st tc bc hc in
  (forall its i j title sy,
     exists t1 t2,
       draw_menu ui its i title sy = Done ui t1 /\
       draw_menu ui its j title sy = Done ui t2 /\
       clears_screen t2 = true) /\
  (forall calls,
     snd (draw_menus ui calls) = ui /\
     Forall (fun t => clears_screen t = true) (fst (draw_menus ui calls))) /\
  (forall its sel sy, draw_menu ui its sel None sy = Done ui [Fill (bg_color ui)]) /\
  map clears_screen
    (fst (draw_menus main_ui
            [(main_menu_items, 0, Some "gambling bot"%string, 10);
             (main_menu_items, 1, Some "gambling bot"%string, 10)]))
    = [true; true] /\
  map (fun t => nodup Z.eq_dec (filled_rows t))
    (fst (draw_menus main_ui
            [(main_menu_items, 0, Some "gambling bot"%string, 10);
             (main_menu_items, 1, Some "gambling bot"%string, 10)]))
    = [[10; 30; 54; 78; 102]; [10; 30; 54; 78; 102]].
Proof.
  intros ui.
  assert (Hnone : items (_last_menu_state ui) = None) by reflexivity.
  split; [|split; [|split; [|split]]].
  - intros its i j title sy.
    rewrite !draw_menu_without_items by exact Hnone.
    eexists; eexists. split; [reflexivity|]. split; reflexivity.
  - intros calls. apply draw_menus_without_items. exact Hnone.
  - intros its sel sy. rewrite draw_menu_without_items by exact Hnone.
    reflexivity.
  - vm_compute. reflexivity.
  - vm_compute. reflexivity.
Qed.

End UIFacts.

(** * Properties of the joystick driver *)

Module JoystickFacts.
Import Joystick.

Lemma TICKS_PERIOD_eq : TICKS_PERIOD = 2 * TICKS_HALF /\ 0 < TICKS_HALF.
Proof. split; vm_compute; reflexivity. Qed.

(** On clock values less than half a period apart, [ticks_diff] of the two
    tick readings is the elapsed time. *)
Lemma ticks_diff_real a b :
  - TICKS_HALF <= a - b < TICKS_HALF ->
  ticks_diff (ticks_ms a) (ticks_ms b) = a - b.
Proof.
  intros H. unfold ticks_diff, ticks_ms.
  destruct TICKS_PERIOD_eq as [HP Hh].
  assert (HP0 : TICKS_PERIOD <> 0) by lia.
  rewrite <- Zplus_mod_idemp_l.
  rewrite <- Zminus_mod.
  rewrite Zplus_mod_idemp_l.
  rewrite Z.mod_small by lia.
  lia.
Qed.

(** *** Edge mode of [get_direction] *)

Lemma current_direction_right j x y c :
  pushed_right j (x, y, c) -> current_direction j x y = right.
Proof.
  unfold pushed_right, current_direction. intros H.
  destruct (Z.gtb_spec x (x_center j + threshold j)); [reflexivity | lia].
Qed.

Lemma current_direction_center j x y c :
  in_dead_zone j (x, y, c) -> current_direction j x y = center.
Proof.
  unfold in_dead_zone, current_direction. intros [Hx Hy].
  destruct (Z.gtb_spec x (x_center j + threshold j)); [lia|].
  destruct (Z.ltb_spec x (x_center j - threshold j)); [lia|].
  destruct (Z.gtb_spec y (y_center j + threshold j)); [lia|].
  destruct (Z.ltb_spec y (y_center j - threshold j)); [lia|].
  reflexivity.
Qed.

Lemma edge_step j x y t :
  let cur := current_direction j x y in
  let '(d, j') := get_direction j false x y t in
  d = (if Direction_eqb cur (_last_direction j) then center else cur) /\
  _last_direction j' = cur /\ same_zones j j'.
Proof.
  intros cur. unfold get_direction, same_zones. fold cur.
  generalize cur. clear cur. intros cur.
  destruct j as [xc yc th db ct lbs lbt bps bds ld ldt rd wp sc lv].
  cbn [_last_direction negb].
  destruct cur, ld; cbn; repeat split; reflexivity.
Qed.

Lemma edge_poll j x y t :
  exists j',
    get_direction j false x y t =
      (if Direction_eqb (current_direction j x y) (_last_direction j)
       then center else current_direction j x y, j') /\
    _last_direction j' = current_direction j x y /\ same_zones j j'.
Proof.
  pose proof (edge_step j x y t) as H. cbv zeta in H.
  destruct (get_direction j false x y t) as [d j'].
  destruct H as (Hd & Hl & Hz). exists j'. subst d. auto.
Qed.

Lemma pushed_right_same j j' p :
  same_zones j j' -> pushed_right j p -> pushed_right j' p.
Proof.
  destruct p as [[x y] c]. unfold same_zones, pushed_right.
  intros (-> & _ & ->). auto.
Qed.

Lemma in_dead_zone_same j j' p :
  same_zones j j' -> in_dead_zone j p -> in_dead_zone j' p.
Proof.
  destruct p as [[x y] c]. unfold same_zones, in_dead_zone.
  intros (-> & -> & ->). auto.
Qed.

Lemma same_zones_trans j1 j2 j3 :
  same_zones j1 j2 -> same_zones j2 j3 -> same_zones j1 j3.
Proof. unfold same_zones. intuition congruence. Qed.

Lemma poll_directions_app j l1 l2 :
  poll_directions j (l1 ++ l2) =
  let '(d1, j1) := poll_directions j l1 in
  let '(d2, j2) := poll_directions j1 l2 in
  (d1 ++ d2, j2).
Proof.
  revert j; induction l1 as [|[[x y] c] l1 IH]; intros j; cbn [poll_directions app].
  - destruct (poll_directions j l2); reflexivity.
  - destruct (get_direction j false x y (ticks_ms c)) as [d j'].
    rewrite IH.
    destruct (poll_directions j' l1) as [d1 j1].
    destruct (poll_directions j1 l2) as [d2 j2]. reflexivity.
Qed.

(** While the stick stays to the right after [right] was reported, every
    poll answers [center]. *)
Lemma held_right_polls held : forall j,
  _last_direction j = right ->
  Forall (pushed_right j) held ->
  exists j',
    poll_directions j held = (repeat center (List.length held), j') /\
    _last_direction j' = right /\ same_zones j j'.
Proof.
  induction held as [|[[x y] c] held IH]; intros j Hl Hall.
  - exists j. repeat split; auto.
  - inversion Hall as [|? ? Hp Hrest]; subst.
    destruct (edge_poll j x y (ticks_ms c)) as (j1 & Hstep & Hl1 & Hz1).
    rewrite (current_direction_right _ _ _ _ Hp) in Hstep, Hl1.
    rewrite Hl in Hstep. cbn [Direction_eqb] in Hstep.
    destruct (IH j1 Hl1) as (j2 & Hrun & Hl2 & Hz2).
    { eapply Forall_impl; [|exact Hrest].
      intros p. apply pushed_right_same. exact Hz1. }
    exists j2. cbn [poll_directions]. rewrite Hstep, Hrun.
    split; [reflexivity|]. split; [exact Hl2|].
    eapply same_zones_trans; eassumption.
Qed.

(** C5: in edge mode, from any state, a poll in the dead zone answers
    [center]; the poll on which the stick is first found to the right
    answers [right]; every later poll with the stick still to the right
    answers [center]; the poll that finds the stick back in the dead zone
    answers [center]; and the next deflection to the right answers [right]
    again. *)
Theorem edge_mode_reports_right_once j p0 r held p1 r' :
  in_dead_zone j p0 ->
  pushed_right j r ->
  Forall (pushed_right j) held ->
  in_dead_zone j p1 ->
  pushed_right j r' ->
  fst (poll_directions j (p0 :: r :: held ++ [p1; r'])) =
  center :: right :: repeat center (List.length held) ++ [center; right].
Proof.
  intros H0 Hr Hheld H1 Hr'.
  destruct p0 as [[x0 y0] c0], r as [[xr yr] cr], p1 as [[x1 y1] c1],
    r' as [[xr' yr'] cr'].
  (* the poll in the dead zone *)
  destruct (edge_poll j x0 y0 (ticks_ms c0)) as (ja & Ha & Hla & Hza).
  rewrite (current_direction_center _ _ _ _ H0) in Ha, Hla.
  assert (Ha' : get_direction j false x0 y0 (ticks_ms c0) = (center, ja))
    by (rewrite Ha; destruct (Direction_eqb center (_last_direction j));
        reflexivity).
  (* the poll that finds the stick to the right *)
  destruct (edge_poll ja xr yr (ticks_ms cr)) as (jb & Hb & Hlb & Hzb).
  rewrite (current_direction_right ja xr yr cr) in Hb, Hlb
    by (eapply pushed_right_same; eassumption).
  rewrite Hla in Hb. cbn [Direction_eqb] in Hb.
  pose proof (same_zones_trans _ _ _ Hza Hzb) as Hzjb.
  (* the polls while it is held *)
  destruct (held_right_polls held jb Hlb) as (jc & Hc & Hlc & Hzc).
  { eapply Forall_impl; [|exact Hheld].
    intros p. apply pushed_right_same. exact Hzjb. }
  pose proof (same_zones_trans _ _ _ Hzjb Hzc) as Hzjc.
  (* back in the dead zone *)
  destruct (edge_poll jc x1 y1 (ticks_ms c1)) as (jd & Hd & Hld & Hzd).
  rewrite (current_direction_center jc x1 y1 c1) in Hd, Hld
    by (eapply in_dead_zone_same; eassumption).
  rewrite Hlc in Hd. cbn [Direction_eqb] in Hd.
  pose proof (same_zones_trans _ _ _ Hzjc Hzd) as Hzjd.
  (* pushed again *)
  destruct (edge_poll jd xr' yr' (ticks_ms cr')) as (je & He & Hle & Hze).
  rewrite (current_direction_right jd xr' yr' cr') in He, Hle
    by (eapply pushed_right_same; eassumption).
  rewrite Hld in He. cbn [Direction_eqb] in He.
  cbn [poll_directions]. rewrite Ha', Hb.
  rewrite poll_directions_app, Hc.
  cbn [poll_directions]. rewrite Hd, He. reflexivity.
Qed.

Lemma edge_mode_reports_right_once_witness :
  fst (poll_directions (main_joystick 0 0)
         [(2050, 2040, 100); (3500, 2048, 120); (3600, 2048, 140);
          (3600, 2050, 160); (2048, 2048, 180); (3200, 2048, 200)]) =
  [center; right; center; center; center; right].
Proof.
  apply (edge_mode_reports_right_once (main_joystick 0 0)
           (2050, 2040, 100) (3500, 2048, 120)
           [(3600, 2048, 140); (3600, 2050, 160)]
           (2048, 2048, 180) (3200, 2048, 200)).
  - simpl; lia.
  - simpl; lia.
  - repeat constructor; simpl; lia.
  - simpl; lia.
  - simpl; lia.
Defined.

(** *** The click detector *)

Ltac fields j :=
  destruct j as [xc yc th db ct lbs lbt bps bds ld ldt rd wp sc lv];
  unfold pressed_at, same_timing, settled_idle, check_for_single_click in *;
  cbn in *.

Lemma click_press j c :
  _button_state_for_click j = 0 ->
  _last_button_value_for_click j = 1 ->
  debounce_ms j < ticks_diff c (_last_button_change_time j) ->
  exists j',
    check_for_single_click j 0 c = (false, j') /\
    pressed_at j' c /\ same_timing j j'.
Proof.
  intros Hs Hv Hd. fields j. subst sc lv. cbn.
  destruct (Z.gtb_spec (ticks_diff c lbt) db); [|lia].
  eexists. split; [reflexivity|]. cbn. auto.
Qed.

Lemma click_hold j t c :
  pressed_at j t ->
  exists j',
    check_for_single_click j 0 c = (false, j') /\
    pressed_at j' t /\ same_timing j j'.
Proof.
  intros (Hs & Hd & Hl). fields j. subst sc bds lbt. cbn.
  eexists. split; [reflexivity|]. cbn. auto.
Qed.

Lemma click_release j t c :
  pressed_at j t ->
  debounce_ms j < ticks_diff c t ->
  exists j',
    check_for_single_click j 1 c = (ticks_diff c t <? click_threshold_ms j, j') /\
    _button_state_for_click j' = 0.
Proof.
  intros (Hs & Hd & Hl) Hdb. fields j. subst sc bds lbt. cbn.
  destruct (Z.gtb_spec (ticks_diff c t) db); [|lia].
  eexists. split; [reflexivity|]. reflexivity.
Qed.

Lemma poll_clicks_app j l1 l2 :
  poll_clicks j (l1 ++ l2) =
  let '(o1, j1) := poll_clicks j l1 in
  let '(o2, j2) := poll_clicks j1 l2 in
  (o1 ++ o2, j2).
Proof.
  revert j; induction l1 as [|[v c] l1 IH]; intros j; cbn [poll_clicks app].
  - destruct (poll_clicks j l2); reflexivity.
  - destruct (check_for_single_click j v (ticks_ms c)) as [b j'].
    rewrite IH.
    destruct (poll_clicks j' l1) as [o1 j1].
    destruct (poll_clicks j1 l2) as [o2 j2]. reflexivity.
Qed.

(** While the signal stays active in Pressed, no poll reports a click and
    the press-start time is kept. *)
Lemma held_polls holds : forall j t,
  pressed_at j t ->
  exists j',
    poll_clicks j (map (fun c => (0, c)) holds) =
      (repeat false (List.length holds), j') /\
    pressed_at j' t /\ same_timing j j'.
Proof.
  induction holds as [|c holds IH]; intros j t Hp.
  - exists j. repeat split; auto; apply Hp.
  - destruct (click_hold j t (ticks_ms c) Hp) as (j1 & Hstep & Hp1 & Ht1).
    destruct (IH j1 t Hp1) as (j2 & Hrun & Hp2 & Ht2).
    exists j2. cbn [map poll_clicks]. rewrite Hstep, Hrun.
    split; [reflexivity|]. split; [exact Hp2|].
    unfold same_timing in *. intuition congruence.
Qed.

(** A poll changes neither setting, and a poll that reports a click leaves
    the detector Idle with the last transition at that poll. *)
Lemma click_step_facts j v c :
  let '(b, j') := check_for_single_click j v c in
  same_timing j j' /\
  (b = true ->
   _button_state_for_click j' = 0 /\ _last_button_change_time j' = c).
Proof.
  fields j.
  destruct (sc =? 0); [|destruct (sc =? 1)];
    repeat match goal with
    | |- context [if ?b then _ else _] => destruct b; cbn
    end; repeat split; auto; try discriminate.
Qed.

(** An Idle detector whose last transition is no more than the debounce
    window ago ignores the poll. *)
Lemma click_idle_blocked j v c :
  _button_state_for_click j = 0 ->
  ticks_diff c (_last_button_change_time j) <= debounce_ms j ->
  exists j',
    check_for_single_click j v c = (false, j') /\
    _button_state_for_click j' = 0 /\
    _last_button_change_time j' = _last_button_change_time j /\
    same_timing j j'.
Proof.
  intros Hs Hd. fields j. subst sc. cbn.
  destruct (Z.gtb_spec (ticks_diff c lbt) db); [lia|].
  destruct ((v =? 0) && (lv =? 1)); eexists; (split; [reflexivity|]); cbn; auto.
Qed.

Lemma idle_window_no_click polls : forall j a tc,
  _button_state_for_click j = 0 ->
  _last_button_change_time j = ticks_ms tc ->
  debounce_ms j < TICKS_HALF ->
  a <= tc <= a + debounce_ms j ->
  Forall (fun p => a <= snd p <= a + debounce_ms j) polls ->
  clicks (fst (poll_clicks j polls)) = 0%nat.
Proof.
  induction polls as [|[v c] polls IH]; intros j a tc Hs Hl Hh Htc Hall.
  - reflexivity.
  - inversion Hall as [|? ? Hc Hrest]; subst. cbn [snd] in Hc.
    destruct (click_idle_blocked j v (ticks_ms c) Hs) as (j1 & Hstep & Hs1 & Hl1 & Ht1).
    { rewrite Hl, ticks_diff_real by lia. lia. }
    cbn [poll_clicks]. rewrite Hstep.
    destruct Ht1 as [Hdb _].
    specialize (IH j1 a tc Hs1).
    rewrite Hl1, Hdb in IH. specialize (IH Hl Hh Htc Hrest).
    destruct (poll_clicks j1 polls) as [cs j2]. cbn [fst] in *.
    unfold clicks in *. cbn. exact IH.
Qed.

Lemma window_at_most_one_click polls : forall j a,
  debounce_ms j < TICKS_HALF ->
  Forall (fun p => a <= snd p <= a + debounce_ms j) polls ->
  (clicks (fst (poll_clicks j polls)) <= 1)%nat.
Proof.
  induction polls as [|[v c] polls IH]; intros j a Hh Hall.
  - cbn. lia.
  - inversion Hall as [|? ? Hc Hrest]; subst. cbn [snd] in Hc.
    cbn [poll_clicks].
    pose proof (click_step_facts j v (ticks_ms c)) as Hf.
    destruct (check_for_single_click j v (ticks_ms c)) as [b j1].
    destruct Hf as [[Hdb Hct] Hb].
    destruct b.
    + destruct (Hb eq_refl) as [Hs1 Hl1].
      pose proof (idle_window_no_click polls j1 a c Hs1 Hl1) as H0.
      rewrite Hdb in H0. specialize (H0 Hh Hc Hrest).
      destruct (poll_clicks j1 polls) as [cs j2]. cbn [fst] in *.
      unfold clicks in *. cbn. lia.
    + specialize (IH j1 a). rewrite Hdb in IH. specialize (IH Hh Hrest).
      destruct (poll_clicks j1 polls) as [cs j2]. cbn [fst] in *.
      unfold clicks in *. cbn. exact IH.
Qed.

Lemma clicks_after_quiet n b :
  clicks (repeat false n ++ [b]) = if b then 1%nat else 0%nat.
Proof.
  unfold clicks. induction n as [|n IH]; cbn.
  - destruct b; reflexivity.
  - exact IH.
Qed.

Lemma click_release_long j t c :
  pressed_at j t ->
  click_threshold_ms j <= ticks_diff c t ->
  fst (check_for_single_click j 1 c) = false.
Proof.
  intros (Hs & Hd & Hl) Hlong. fields j. subst sc bds lbt. cbn.
  destruct (ticks_diff c t >? db); cbn; [|reflexivity].
  destruct (Z.ltb_spec (ticks_diff c t) ct); [lia | reflexivity].
Qed.

(** C4, as the code has it: the detector is at rest in Idle, its last
    transition more than the debounce window before the poll at clock [t0]
    that first sees the signal active; the signal is held through any
    number of polls and first seen inactive at clock [tr].  When the hold
    [tr - t0] exceeds the debounce window the release poll brings the
    detector back to Idle, and if the hold is also below the click-duration
    ceiling exactly one click is reported, by the release poll.  When the
    hold is at least the ceiling no click is reported.  And whatever the
    state and the signal, polls that all fall within one debounce window
    report at most one click. *)
Theorem click_detector j t0 holds tr j2 a polls :
  (settled_idle j t0 ->
   0 <= tr - t0 < TICKS_HALF ->
   let run :=
     poll_clicks j ((0, t0) :: map (fun c => (0, c)) holds ++ [(1, tr)]) in
   (debounce_ms j < tr - t0 -> _button_state_for_click (snd run) = 0) /\
   (debounce_ms j < tr - t0 < click_threshold_ms j ->
    fst run = repeat false (S (List.length holds)) ++ [true] /\
    clicks (fst run) = 1%nat) /\
   (click_threshold_ms j <= tr - t0 ->
    fst run = repeat false (S (List.length holds)) ++ [false] /\
    clicks (fst run) = 0%nat)) /\
  (debounce_ms j2 < TICKS_HALF ->
   Forall (fun p => a <= snd p <= a + debounce_ms j2) polls ->
   (clicks (fst (poll_clicks j2 polls)) <= 1)%nat).
Proof.
  split.
  - intros (Hs & Hv & Hd) Hhalf run.
    destruct (click_press j (ticks_ms t0) Hs Hv Hd) as (j1 & Hpress & Hp1 & Ht1).
    destruct (held_polls holds j1 (ticks_ms t0) Hp1) as (j2' & Hheld & Hp2 & Ht2).
    assert (Hdiff : ticks_diff (ticks_ms tr) (ticks_ms t0) = tr - t0)
      by (apply ticks_diff_real; lia).
    destruct Ht1 as [Hdb1 Hct1]. destruct Ht2 as [Hdb2 Hct2].
    assert (Hct : click_threshold_ms j2' = click_threshold_ms j) by congruence.
    assert (Hdb : debounce_ms j2' = debounce_ms j) by congruence.
    assert (Hrun : run =
      (repeat false (S (List.length holds)) ++
         [fst (check_for_single_click j2' 1 (ticks_ms tr))],
       snd (check_for_single_click j2' 1 (ticks_ms tr)))).
    { subst run. cbn [poll_clicks]. rewrite Hpress.
      rewrite poll_clicks_app, Hheld. cbn [poll_clicks].
      destruct (check_for_single_click j2' 1 (ticks_ms tr)). reflexivity. }
    rewrite Hrun. cbn [fst snd]. rewrite clicks_after_quiet.
    split; [|split].
    + intros Hlong.
      destruct (click_release j2' (ticks_ms t0) (ticks_ms tr) Hp2)
        as (j3 & Hrel & Hs3); [rewrite Hdiff; lia|].
      rewrite Hrel. exact Hs3.
    + intros [Hlong Hshort].
      destruct (click_release j2' (ticks_ms t0) (ticks_ms tr) Hp2)
        as (j3 & Hrel & Hs3); [rewrite Hdiff; lia|].
      rewrite Hrel, Hdiff, Hct. cbn [fst].
      destruct (Z.ltb_spec (tr - t0) (click_threshold_ms j)); [auto | lia].
    + intros Hceil.
      rewrite (click_release_long j2' (ticks_ms t0) (ticks_ms tr) Hp2)
        by (rewrite Hdiff; lia).
      auto.
  - intros Hh Hall. eapply window_at_most_one_click; eassumption.
Qed.

Lemma click_detector_witness :
  fst (poll_clicks (main_joystick 0 0) [(0, 100); (0, 120); (0, 140); (1, 200)])
    = [false; false; false; true] /\
  fst (poll_clicks (main_joystick 0 0) [(0, 100); (0, 200); (0, 300); (1, 400)])
    = [false; false; false; false] /\
  Nat.le
    (clicks (fst (poll_clicks (main_joystick 0 0)
                    [(0, 100); (1, 120); (0, 130); (1, 150)]))) 1.
Proof.
  split; [|split].
  - destruct (click_detector (main_joystick 0 0) 100 [120; 140] 200
                (main_joystick 0 0) 100 []) as [Hab _].
    apply Hab.
    + repeat split; vm_compute; reflexivity.
    + vm_compute. split; [discriminate | reflexivity].
    + vm_compute. split; reflexivity.
  - destruct (click_detector (main_joystick 0 0) 100 [200; 300] 400
                (main_joystick 0 0) 100 []) as [Hab _].
    apply Hab.
    + repeat split; vm_compute; reflexivity.
    + vm_compute. split; [discriminate | reflexivity].
    + vm_compute. discriminate.
  - destruct (click_detector (main_joystick 0 0) 0 [] 0
                (main_joystick 0 0) 100
                [(0, 100); (1, 120); (0, 130); (1, 150)]) as [_ Hc].
    apply Hc.
    + vm_compute. reflexivity.
    + repeat constructor; vm_compute; discriminate.
Defined.

(** C4, as the specification states it, fails: on an instance built at
    clock 0 the press first polled at clock 20, inside the debounce window
    of 50 ms that follows construction, and released at clock 200 is a hold
    of 180 ms, above the window and below the ceiling of 300 ms; the
    detector starts Idle and ends Idle, and no click is reported. *)
Lemma click_lost_inside_debounce_window :
  let j := main_joystick 0 0 in
  let run := poll_clicks j [(0, 20); (0, 100); (1, 200)] in
  _button_state_for_click j = 0 /\
  debounce_ms j < 200 - 20 < click_threshold_ms j /\
  _button_state_for_click (snd run) = 0 /\
  fst run = [false; false; false] /\
  clicks (fst run) <> 1%nat.
Proof.
  vm_compute. repeat split; discriminate.
Qed.

(** *** Calibration *)

Lemma calibrate_loop_window start limit samples stop rest : forall xs ys n,
  Forall (fun o => ticks_diff (fst o) start < limit) samples ->
  limit <= ticks_diff (fst stop) start ->
  calibrate_loop start limit (samples ++ stop :: rest) xs ys n =
  Some (xs + total (map (fun o => fst (snd o)) samples),
        ys + total (map (fun o => snd (snd o)) samples),
        n + Z.of_nat (List.length samples)).
Proof.
  induction samples as [|[now [x y]] samples IH]; intros xs ys n Hall Hstop.
  - destruct stop as [now [x y]]. cbn in *.
    destruct (Z.ltb_spec (ticks_diff now start) limit); [lia|].
    apply f_equal; apply f_equal2; [apply f_equal2|]; lia.
  - inversion Hall as [|? ? Hnow Hrest]; subst. cbn [fst] in Hnow.
    cbn [calibrate_loop app].
    destruct (Z.ltb_spec (ticks_diff now start) limit); [|lia].
    rewrite IH by assumption.
    unfold total. cbn [map fold_right List.length fst snd].
    rewrite Nat2Z.inj_succ.
    apply f_equal; apply f_equal2; [apply f_equal2|]; lia.
Qed.

Lemma set_centers j x y :
  x_center (set_y_center y (set_x_center x j)) = x /\
  y_center (set_y_center y (set_x_center x j)) = y.
Proof. destruct j; split; reflexivity. Qed.

(** C9, as the code has it: when the clock readings of the loop stay inside
    the window for the turns that take the samples and then leave it, the
    call ends; with at least one sample the two centres are overwritten with
    the floor averages of the samples and the completion message is
    printed; with no sample the failure message is printed and the instance
    is unchanged.  In both cases the call evaluates to [None]. *)
Theorem calibrate_averages j secs start samples stop rest :
  Forall (fun o => ticks_diff (fst o) start < secs * 1000) samples ->
  secs * 1000 <= ticks_diff (fst stop) start ->
  let n := Z.of_nat (List.length samples) in
  let xs := total (map (fun o => fst (snd o)) samples) in
  let ys := total (map (fun o => snd (snd o)) samples) in
  (samples <> [] ->
   exists j',
     calibrate j secs start (samples ++ stop :: rest) =
       Some (PyNone, j',
             [CalibrationStart secs; CalibrationDone (xs / n) (ys / n)]) /\
     x_center j' = xs / n /\ y_center j' = ys / n) /\
  (samples = [] ->
   calibrate j secs start (samples ++ stop :: rest) =
     Some (PyNone, j, [CalibrationStart secs; CalibrationFailed])).
Proof.
  intros Hall Hstop n xs ys.
  unfold calibrate.
  rewrite (calibrate_loop_window _ _ _ _ _ 0 0 0 Hall Hstop).
  cbn [Z.add]. fold n xs ys.
  split.
  - intros Hne.
    assert (Hn : 0 < n)
      by (subst n; destruct samples; [congruence | cbn [List.length]; lia]).
    destruct (Z.gtb_spec n 0); [|lia].
    destruct (set_centers j (xs / n) (ys / n)) as [Hx Hy].
    eexists. split; [|split; [exact Hx | exact Hy]].
    rewrite Hx, Hy. reflexivity.
  - intros ->. reflexivity.
Qed.

Lemma calibrate_averages_witness :
  (exists j',
     calibrate (main_joystick 0 0) 2 0
       [(0, (2000, 2100)); (10, (2003, 2099)); (2000, (0, 0))] =
       Some (PyNone, j', [CalibrationStart 2; CalibrationDone 2001 2099]) /\
     x_center j' = 2001 /\ y_center j' = 2099) /\
  calibrate (main_joystick 0 0) 0 0 [(0, (2000, 2100))] =
    Some (PyNone, main_joystick 0 0, [CalibrationStart 0; CalibrationFailed]).
Proof.
  split.
  - apply (calibrate_averages (main_joystick 0 0) 2 0
             [(0, (2000, 2100)); (10, (2003, 2099))] (2000, (0, 0)) []).
    + repeat constructor; vm_compute; reflexivity.
    + vm_compute. discriminate.
    + discriminate.
  - apply (calibrate_averages (main_joystick 0 0) 0 0 [] (0, (2000, 2100)) []).
    + constructor.
    + vm_compute. discriminate.
    + reflexivity.
Defined.

(** C9, as the specification states it, fails: a calibration that collects
    samples does not evaluate to the pair of the new centres. *)
Lemma calibrate_does_not_return_centers :
  ~ (exists j' printed,
       calibrate (main_joystick 0 0) 2 0
         [(0, (2000, 2100)); (10, (2003, 2099)); (2000, (0, 0))] =
       Some (PyTuple (x_center j') (y_center j'), j', printed)).
Proof.
  intros (j' & printed & H). vm_compute in H. discriminate H.
Qed.

(** *** The two single-click methods *)

Lemma is_button_down_keeps_missing j t v :
  _button_was_pressed_for_click j = None ->
  _button_was_pressed_for_click (snd (is_button_down j t v)) = None.
Proof.
  intros H. unfold is_button_down.
  destruct j as [xc yc th db ct lbs lbt bps bds ld ldt rd wp sc lv].
  cbn in *. subst wp.
  destruct (negb (v =? lbs)); cbn;
    match goal with
    | |- context [if ?b then _ else _] => destruct b
    end; reflexivity.
Qed.

Lemma is_button_clicked_once_missing j t v :
  _button_was_pressed_for_click j = None ->
  is_button_clicked_once t v j =
    (Raise (AttributeError "_button_was_pressed_for_click"),
     snd (is_button_down j t v)).
Proof.
  intros H.
  pose proof (is_button_down_keeps_missing j t v H) as Hd.
  unfold is_button_clicked_once, bind.
  destruct (is_button_down j t v) as [pressed_now j1]. cbn [snd] in *.
  destruct pressed_now; cbn [and_then negb];
    unfold bind, ret, get__button_was_pressed_for_click; rewrite Hd;
    reflexivity.
Qed.

Lemma check_for_single_click_keeps_missing j v t :
  _button_was_pressed_for_click j = None ->
  _button_was_pressed_for_click (snd (check_for_single_click j v t)) = None.
Proof.
  intros H. fields j. subst wp.
  destruct (sc =? 0); [|destruct (sc =? 1)];
    repeat match goal with
    | |- context [if ?b then _ else _] => destruct b; cbn
    end; reflexivity.
Qed.

Lemma poll_clicks_keeps_missing polls : forall j,
  _button_was_pressed_for_click j = None ->
  _button_was_pressed_for_click (snd (poll_clicks j polls)) = None.
Proof.
  induction polls as [|[v c] polls IH]; intros j H; [exact H|].
  cbn [poll_clicks].
  pose proof (check_for_single_click_keeps_missing j v (ticks_ms c) H) as H1.
  destruct (check_for_single_click j v (ticks_ms c)) as [b j1]. cbn [snd] in H1.
  specialize (IH j1 H1).
  destruct (poll_clicks j1 polls) as [cs j2]. exact IH.
Qed.

Lemma poll_clicked_once_missing polls : forall j,
  _button_was_pressed_for_click j = None ->
  Forall (fun r => r = Raise (AttributeError "_button_was_pressed_for_click"))
    (fst (poll_clicked_once j polls)).
Proof.
  induction polls as [|[c v] polls IH]; intros j H; [constructor|].
  cbn [poll_clicked_once].
  rewrite (is_button_clicked_once_missing j (ticks_ms c) v H).
  pose proof (is_button_down_keeps_missing j (ticks_ms c) v H) as H1.
  specialize (IH _ H1).
  destruct (poll_clicked_once (snd (is_button_down j (ticks_ms c) v)) polls)
    as [rs j2].
  constructor; [reflexivity | exact IH].
Qed.

(** C10: on an instance fresh from the constructor, whatever the button and
    the clock read, the first call of [is_button_clicked_once] raises
    [AttributeError] for [_button_was_pressed_for_click]; so does every
    later call, also after any number of [check_for_single_click] polls,
    which themselves return a truth value at every poll. *)
Theorem is_button_clicked_once_raises xc yc th db ct bv t0 t1 :
  let j := init xc yc th db ct bv t0 t1 in
  (forall t v,
     fst (is_button_clicked_once t v j) =
     Raise (AttributeError "_button_was_pressed_for_click")) /\
  (forall polls,
     Forall (fun r => r = Raise (AttributeError "_button_was_pressed_for_click"))
       (fst (poll_clicked_once j polls))) /\
  (forall polls t v,
     List.length (fst (poll_clicks j polls)) = List.length polls /\
     fst (is_button_clicked_once t v (snd (poll_clicks j polls))) =
     Raise (AttributeError "_button_was_pressed_for_click")).
Proof.
  intros j.
  assert (H : _button_was_pressed_for_click j = None) by reflexivity.
  split; [|split].
  - intros t v. now rewrite is_button_clicked_once_missing.
  - intros polls. now apply poll_clicked_once_missing.
  - intros polls t v. split.
    + clear H. generalize j. induction polls as [|[v' c] polls IH]; intros j0.
      * reflexivity.
      * cbn [poll_clicks].
        destruct (check_for_single_click j0 v' (ticks_ms c)) as [b j1].
        specialize (IH j1). destruct (poll_clicks j1 polls) as [cs j2].
        cbn [fst List.length] in *. now rewrite IH.
    + rewrite is_button_clicked_once_missing; [reflexivity|].
      now apply poll_clicks_keeps_missing.
Qed.

End JoystickFacts.

(** * Further properties of the display driver *)

Module DisplayMore.
Import Display.

Lemma range_length n : List.length (range n) = Z.to_nat n.
Proof. unfold range. now rewrite length_map, length_seq. Qed.

Lemma range_bounds n i : In i (range n) -> 0 <= i < n.
Proof.
  unfold range. intros H. apply in_map_iff in H.
  destruct H as (k & <- & Hk). apply in_seq in Hk. lia.
Qed.

Lemma flat_map_length_const {A B} (f : A -> list B) k l :
  (forall a, List.length (f a) = k) ->
  List.length (flat_map f l) = (k * List.length l)%nat.
Proof.
  intros Hf. induction l as [|a l IH]; cbn [flat_map List.length].
  - lia.
  - rewrite length_app, Hf, IH. lia.
Qed.

Lemma land_byte v : 0 <= Z.land v 0xFF < 256.
Proof.
  change 0xFF with (Z.ones 8). rewrite Z.land_ones by lia.
  apply Z.mod_pos_bound. lia.
Qed.

Lemma text_buffer_length fb w h tc bg :
  List.length (text_buffer fb w h tc bg) = (2 * Z.to_nat w * Z.to_nat h)%nat.
Proof.
  unfold text_buffer.
  rewrite (flat_map_length_const _ (2 * Z.to_nat w)).
  - rewrite range_length. lia.
  - intros py. rewrite (flat_map_length_const _ 2).
    + now rewrite range_length.
    + reflexivity.
Qed.

Lemma text_buffer_bytes fb w h tc bg :
  Forall (fun b => 0 <= b < 256) (text_buffer fb w h tc bg).
Proof.
  unfold text_buffer. apply Forall_flat_map, Forall_forall. intros py _.
  apply Forall_flat_map, Forall_forall. intros px _.
  repeat constructor; apply land_byte.
Qed.



Lemma flat_map_of_map {A B C} (f : B -> list C) (g : A -> B) l :
  flat_map f (map g l) = flat_map (fun a => f (g a)) l.
Proof.
  induction l as [|a l IH]; [reflexivity|]. cbn. now rewrite IH.
Qed.

Lemma flat_map_of_flat_map {A B C} (f : B -> list C) (g : A -> list B) l :
  flat_map f (flat_map g l) = flat_map (fun a => flat_map f (g a)) l.
Proof.
  induction l as [|a l IH]; [reflexivity|].
  cbn [flat_map]. now rewrite flat_map_app, IH.
Qed.

(** The buffer of [text] is, cell by cell, the two bytes of the text colour
    or of the background (of [BLACK] without one). *)
Lemma text_buffer_cells fb w h tc bg :
  exists colours,
    text_buffer fb w h tc bg = flat_map be16 colours /\
    List.length colours = (Z.to_nat w * Z.to_nat h)%nat /\
    Forall (fun c => c = tc \/
                     c = match bg with Some b => b | None => BLACK end) colours.
Proof.
  exists (flat_map
            (fun py =>
               map (fun px => if fb px py =? 1 then tc
                              else match bg with Some b => b | None => BLACK end)
                 (range w))
            (range h)).
  split; [|split].
  - unfold text_buffer. rewrite flat_map_of_flat_map.
    apply flat_map_ext. intros py. now rewrite flat_map_of_map.
  - rewrite (flat_map_length_const _ (Z.to_nat w)).
    + rewrite range_length. lia.
    + intros py. now rewrite length_map, range_length.
  - apply Forall_flat_map, Forall_forall. intros py _.
    apply Forall_forall. intros c Hc. apply in_map_iff in Hc.
    destruct Hc as (px & <- & _). destruct (fb px py =? 1); auto.
Qed.

Lemma be16_cells_length colours :
  List.length (flat_map be16 colours) = (2 * List.length colours)%nat.
Proof.
  rewrite (flat_map_length_const _ 2); [lia | reflexivity].
Qed.

Lemma be16_cells_bytes colours :
  Forall (fun b => 0 <= b < 256) (flat_map be16 colours).
Proof.
  apply Forall_flat_map, Forall_forall. intros c _.
  repeat constructor; apply land_byte.
Qed.

(** What the bus and the device see of a window set-up followed by one data
    transfer. *)
Lemma window_then_data d x0 y0 x1 y1 data :
  spi_payloads (set_window d x0 y0 x1 y1 ++ _write_data d data) =
    window_payloads d x0 y0 x1 y1 ++ [data] /\
  (dc_pin d = true ->
   pixel_transfers (set_window d x0 y0 x1 y1 ++ _write_data d data) =
     [Z.of_nat (List.length data) / 2]).
Proof.
  split.
  - unfold spi_payloads. rewrite flat_map_app.
    fold (spi_payloads (set_window d x0 y0 x1 y1)).
    fold (spi_payloads (_write_data d data)).
    now rewrite DisplayFacts.spi_payloads_set_window,
      DisplayFacts.spi_payloads_write_data.
  - intros Hdc. unfold pixel_transfers.
    rewrite DisplayFacts.ramwr_stream_set_window by exact Hdc.
    unfold _write_data, pin_set. rewrite Hdc.
    destruct (cs_pin d); reflexivity.
Qed.

(** X2: [text] does nothing when the string is empty, the font height is
    not positive or the origin is at or past the right or bottom edge.
    Otherwise its window starts at (x, y) and ends at the clipped end of the
    text, column min(x + len * char_width, width) - 1 and row
    min(y + font_height, height) - 1, the character width being half the
    font height (8 below 8).  The bus carries the five transfers that set
    that window and then one transfer holding, for every pixel of the
    window, the two bytes of the text colour or of the background colour
    ([BLACK] without one); a device with a data/command line receives
    exactly the pixels of the window. *)
Theorem text_fills_its_window d fb s x y tc bg fh :
  ((s = EmptyString \/ fh <= 0 \/ width d <= x \/ height d <= y) ->
   text d fb s x y tc bg fh = []) /\
  (s <> EmptyString -> 0 < fh -> x < width d -> y < height d ->
   let cw := if fh >=? 8 then fh / 2 else 8 in
   let x1 := Z.min (x + Z.of_nat (String.length s) * cw) (width d) - 1 in
   let y1 := Z.min (y + fh) (height d) - 1 in
   x <= x1 < width d /\ y <= y1 < height d /\
   exists colours,
     Z.of_nat (List.length colours) = (x1 - x + 1) * (y1 - y + 1) /\
     Forall (fun c => c = tc \/
                      c = match bg with Some b => b | None => BLACK end)
       colours /\
     text d fb s x y tc bg fh =
       set_window d x y x1 y1 ++ _write_data d (flat_map be16 colours) /\
     spi_payloads (text d fb s x y tc bg fh) =
       window_payloads d x y x1 y1 ++ [flat_map be16 colours] /\
     Z.of_nat (List.length (flat_map be16 colours))
       = 2 * ((x1 - x + 1) * (y1 - y + 1)) /\
     Forall (fun b => 0 <= b < 256) (flat_map be16 colours) /\
     (dc_pin d = true ->
      pixel_transfers (text d fb s x y tc bg fh) =
        [(x1 - x + 1) * (y1 - y + 1)])).
Proof.
  assert (Hcw : 4 <= (if fh >=? 8 then fh / 2 else 8)).
  { destruct (Z.geb_spec fh 8); [|lia].
    apply Z.div_le_lower_bound; lia. }
  unfold text.
  set (cw := if fh >=? 8 then fh / 2 else 8) in *.
  set (tw := Z.of_nat (String.length s) * cw).
  split.
  - intros Hempty.
    assert (Hor : Z.min (x + tw) (width d) - x <= 0 \/
                  Z.min (y + fh) (height d) - y <= 0).
    { destruct Hempty as [-> | [H | [H | H]]]; subst tw; cbn; lia. }
    destruct (Z.leb_spec (Z.min (x + tw) (width d) - x) 0); [reflexivity|].
    destruct (Z.leb_spec (Z.min (y + fh) (height d) - y) 0); [reflexivity|].
    lia.
  - intros Hs Hfh Hx Hy. cbv zeta. fold tw.
    assert (Hlen : 0 < Z.of_nat (String.length s))
      by (destruct s; [congruence | cbn [String.length]; lia]).
    assert (Htw : 0 < tw) by (subst tw; nia).
    destruct (Z.leb_spec (Z.min (x + tw) (width d) - x) 0); [lia|].
    destruct (Z.leb_spec (Z.min (y + fh) (height d) - y) 0); [lia|].
    cbn [orb].
    set (x_end := Z.min (x + tw) (width d)) in *.
    set (y_end := Z.min (y + fh) (height d)) in *.
    split; [lia|]. split; [lia|].
    destruct (text_buffer_cells (fb s (x_end - x) (y_end - y)) (x_end - x)
                (y_end - y) tc bg) as (colours & Hbuf & Hlen' & Hall).
    assert (Harea : Z.of_nat (List.length colours)
                    = (x_end - 1 - x + 1) * (y_end - 1 - y + 1)).
    { rewrite Hlen', Nat2Z.inj_mul, !Z2Nat.id by lia. f_equal; lia. }
    exists colours. rewrite Hbuf.
    destruct (window_then_data d x y (x_end - 1) (y_end - 1)
                (flat_map be16 colours)) as [Hbus Hdev].
    split; [exact Harea|]. split; [exact Hall|]. split; [reflexivity|].
    split; [exact Hbus|].
    assert (Hbytes : Z.of_nat (List.length (flat_map be16 colours))
                     = 2 * ((x_end - 1 - x + 1) * (y_end - 1 - y + 1))).
    { rewrite be16_cells_length, Nat2Z.inj_mul, Harea. reflexivity. }
    split; [exact Hbytes|]. split; [apply be16_cells_bytes|].
    intros Hdc. rewrite (Hdev Hdc), Hbytes. f_equal.
    rewrite Z.mul_comm. apply Z.div_mul. lia.
Qed.

Lemma text_fills_its_window_witness :
  text main_display (fun _ _ _ _ _ => 0) "Hi" 240 0 RED None 16 = [] /\
  exists colours,
    spi_payloads (text main_display (fun _ _ _ _ _ => 0) "Hi" 230 310 RED None 16)
      = window_payloads main_display 230 310 239 319 ++ [flat_map be16 colours] /\
    Z.of_nat (List.length colours) = 100 /\
    pixel_transfers (text main_display (fun _ _ _ _ _ => 0) "Hi" 230 310 RED None 16)
      = [100].
Proof.
  split.
  - apply (proj1 (text_fills_its_window main_display (fun _ _ _ _ _ => 0)
                    "Hi" 240 0 RED None 16)).
    right; right; left. simpl. lia.
  - destruct (proj2 (text_fills_its_window main_display (fun _ _ _ _ _ => 0)
                       "Hi" 230 310 RED None 16))
      as (_ & _ & colours & Harea & _ & _ & Hbus & _ & _ & Hdev).
    + discriminate.
    + lia.
    + simpl; lia.
    + simpl; lia.
    + exists colours. split; [exact Hbus|]. split; [exact Harea|].
      apply Hdev. reflexivity.
Defined.

Lemma range_len_nonpositive pixels :
  pixels <= 0 -> range_len pixels chunk_size = 0%nat.
Proof.
  intros Hp. unfold range_len, chunk_size.
  assert (H : (pixels + 512 - 1) / 512 <= 0).
  { assert ((pixels + 512 - 1) / 512 < 1); [|lia].
    apply Z.div_lt_upper_bound; lia. }
  destruct ((pixels + 512 - 1) / 512); try reflexivity. lia.
Qed.

(** X3: whatever the position of the rectangle and whatever the clipping of
    its window, [fill_rect] streams w*h pixels when that product is
    positive, in transfers of 1 to 512 pixels; when it is zero or negative
    it still programs the window and the memory-write command and then
    sends no pixel at all. *)
Theorem fill_rect_streams_w_times_h d x y w h color :
  (w * h <= 0 ->
   fill_rect d x y w h color =
   set_window d x y (Z.min (x + w - 1) (width d - 1))
     (Z.min (y + h - 1) (height d - 1))) /\
  (dc_pin d = true ->
   sumZ (pixel_transfers (fill_rect d x y w h color)) = Z.max 0 (w * h) /\
   Forall (fun n => 0 < n <= 512) (pixel_transfers (fill_rect d x y w h color))).
Proof.
  split.
  - intros Hp. unfold fill_rect.
    rewrite range_len_nonpositive by exact Hp. cbn [fill_loop].
    now rewrite app_nil_r.
  - intros Hdc.
    destruct (Z.le_gt_cases (w * h) 0) as [Hp | Hp].
    + rewrite DisplayFacts.pixel_transfers_fill_rect;
        rewrite ?range_len_nonpositive by exact Hp; cbn [chunks];
        [|exact Hdc | constructor].
      split; [cbn; lia | constructor].
    + pose proof (DisplayFacts.range_len_bounds (w * h) ltac:(lia)) as Hb.
      destruct (DisplayFacts.chunks_cover _ (w * h) ltac:(lia) Hb) as [HF HS].
      rewrite DisplayFacts.pixel_transfers_fill_rect.
      * split; [rewrite HS; lia | exact HF].
      * exact Hdc.
      * eapply Forall_impl; [|exact HF]. cbv beta. intros; lia.
Qed.

Lemma fill_rect_streams_w_times_h_witness :
  fill_rect main_display 5 5 0 10 RED = set_window main_display 5 5 4 14 /\
  sumZ (pixel_transfers (fill_rect main_display (-20) 300 50 40 RED)) = 2000.
Proof.
  split.
  - apply (proj1 (fill_rect_streams_w_times_h main_display 5 5 0 10 RED)). lia.
  - apply (proj2 (fill_rect_streams_w_times_h main_display (-20) 300 50 40 RED)).
    reflexivity.
Defined.

(** No operation of the window and pixel path sleeps. *)
Lemma sleeps_app a b : sleeps (a ++ b) = sleeps a ++ sleeps b.
Proof. apply flat_map_app. Qed.

Lemma spi_payloads_app a b : spi_payloads (a ++ b) = spi_payloads a ++ spi_payloads b.
Proof. apply flat_map_app. Qed.

Lemma sleeps_write_data d data : sleeps (_write_data d data) = [].
Proof. unfold _write_data, pin_set. destruct (dc_pin d), (cs_pin d); reflexivity. Qed.

Lemma sleeps_write_command d c data : sleeps (_write_command d c data) = [].
Proof.
  unfold _write_command. rewrite !sleeps_app.
  destruct data; rewrite ?sleeps_write_data;
    unfold pin_set; destruct (dc_pin d), (cs_pin d); reflexivity.
Qed.

Lemma sleeps_set_window d x0 y0 x1 y1 : sleeps (set_window d x0 y0 x1 y1) = [].
Proof.
  unfold set_window.
  destruct ((rotation d =? 1) || (rotation d =? 3));
    now rewrite !sleeps_app, !sleeps_write_command.
Qed.

Lemma sleeps_fill_loop d data n : forall p, sleeps (fill_loop d data n p) = [].
Proof.
  induction n as [|n IH]; intros p; cbn [fill_loop]; [reflexivity|].
  now rewrite sleeps_app, sleeps_write_data, IH.
Qed.

Lemma sleeps_fill_rect d x y w h c : sleeps (fill_rect d x y w h c) = [].
Proof.
  unfold fill_rect.
  now rewrite sleeps_app, sleeps_set_window, sleeps_fill_loop.
Qed.

Lemma timeline_app a b : timeline (a ++ b) = timeline a ++ timeline b.
Proof. apply filter_app. Qed.

Lemma timeline_write_data d data : timeline (_write_data d data) = [SpiWrite data].
Proof. unfold _write_data, pin_set. destruct (dc_pin d), (cs_pin d); reflexivity. Qed.

Lemma timeline_set_window d x0 y0 x1 y1 :
  timeline (set_window d x0 y0 x1 y1) = map SpiWrite (window_payloads d x0 y0 x1 y1).
Proof.
  unfold window_payloads.
  destruct ((rotation d =? 1) || (rotation d =? 3)) eqn:E;
    [rewrite DisplayFacts.set_window_swap by exact E
    |rewrite DisplayFacts.set_window_no_swap by exact E];
    unfold _write_command, _write_data, pin_set, pack_HH;
    rewrite !DisplayFacts.pack_H_be16;
    destruct (dc_pin d), (cs_pin d); reflexivity.
Qed.

Lemma timeline_chunks d color sizes :
  timeline (flat_map (write_chunk d (pack_H color)) sizes) =
  map SpiWrite (map (solid color) sizes).
Proof.
  induction sizes as [|n sizes IH]; [reflexivity|].
  cbn [flat_map map]. rewrite timeline_app, IH.
  unfold write_chunk. rewrite timeline_write_data.
  unfold bytes_mul, solid. now rewrite DisplayFacts.pack_H_be16.
Qed.

(** X4: the constructor reduces the rotation selector modulo 4, so every
    driver has a rotation in 0..3 and selectors that differ by a multiple
    of 4 build the same driver with the same power-on traffic.  On the
    reset line, the bus and the clock that traffic is, in this order and
    with nothing in between: the reset pulse when there is a reset line,
    software reset, 150 ms, sleep-out, 255 ms, the pixel-format command and
    its byte 0x55, the orientation command and the byte of the rotation,
    display-on, 100 ms, and then the window of the whole canvas and the
    chunks of [BLACK] that fill it. *)
Theorem power_on_sequence w h rst dc cs bl rot :
  let d := fst (init w h rst dc cs bl rot) in
  let t := snd (init w h rst dc cs bl rot) in
  0 <= rotation d < 4 /\
  (forall k, init w h rst dc cs bl (rot + 4 * k) = init w h rst dc cs bl rot) /\
  sleeps t = (if rst then [100; 100; 200] else []) ++ [150; 255; 100] /\
  spi_payloads t =
    [[SWRESET]; [SLPOUT]; [COLMOD]; [0x55]; [MADCTL]; [_get_madctl d]; [DISPON]]
    ++ spi_payloads (fill_rect d 0 0 w h BLACK) /\
  List.length (line_phases t) = (if rst then 3%nat else 0%nat) /\
  timeline t =
    (if rst
     then [PinSet RESET 1; SleepMs 100; PinSet RESET 0; SleepMs 100;
           PinSet RESET 1; SleepMs 200]
     else []) ++
    [SpiWrite [SWRESET]; SleepMs 150; SpiWrite [SLPOUT]; SleepMs 255;
     SpiWrite [COLMOD]; SpiWrite [0x55];
     SpiWrite [MADCTL]; SpiWrite [_get_madctl d];
     SpiWrite [DISPON]; SleepMs 100] ++
    map SpiWrite
      (window_payloads d 0 0 (w - 1) (h - 1) ++
       map (solid BLACK) (chunks (range_len (w * h) chunk_size) (w * h))).
Proof.
  intros d t. split; [|split; [|split; [|split; [|split]]]].
  - cbn. apply Z.mod_pos_bound. lia.
  - intros k. unfold init.
    replace ((rot + 4 * k) mod 4) with (rot mod 4); [reflexivity|].
    rewrite Z.mul_comm, Z.mod_add by lia. reflexivity.
  - subst t. unfold init. cbn [snd]. rewrite !app_assoc.
    rewrite sleeps_app. unfold fill at 1. rewrite sleeps_fill_rect, app_nil_r.
    destruct rst, dc, cs, bl; reflexivity.
  - subst t d. unfold init. cbn [snd fst]. rewrite !app_assoc.
    rewrite spi_payloads_app. unfold fill at 1. cbn [width height].
    f_equal.
    destruct rst, dc, cs, bl; reflexivity.
  - subst t. unfold init. cbn [snd]. unfold fill, fill_rect.
    cbn [width height]. rewrite DisplayFacts.fill_loop_chunks.
    generalize (chunks (range_len (w * h) chunk_size) (w * h)).
    intros sizes.
    assert (Hsw : forall x0 y0 x1 y1 rest,
      line_phases (set_window
        {| width := w; height := h; reset_pin := rst; dc_pin := dc;
           cs_pin := cs; bl_pin := bl; rotation := rot mod 4 |}
        x0 y0 x1 y1 ++ rest) = line_phases rest).
    { intros. unfold set_window, _write_command, _write_data, pin_set.
      cbn [rotation dc_pin cs_pin].
      destruct ((rot mod 4 =? 1) || (rot mod 4 =? 3)), dc, cs; reflexivity. }
    assert (Hch : line_phases (flat_map (write_chunk
        {| width := w; height := h; reset_pin := rst; dc_pin := dc;
           cs_pin := cs; bl_pin := bl; rotation := rot mod 4 |}
        (pack_H BLACK)) sizes) = []).
    { induction sizes as [|n sizes IH]; [reflexivity|].
      cbn [flat_map]. unfold write_chunk at 1, _write_data, pin_set.
      cbn [dc_pin cs_pin]. destruct dc, cs; cbn; exact IH. }
    destruct rst, dc, cs, bl; cbn -[set_window write_chunk];
      rewrite ?Hsw, Hch; reflexivity.
  - subst t d. unfold init. cbn [snd fst]. rewrite !app_assoc.
    rewrite timeline_app.
    assert (Hfill : forall e, timeline (fill e BLACK) =
      map SpiWrite
        (window_payloads e 0 0 (width e - 1) (height e - 1) ++
         map (solid BLACK)
           (chunks (range_len (width e * height e) chunk_size)
              (width e * height e)))).
    { intros e. unfold fill, fill_rect.
      rewrite DisplayFacts.fill_loop_chunks, timeline_app,
        timeline_set_window, timeline_chunks, map_app.
      replace (Z.min (0 + width e - 1) (width e - 1)) with (width e - 1) by lia.
      replace (Z.min (0 + height e - 1) (height e - 1)) with (height e - 1)
        by lia.
      reflexivity. }
    rewrite Hfill. cbn [width height].
    rewrite ?app_assoc. f_equal.
    destruct rst, dc, cs, bl; reflexivity.
Qed.

(** *** Chip-select framing *)

Lemma framed_app a : forall c b,
  framed c a = true -> framed 1 b = true -> framed c (a ++ b) = true.
Proof.
  induction a as [|e a IH]; intros c b Ha Hb.
  - cbn in Ha. apply Z.eqb_eq in Ha. now subst c.
  - destruct e as [[] v | [] v | data | ms]; cbn [framed app] in *;
      try (apply IH; assumption);
      apply andb_true_iff in Ha; destruct Ha as [Hc Ha]; rewrite Hc;
      cbn [andb]; apply IH; assumption.
Qed.

Lemma framed_flat_map {A} (f : A -> trace) l :
  (forall a, framed 1 (f a) = true) -> framed 1 (flat_map f l) = true.
Proof.
  intros Hf. induction l as [|a l IH]; [reflexivity|].
  cbn [flat_map]. apply framed_app; [apply Hf | exact IH].
Qed.

Lemma framed_write_data d data :
  cs_pin d = true -> framed 1 (_write_data d data) = true.
Proof.
  intros Hcs. unfold _write_data, pin_set. rewrite Hcs.
  destruct (dc_pin d); reflexivity.
Qed.

Lemma framed_write_command d c data :
  cs_pin d = true -> framed 1 (_write_command d c data) = true.
Proof.
  intros Hcs. unfold _write_command.
  assert (H1 : framed 1 (pin_set (dc_pin d) DC 0 ++ pin_set (cs_pin d) CS 0 ++
                         [SpiWrite [c]] ++ pin_set (cs_pin d) CS 1) = true).
  { unfold pin_set. rewrite Hcs. destruct (dc_pin d); reflexivity. }
  assert (H2 : framed 1 (match data with
                         | Some bytes => _write_data d bytes
                         | None => []
                         end) = true).
  { destruct data; [now apply framed_write_data | reflexivity]. }
  pose proof (framed_app _ _ _ H1 H2) as H.
  rewrite <- !app_assoc in H. exact H.
Qed.

Lemma framed_set_window d x0 y0 x1 y1 :
  cs_pin d = true -> framed 1 (set_window d x0 y0 x1 y1) = true.
Proof.
  intros Hcs. unfold set_window.
  destruct ((rotation d =? 1) || (rotation d =? 3));
    (apply framed_app; [|apply framed_app]); now apply framed_write_command.
Qed.

Lemma framed_fill_loop d data n : forall p,
  cs_pin d = true -> framed 1 (fill_loop d data n p) = true.
Proof.
  induction n as [|n IH]; intros p Hcs; [reflexivity|].
  cbn [fill_loop]. apply framed_app; [now apply framed_write_data | now apply IH].
Qed.

Lemma framed_pixel d x y c :
  cs_pin d = true -> framed 1 (pixel d x y c) = true.
Proof.
  intros Hcs. unfold pixel.
  destruct ((0 <=? x) && (x <? width d) && (0 <=? y) && (y <? height d));
    [|reflexivity].
  apply framed_app; [now apply framed_set_window | now apply framed_write_data].
Qed.

(** X5: on a driver with a chip-select line every drawing operation keeps
    the select discipline: each SPI transfer is made with the line low, the
    data/command line is only switched while it is high, and the line is
    high again when the operation returns.  The constructor's power-on
    traffic keeps it too, from whatever level the line had before. *)
Theorem chip_select_framing d :
  cs_pin d = true ->
  (forall x0 y0 x1 y1, framed 1 (set_window d x0 y0 x1 y1) = true) /\
  (forall x y w h c, framed 1 (fill_rect d x y w h c) = true) /\
  (forall x y c, framed 1 (pixel d x y c) = true) /\
  (forall fb s x y tc bg fh, framed 1 (text d fb s x y tc bg fh) = true) /\
  (forall buf x y c bg fs, framed 1 (char d buf x y c bg fs) = true) /\
  (forall w h rst dc bl rot level,
     framed level (snd (init w h rst dc true bl rot)) = true).
Proof.
  intros Hcs. repeat split.
  - intros. now apply framed_set_window.
  - intros. unfold fill_rect.
    apply framed_app; [now apply framed_set_window | now apply framed_fill_loop].
  - intros. now apply framed_pixel.
  - intros. unfold text.
    match goal with |- context [if ?b then _ else _] => destruct b end;
      [reflexivity|].
    apply framed_app; [now apply framed_set_window | now apply framed_write_data].
  - intros. unfold char.
    apply framed_flat_map. intros yy. apply framed_flat_map. intros xx.
    match goal with |- context [if ?b then _ else _] => destruct b end.
    + now apply framed_pixel.
    + destruct bg; [now apply framed_pixel | reflexivity].
  - intros w h rst dc bl rot level. unfold init. cbn [snd].
    set (d' := {| width := w; height := h; reset_pin := rst; dc_pin := dc;
                  cs_pin := true; bl_pin := bl; rotation := rot mod 4 |}).
    assert (Hcs' : cs_pin d' = true) by reflexivity.
    assert (Hrest : framed 1
      (pin_init bl BL 1 ++ reset d' ++
       _write_command d' SWRESET None ++ [SleepMs 150] ++
       _write_command d' SLPOUT None ++ [SleepMs 255] ++
       _write_command d' COLMOD (Some [85]) ++
       _write_command d' MADCTL (Some [_get_madctl d']) ++
       _write_command d' DISPON None ++ [SleepMs 100] ++ fill d' BLACK) = true).
    { repeat (apply framed_app;
              [first [ now apply framed_write_command
                     | reflexivity
                     | destruct bl; reflexivity
                     | unfold reset; destruct (reset_pin d'); reflexivity ]|]).
      unfold fill, fill_rect.
      apply framed_app; [now apply framed_set_window | now apply framed_fill_loop]. }
    destruct rst, dc; cbn [pin_init app framed]; exact Hrest.
Qed.

Lemma chip_select_framing_witness :
  framed 1 (fill_rect (fst (init 240 320 true true true true 0)) 0 0 240 320 BLACK)
  = true.
Proof.
  apply (chip_select_framing (fst (init 240 320 true true true true 0))).
  reflexivity.
Defined.

(** *** Bus cost of the two text paths *)

Lemma spi_payloads_flat_map {A} (f : A -> trace) l :
  spi_payloads (flat_map f l) = flat_map (fun a => spi_payloads (f a)) l.
Proof.
  induction l as [|a l IH]; [reflexivity|].
  cbn [flat_map]. now rewrite spi_payloads_app, IH.
Qed.

Lemma spi_count_set_window d x0 y0 x1 y1 :
  List.length (spi_payloads (set_window d x0 y0 x1 y1)) = 5%nat.
Proof.
  unfold set_window, _write_command, _write_data, pin_set.
  destruct ((rotation d =? 1) || (rotation d =? 3)), (dc_pin d), (cs_pin d);
    reflexivity.
Qed.

Lemma spi_count_write_data d data :
  List.length (spi_payloads (_write_data d data)) = 1%nat.
Proof.
  unfold _write_data, pin_set. destruct (dc_pin d), (cs_pin d); reflexivity.
Qed.

Lemma spi_count_pixel d x y c :
  List.length (spi_payloads (pixel d x y c)) =
  if (0 <=? x) && (x <? width d) && (0 <=? y) && (y <? height d)
  then 6%nat else 0%nat.
Proof.
  unfold pixel.
  destruct ((0 <=? x) && (x <? width d) && (0 <=? y) && (y <? height d));
    [|reflexivity].
  now rewrite spi_payloads_app, length_app, spi_count_set_window,
    spi_count_write_data.
Qed.

Lemma flat_map_length_le {A B} (f : A -> list B) k l :
  (forall a, In a l -> (List.length (f a) <= k)%nat) ->
  (List.length (flat_map f l) <= k * List.length l)%nat.
Proof.
  induction l as [|a l IH]; intros Hf; cbn [flat_map List.length]; [lia|].
  rewrite length_app.
  pose proof (Hf a (or_introl eq_refl)).
  assert ((List.length (flat_map f l) <= k * List.length l)%nat)
    by (apply IH; intros; apply Hf; now right).
  lia.
Qed.

Lemma flat_map_length_eq {A B} (f : A -> list B) k l :
  (forall a, In a l -> List.length (f a) = k) ->
  List.length (flat_map f l) = (k * List.length l)%nat.
Proof.
  induction l as [|a l IH]; intros Hf; cbn [flat_map List.length]; [lia|].
  rewrite length_app, (Hf a (or_introl eq_refl)), IH; [lia|].
  intros; apply Hf; now right.
Qed.

(** X6: [char] paints cell by cell through [pixel], six SPI transfers for
    every cell it paints: at most 6 * font_size^2 transfers, and exactly
    that many when a background colour is given and the glyph box lies
    inside the canvas; a non-empty [text] costs six transfers for the whole
    string. *)
Theorem char_bus_cost d buf x y color bg fs :
  (List.length (spi_payloads (char d buf x y color bg fs))
     <= 6 * (Z.to_nat fs * Z.to_nat fs))%nat /\
  (forall b, bg = Some b ->
     0 <= x -> 0 <= y -> x + fs <= width d -> y + fs <= height d ->
     List.length (spi_payloads (char d buf x y color bg fs))
       = (6 * (Z.to_nat fs * Z.to_nat fs))%nat) /\
  (forall fb s tc fh,
     text d fb s x y tc bg fh <> [] ->
     List.length (spi_payloads (text d fb s x y tc bg fh)) = 6%nat).
Proof.
  split; [|split].
  - unfold char. rewrite spi_payloads_flat_map.
    etransitivity.
    + apply (flat_map_length_le _ (6 * Z.to_nat fs)). intros yy _.
      rewrite spi_payloads_flat_map.
      etransitivity.
      * apply (flat_map_length_le _ 6). intros xx _.
        match goal with |- context [if ?b then _ else _] => destruct b end.
        -- rewrite spi_count_pixel.
           match goal with |- context [if ?b then _ else _] => destruct b end; lia.
        -- destruct bg; [|cbn; lia]. rewrite spi_count_pixel.
           match goal with |- context [if ?b then _ else _] => destruct b end; lia.
      * rewrite range_length. lia.
    + rewrite range_length. lia.
  - intros b -> Hx Hy Hxw Hyh. unfold char. rewrite spi_payloads_flat_map.
    rewrite (flat_map_length_eq _ (6 * Z.to_nat fs)).
    + rewrite range_length. lia.
    + intros yy Hyy. apply range_bounds in Hyy.
      rewrite spi_payloads_flat_map.
      rewrite (flat_map_length_eq _ 6).
      * rewrite range_length. lia.
      * intros xx Hxx. apply range_bounds in Hxx.
        assert (Hin : (0 <=? x + xx) && (x + xx <? width d) &&
                      (0 <=? y + yy) && (y + yy <? height d) = true).
        { destruct (Z.leb_spec 0 (x + xx)), (Z.ltb_spec (x + xx) (width d)),
            (Z.leb_spec 0 (y + yy)), (Z.ltb_spec (y + yy) (height d));
            try reflexivity; lia. }
        match goal with |- context [if negb ?b then _ else _] => destruct b end;
          cbn [negb]; rewrite spi_count_pixel, Hin; reflexivity.
  - intros fb s tc fh Hne. unfold text in *.
    match goal with |- context [if ?b then _ else _] => destruct b end;
      [congruence|].
    now rewrite spi_payloads_app, length_app, spi_count_set_window,
      spi_count_write_data.
Qed.

Lemma char_bus_cost_witness :
  List.length (spi_payloads (char main_display (fun _ => 0) 10 10 RED (Some BLUE) 16))
    = 1536%nat /\
  List.length (spi_payloads
                 (text main_display (fun _ _ _ _ _ => 0) "A" 10 10 RED (Some BLUE) 16))
    = 6%nat.
Proof.
  destruct (char_bus_cost main_display (fun _ => 0) 10 10 RED (Some BLUE) 16)
    as (_ & Hc & Ht).
  split.
  - rewrite (Hc BLUE); [reflexivity | reflexivity | lia | lia | simpl; lia | simpl; lia].
  - apply Ht. vm_compute. discriminate.
Defined.

End DisplayMore.

(** * Further properties of the text and menu drawing *)

Module UIMore.
Import UI.

Lemma text_cells_app a b : text_cells (a ++ b) = text_cells a ++ text_cells b.
Proof. apply flat_map_app. Qed.

Lemma fill_rects_app a b : fill_rects (a ++ b) = fill_rects a ++ fill_rects b.
Proof. apply flat_map_app. Qed.

Lemma string_app_nil_r (s : string) : (s ++ "")%string = s.
Proof. induction s as [|c s IH]; cbn; [reflexivity | now rewrite IH]. Qed.

Lemma string_app_assoc (a b c : string) :
  ((a ++ b) ++ c)%string = (a ++ b ++ c)%string.
Proof. induction a as [|x a IH]; cbn; [reflexivity | now rewrite IH]. Qed.

Lemma drawn_text_cons_text s x y c t :
  drawn_text (Text s x y c :: t) = (s ++ drawn_text t)%string.
Proof.
  unfold drawn_text. cbn [flat_map app].
  set (l := flat_map _ t).
  destruct l as [|w l]; cbn [String.concat].
  - now rewrite string_app_nil_r.
  - reflexivity.
Qed.

Lemma drawn_text_cons_fill x y w h c t :
  drawn_text (FillRect x y w h c :: t) = drawn_text t.
Proof. reflexivity. Qed.

Lemma map_seq_shift {A} (f : nat -> A) n :
  map f (seq 1 n) = map (fun i => f (S i)) (seq 0 n).
Proof. now rewrite <- seq_shift, map_map. Qed.

(** The loop without a width limit, from any starting column. *)
Lemma text_line_loop_unbounded ui text : forall x cx y color bg,
  let r := text_line_loop ui text x cx y color bg None in
  snd r = cx + char_width_eng ui * len text /\
  text_cells (fst r) =
    map (fun i => (cx + char_width_eng ui * Z.of_nat i, y))
      (seq 0 (String.length text)) /\
  drawn_text (fst r) = shown_text text /\
  fill_rects (fst r) =
    match bg with
    | None => []
    | Some _ =>
        map (fun i => (cx + char_width_eng ui * Z.of_nat i, y,
                       char_width_eng ui, char_height ui))
          (seq 0 (String.length text))
    end.
Proof.
  unfold len.
  induction text as [|c text IH]; intros x cx y color bg.
  - cbn. repeat split; try lia. destruct bg; reflexivity.
  - cbn [text_line_loop String.length].
    specialize (IH x (cx + char_width_eng ui) y color bg). cbv zeta in IH.
    destruct (text_line_loop ui text x (cx + char_width_eng ui) y color bg None)
      as [t last_x].
    cbn [fst snd] in *. destruct IH as (Hx & Hc & Hd & Hf).
    cbn [seq map]. rewrite !map_seq_shift.
    assert (H0 : cx + char_width_eng ui * Z.of_nat 0 = cx) by lia.
    assert (Hs : forall i, cx + char_width_eng ui + char_width_eng ui * Z.of_nat i
                           = cx + char_width_eng ui * Z.of_nat (S i))
      by (intros; lia).
    rewrite !H0.
    split; [rewrite Hx; lia|].
    unfold _draw_char_internal. fold (shown c).
    split; [|split].
    + rewrite text_cells_app, Hc. destruct bg; cbn [text_cells flat_map app];
        (f_equal; apply map_ext; intros i; now rewrite Hs).
    + destruct bg; cbn [app]; rewrite ?drawn_text_cons_fill,
        drawn_text_cons_text, Hd; reflexivity.
    + rewrite fill_rects_app, Hf. destruct bg; cbn [fill_rects flat_map app];
        [|reflexivity].
      f_equal. apply map_ext; intros i; now rewrite Hs.
Qed.

Lemma flat_map_seq_shift {A} (f : nat -> list A) n :
  flat_map f (seq 1 n) = flat_map (fun i => f (S i)) (seq 0 n).
Proof.
  rewrite <- seq_shift, !flat_map_concat_map, map_map. reflexivity.
Qed.

(** The calls of the loop without a width limit, in order, from any
    starting column. *)
Lemma text_line_loop_calls ui text : forall x cx y color bg,
  fst (text_line_loop ui text x cx y color bg None) =
  flat_map
    (fun i =>
       match String.get i text with
       | Some c =>
           match bg with
           | Some b =>
               [FillRect (cx + char_width_eng ui * Z.of_nat i) y
                  (char_width_eng ui) (char_height ui) b]
           | None => []
           end ++
           [Text (String (shown c) EmptyString)
              (cx + char_width_eng ui * Z.of_nat i) y color]
       | None => []
       end)
    (seq 0 (String.length text)).
Proof.
  induction text as [|c text IH]; intros x cx y color bg; [reflexivity|].
  cbn [text_line_loop String.length].
  specialize (IH x (cx + char_width_eng ui) y color bg).
  destruct (text_line_loop ui text x (cx + char_width_eng ui) y color bg None)
    as [t last_x].
  cbn [fst] in *. cbn [seq flat_map]. rewrite flat_map_seq_shift.
  cbn [String.get]. unfold _draw_char_internal. fold (shown c).
  replace (cx + char_width_eng ui * Z.of_nat 0) with cx by lia.
  f_equal. rewrite IH. apply flat_map_ext. intros i.
  replace (cx + char_width_eng ui + char_width_eng ui * Z.of_nat i)
    with (cx + char_width_eng ui * Z.of_nat (S i)) by lia.
  reflexivity.
Qed.

(** X7: without a width limit [display_text_line] issues, for the
    characters of the text in their order and nothing else, the calls of
    one cell each: for character [i], when a background colour is given,
    first the rectangle of that colour over the cell at column x + cw*i of
    row y (cw wide and as high as a character; cw is the character width
    of the manager, 8), then the character itself at the same place in the
    text colour asked for (the manager's own when none is given), codes of
    128 and above as a question mark; with no background colour there is
    no rectangle.  It returns the column after the last cell. *)
Theorem display_text_line_unbounded ui text x y color bg :
  let r := display_text_line ui text x y color bg None in
  snd r = x + char_width_eng ui * len text /\
  fst r =
    flat_map
      (fun i =>
         match String.get i text with
         | Some c =>
             match bg with
             | Some b =>
                 [FillRect (x + char_width_eng ui * Z.of_nat i) y
                    (char_width_eng ui) (char_height ui) b]
             | None => []
             end ++
             [Text (String (shown c) EmptyString)
                (x + char_width_eng ui * Z.of_nat i) y
                (or_default color (text_color ui))]
         | None => []
         end)
      (seq 0 (String.length text)) /\
  text_cells (fst r) =
    map (fun i => (x + char_width_eng ui * Z.of_nat i, y))
      (seq 0 (String.length text)) /\
  drawn_text (fst r) = shown_text text /\
  fill_rects (fst r) =
    match bg with
    | None => []
    | Some _ =>
        map (fun i => (x + char_width_eng ui * Z.of_nat i, y,
                       char_width_eng ui, char_height ui))
          (seq 0 (String.length text))
    end.
Proof.
  unfold display_text_line.
  pose proof (text_line_loop_unbounded ui text x x y
                (or_default color (text_color ui)) bg) as H.
  cbv zeta in *. destruct H as (Hx & Hc & Hd & Hf).
  split; [exact Hx|]. split; [apply text_line_loop_calls|].
  split; [exact Hc|]. split; [exact Hd | exact Hf].
Qed.

Lemma mul_le_div cw a m : 0 < cw -> (cw * a <= m <-> a <= m / cw).
Proof.
  intros Hcw. split; intros H.
  - apply Z.div_le_lower_bound; lia.
  - pose proof (Z.mul_div_le m cw Hcw). nia.
Qed.

Lemma text_line_loop_clip ui text x y color bg m :
  0 < char_width_eng ui ->
  forall i,
    text_line_loop ui text x (x + char_width_eng ui * Z.of_nat i) y color bg
      (Some m) =
    text_line_loop ui
      (substring 0 (Z.to_nat (m / char_width_eng ui) - i) text) x
      (x + char_width_eng ui * Z.of_nat i) y color bg None.
Proof.
  intros Hcw. set (cw := char_width_eng ui) in *.
  induction text as [|c text IH]; intros i.
  - destruct (Z.to_nat (m / cw) - i)%nat; reflexivity.
  - cbn [text_line_loop]. fold cw.
    destruct (Z.gtb_spec (x + cw * Z.of_nat i + cw) (x + m)) as [Hbrk | Hgo].
    + assert (Hk : (Z.to_nat (m / cw) - i = 0)%nat).
      { assert (~ (cw * (Z.of_nat i + 1) <= m)) by lia.
        rewrite mul_le_div in H by exact Hcw. lia. }
      rewrite Hk. reflexivity.
    + assert (Hk : (Z.to_nat (m / cw) - i = S (Z.to_nat (m / cw) - S i))%nat).
      { assert (H : cw * (Z.of_nat i + 1) <= m) by lia.
        rewrite mul_le_div in H by exact Hcw. lia. }
      rewrite Hk. cbn [substring text_line_loop]. fold cw.
      replace (x + cw * Z.of_nat i + cw) with (x + cw * Z.of_nat (S i)) by lia.
      rewrite IH. reflexivity.
Qed.

(** X8: a width limit makes [display_text_line] draw the first
    floor(max_width / 8) characters of the text and nothing else, and
    return the column after them: the call equals the unlimited call on
    that prefix.  A limit below one character width draws nothing. *)
Theorem display_text_line_clips ui text x y color bg m :
  0 < char_width_eng ui ->
  display_text_line ui text x y color bg (Some m) =
  display_text_line ui (substring 0 (Z.to_nat (m / char_width_eng ui)) text)
    x y color bg None /\
  (m < char_width_eng ui ->
   display_text_line ui text x y color bg (Some m) = ([], x)).
Proof.
  intros Hcw.
  assert (Heq : display_text_line ui text x y color bg (Some m) =
    display_text_line ui (substring 0 (Z.to_nat (m / char_width_eng ui)) text)
      x y color bg None).
  { unfold display_text_line.
    pose proof (text_line_loop_clip ui text x y (or_default color (text_color ui))
                  bg m Hcw 0) as H.
    rewrite Nat.sub_0_r in H. cbn [Z.of_nat] in H.
    rewrite Z.mul_0_r, Z.add_0_r in H. exact H. }
  split; [exact Heq|].
  intros Hm. rewrite Heq.
  assert (Hk : Z.to_nat (m / char_width_eng ui) = 0%nat).
  { assert (m / char_width_eng ui < 1) by (apply Z.div_lt_upper_bound; lia).
    lia. }
  rewrite Hk. destruct text; reflexivity.
Qed.

Lemma display_text_line_clips_witness :
  display_text_line main_ui "1. game_trust_evolution" 5 30 None None (Some 40) =
  display_text_line main_ui "1. ga" 5 30 None None None /\
  display_text_line main_ui "exit" 5 30 None None (Some 7) = ([], 5).
Proof.
  split.
  - apply (proj1 (display_text_line_clips main_ui "1. game_trust_evolution"
                    5 30 None None 40 ltac:(reflexivity))).
  - apply (proj2 (display_text_line_clips main_ui "exit" 5 30 None None 7
                    ltac:(reflexivity))).
    simpl. lia.
Defined.

(** *** Word wrapping *)

Lemma string_length_app (a b : string) :
  String.length (a ++ b) = (String.length a + String.length b)%nat.
Proof. induction a as [|c a IH]; cbn; [reflexivity | now rewrite IH]. Qed.

Lemma concat_empty_cons a l :
  String.concat EmptyString (a :: l) = (a ++ String.concat EmptyString l)%string.
Proof.
  destruct l; cbn [String.concat]; [now rewrite string_app_nil_r | reflexivity].
Qed.

Lemma join_sp_cons w ws : join_sp (w :: ws) = (" " ++ w ++ join_sp ws)%string.
Proof.
  unfold join_sp. cbn [map]. rewrite concat_empty_cons.
  now rewrite string_app_assoc.
Qed.

(** [split_space] loses nothing: the first word followed by the other
    words, each behind a space, is the text. *)
Lemma split_space_join text :
  exists w ws, split_space text = w :: ws /\ (w ++ join_sp ws)%string = text.
Proof.
  induction text as [|c text (w & ws & Hs & Hj)].
  - exists EmptyString, []. split; reflexivity.
  - cbn [split_space]. rewrite Hs.
    destruct (Ascii.eqb_spec c " "%char) as [-> | Hc].
    + exists EmptyString, (w :: ws). split; [reflexivity|].
      rewrite join_sp_cons, Hj. reflexivity.
    + exists (String c w), ws. split; [reflexivity|].
      cbn. now rewrite Hj.
Qed.

Lemma nonempty_app_l a b : nonempty a = true -> nonempty (a ++ b) = true.
Proof. destruct a; [discriminate | reflexivity]. Qed.

Lemma multiline_loop_fits ui x y mw color bg lh words : forall cur,
  0 <= char_width_eng ui ->
  nonempty cur = true ->
  len (cur ++ join_sp words) * char_width_eng ui <= mw ->
  multiline_loop ui words cur x y mw color bg lh =
  fst (display_text_line ui (cur ++ join_sp words) x y (Some color) bg (Some mw)).
Proof.
  induction words as [|w words IH]; intros cur Hcw Hne Hfit.
  - cbn [multiline_loop]. rewrite Hne.
    change (join_sp []) with EmptyString. now rewrite string_app_nil_r.
  - cbn [multiline_loop]. rewrite Hne.
    rewrite join_sp_cons in Hfit |- *.
    assert (Hre : (cur ++ " " ++ w ++ join_sp words)%string
                  = ((cur ++ " " ++ w) ++ join_sp words)%string).
    { now rewrite !string_app_assoc. }
    rewrite Hre in Hfit |- *.
    assert (Hlen : len (cur ++ " " ++ w) <= len ((cur ++ " " ++ w) ++ join_sp words)).
    { unfold len. rewrite (string_length_app (cur ++ " " ++ w)). lia. }
    destruct (Z.leb_spec (len (cur ++ " " ++ w) * char_width_eng ui) mw) as [_ | Hno];
      [|nia].
    apply IH; [exact Hcw | now apply nonempty_app_l | exact Hfit].
Qed.

(** X9: a text that does not start with a space and whose characters fit in
    [max_width] is drawn by [display_text_multiline] on one line, exactly
    as [display_text_line] draws it with the same limit: no word is moved,
    dropped or re-spaced. *)
Theorem display_text_multiline_one_line ui text x y mw color bg lh :
  0 <= char_width_eng ui ->
  (forall rest, text <> String " "%char rest) ->
  len text * char_width_eng ui <= mw ->
  display_text_multiline ui text x y mw color bg lh =
  fst (display_text_line ui text x y (Some (or_default color (text_color ui)))
         bg (Some mw)).
Proof.
  intros Hcw Hsp Hfit. unfold display_text_multiline.
  destruct text as [|c text].
  - cbn [split_space multiline_loop append nonempty].
    change (len EmptyString) with 0 in *.
    destruct (Z.leb_spec (0 * char_width_eng ui) mw); [reflexivity | lia].
  - destruct (split_space_join (String c text)) as (w & ws & Hs & Hj).
    assert (Hw : nonempty w = true).
    { cbn [split_space] in Hs.
      destruct (Ascii.eqb_spec c " "%char) as [-> | _];
        [exfalso; now apply (Hsp text)|].
      destruct (split_space text); inversion Hs; reflexivity. }
    rewrite Hs. cbn [multiline_loop nonempty append].
    assert (Hlen : len w <= len (String c text)).
    { rewrite <- Hj. unfold len. rewrite string_length_app. lia. }
    destruct (Z.leb_spec (len w * char_width_eng ui) mw) as [_ | Hno]; [|nia].
    rewrite multiline_loop_fits; [now rewrite Hj | exact Hcw | exact Hw |].
    now rewrite Hj.
Qed.

Lemma display_text_multiline_one_line_witness :
  display_text_multiline main_ui "gambling bot" 5 10 230 None None None =
  fst (display_text_line main_ui "gambling bot" 5 10
         (Some (text_color main_ui)) None (Some 230)).
Proof.
  apply (display_text_multiline_one_line main_ui "gambling bot" 5 10 230
           None None None).
  - simpl. lia.
  - discriminate.
  - simpl. lia.
Defined.

(** *** Where the wrapped text can land *)

Lemma text_line_loop_within ui text x y color bg m bottom : forall cx,
  0 <= char_width_eng ui ->
  x <= cx ->
  Forall (cell_within x m (char_width_eng ui) y (char_height ui) bottom)
    (fst (text_line_loop ui text x cx y color bg (Some m))).
Proof.
  induction text as [|c text IH]; intros cx Hcw Hx; [constructor|].
  cbn [text_line_loop].
  destruct (Z.gtb_spec (cx + char_width_eng ui) (x + m)); [constructor|].
  specialize (IH (cx + char_width_eng ui) Hcw ltac:(lia)).
  destruct (text_line_loop ui text x (cx + char_width_eng ui) y color bg (Some m))
    as [t last_x].
  cbn [fst] in *. unfold _draw_char_internal.
  destruct bg; cbn [app]; repeat (constructor; [cbn; lia|]); exact IH.
Qed.

Lemma cell_within_row x m cw y y' ch bottom c :
  y' + ch <= bottom ->
  cell_within x m cw y' ch bottom c -> cell_within x m cw y ch bottom c.
Proof. destruct c; cbn; intuition lia. Qed.

Lemma multiline_loop_within ui x mw color bg lh words : forall cur y,
  0 <= char_width_eng ui ->
  Forall (cell_within x mw (char_width_eng ui) y (char_height ui) (height ui))
    (multiline_loop ui words cur x y mw color bg lh).
Proof.
  induction words as [|w words IH]; intros cur y Hcw; cbn [multiline_loop].
  - destruct (nonempty cur); [|constructor].
    apply text_line_loop_within; [exact Hcw | lia].
  - destruct (_ <=? mw); [now apply IH|].
    apply Forall_app. split.
    + apply text_line_loop_within; [exact Hcw | lia].
    + destruct (Z.gtb_spec (y + lh + char_height ui) (height ui)); [constructor|].
      eapply Forall_impl; [|apply (IH w (y + lh) Hcw)].
      intros c. apply cell_within_row. lia.
Qed.

(** X10: whatever the text, [display_text_multiline] draws only character
    cells and their backgrounds, never clears the screen, keeps every cell
    between column x and column x + max_width, and starts every line after
    the first on a row that leaves room for a full character above the
    bottom edge of the screen. *)
Theorem display_text_multiline_stays_inside ui text x y mw color bg lh :
  0 <= char_width_eng ui ->
  Forall (cell_within x mw (char_width_eng ui) y (char_height ui) (height ui))
    (display_text_multiline ui text x y mw color bg lh).
Proof.
  intros Hcw. unfold display_text_multiline. now apply multiline_loop_within.
Qed.

Lemma display_text_multiline_stays_inside_witness :
  Forall (cell_within 10 40 8 300 16 320)
    (display_text_multiline main_ui "press to return to the main menu" 10 300 40
       None None None).
Proof.
  apply (display_text_multiline_stays_inside main_ui
           "press to return to the main menu" 10 300 40 None None None).
  simpl. lia.
Defined.

(** *** The button row of the message box *)

Lemma fill_rects_text_line ui text x y color :
  fill_rects (fst (display_text_line ui text x y color None None)) = [].
Proof.
  unfold display_text_line.
  pose proof (text_line_loop_unbounded ui text x x y
                (or_default color (text_color ui)) None) as H.
  cbv zeta in H. apply H.
Qed.

Lemma fill_rects_enumerate {A} (F : Z * A -> list screen_call)
    (R : Z -> Z * Z * Z * Z) options :
  (forall i o, fill_rects (F (i, o)) = [R i]) ->
  forall i0,
    fill_rects (flat_map F (enumerate i0 options)) =
    map (fun k => R (i0 + Z.of_nat k)) (seq 0 (List.length options)).
Proof.
  intros HF. induction options as [|o options IH]; intros i0; [reflexivity|].
  cbn [enumerate flat_map List.length seq map].
  rewrite fill_rects_app, HF, (IH (i0 + 1)), map_seq_shift.
  cbn [app]. f_equal.
  - f_equal. lia.
  - apply map_ext. intros k. f_equal. lia.
Qed.

(** X11: the button row of [show_message_box] has one rectangle per option,
    all of the same width, 5 columns apart, the first starting at the left
    padding; when the gaps fit in the padded width the last button ends at
    or before the right padding.  Without options nothing is drawn (and
    nothing is divided by the number of options). *)
Theorem message_box_buttons_fit ui options sel padding box_height :
  let n := Z.of_nat (List.length options) in
  let bw := (width ui - 2 * padding - (n - 1) * 5) / n in
  (options = [] -> message_box_buttons ui options sel padding box_height = []) /\
  (options <> [] ->
   fill_rects (message_box_buttons ui options sel padding box_height) =
     map (fun k => (padding + Z.of_nat k * (bw + 5), box_height - 25, bw, 20))
       (seq 0 (List.length options)) /\
   (0 <= width ui - 2 * padding - (n - 1) * 5 ->
    0 <= bw /\ padding + (n - 1) * (bw + 5) + bw <= width ui - padding)).
Proof.
  intros n bw. split; [intros ->; reflexivity|].
  intros Hne.
  assert (Hn : 0 < n)
    by (subst n; destruct options; [congruence | cbn [List.length]; lia]).
  split.
  - unfold message_box_buttons.
    destruct options as [|o options']; [congruence|].
    cbv zeta. fold n. fold bw.
    rewrite (fill_rects_enumerate _
               (fun i => (padding + i * (bw + 5), box_height - 25, bw, 20))).
    + apply map_ext. intros k. now rewrite Z.add_0_l.
    + intros i o'. cbn [fill_rects flat_map app].
      fold (fill_rects
              (fst (display_text_line ui o'
                      (padding + i * (bw + 5) +
                       (bw - len o' * char_width_eng ui) / 2)
                      (box_height - 20)
                      (Some (if i =? sel then highlight_text_color ui
                             else text_color ui)) None None))).
      now rewrite fill_rects_text_line.
  - intros Hfit.
    pose proof (Z.mul_div_le (width ui - 2 * padding - (n - 1) * 5) n Hn) as Hle.
    fold bw in Hle.
    assert (0 <= bw) by (subst bw; apply Z.div_pos; lia).
    split; [assumption | nia].
Qed.

Lemma message_box_buttons_fit_witness :
  fill_rects (message_box_buttons main_ui ["Yes"; "No"; "Later"]%string 1 10 300) =
    [(10, 275, 70, 20); (85, 275, 70, 20); (160, 275, 70, 20)] /\
  message_box_buttons main_ui [] 0 10 300 = [].
Proof.
  destruct (message_box_buttons_fit main_ui ["Yes"; "No"; "Later"]%string 1 10 300)
    as [_ H3].
  destruct (message_box_buttons_fit main_ui [] 0 10 300) as [H0 _].
  split.
  - destruct H3 as [Hr _]; [discriminate|]. rewrite Hr. reflexivity.
  - apply H0. reflexivity.
Defined.

(** *** The partial repaint of [draw_menu] *)

Lemma items_eqb_refl its : items_eqb its its = true.
Proof.
  induction its as [|s its IH]; [reflexivity|].
  cbn. now rewrite String.eqb_refl, IH.
Qed.

Lemma option_string_eqb_refl (o : option string) : option_eqb String.eqb o o = true.
Proof. destruct o; [apply String.eqb_refl | reflexivity]. Qed.

Lemma filled_rows_menu_item ui idx text sy th sel :
  filled_rows (_draw_menu_item ui idx text sy th sel) =
  [sy + th + idx * (char_height ui + line_spacing ui * 2)].
Proof.
  unfold _draw_menu_item. cbn [filled_rows flat_map app]. f_equal.
  pose proof (fill_rects_text_line ui text 5
    (sy + th + idx * (char_height ui + line_spacing ui * 2) + line_spacing ui)
    (Some (if sel then highlight_text_color ui else text_color ui))) as H.
  revert H. generalize (fst (display_text_line ui text 5
    (sy + th + idx * (char_height ui + line_spacing ui * 2) + line_spacing ui)
    (Some (if sel then highlight_text_color ui else text_color ui)) None None)).
  intros t. induction t as [|c t IH]; [reflexivity|].
  destruct c; cbn; intros H; try discriminate; now apply IH.
Qed.

(** X12: when the retained menu state holds the very items, start_y and
    title of the call, [draw_menu] repaints in part.  With the retained
    index it draws nothing.  With another index, both valid for the list,
    it fills and redraws the old row unhighlighted, then the new row
    highlighted, exactly those two rows and no screen clear, and retains the
    new index.  When the new index is out of range it raises [IndexError]
    after the old row was repainted, and when the retained index is out of
    range it raises before drawing; in both cases the retained state is
    kept. *)
Theorem draw_menu_partial_repaint ui its old sel title sy :
  _last_menu_state ui =
    {| selected_idx := old; items := Some its; start_y := sy;
       title_text := title |} ->
  let th := if truthy title then char_height ui + line_spacing ui else 0 in
  let row i := sy + th + i * (char_height ui + line_spacing ui * 2) in
  (sel = old -> draw_menu ui its sel title sy = Done ui []) /\
  (sel <> old ->
   (forall old_item new_item,
      py_index its old = Some old_item ->
      py_index its sel = Some new_item ->
      exists t,
        draw_menu ui its sel title sy =
          Done (set__last_menu_state
                  {| selected_idx := sel; items := Some its; start_y := sy;
                     title_text := title |} ui) t /\
        t = _draw_menu_item ui old old_item sy th false ++
            _draw_menu_item ui sel new_item sy th true /\
        clears_screen t = false /\
        filled_rows t = [row old; row sel]) /\
   (forall old_item,
      py_index its old = Some old_item ->
      py_index its sel = None ->
      draw_menu ui its sel title sy =
        Raised IndexError ui (_draw_menu_item ui old old_item sy th false)) /\
   (py_index its old = None ->
    draw_menu ui its sel title sy = Raised IndexError ui [])).
Proof.
  intros Hst th row.
  assert (Heq :
    draw_menu ui its sel title sy =
    if negb (old =? sel) then
      match py_index its old with
      | None => Raised IndexError ui []
      | Some old_item =>
          match py_index its sel with
          | None => Raised IndexError ui (_draw_menu_item ui old old_item sy th false)
          | Some new_item =>
              Done (set__last_menu_state
                      {| selected_idx := sel; items := Some its; start_y := sy;
                         title_text := title |} ui)
                (_draw_menu_item ui old old_item sy th false ++
                 _draw_menu_item ui sel new_item sy th true)
          end
      end
    else Done ui []).
  { unfold draw_menu. rewrite Hst. cbn [items start_y title_text selected_idx].
    cbn [option_eqb]. rewrite items_eqb_refl, Z.eqb_refl, option_string_eqb_refl.
    cbn [negb orb]. reflexivity. }
  split; [|split; [|split]].
  - intros ->. rewrite Heq, Z.eqb_refl. reflexivity.
  - intros old_item new_item Ho Hn.
    eexists. split; [|split; [reflexivity|]].
    + rewrite Heq. destruct (Z.eqb_spec old sel); [congruence|].
      cbn [negb]. rewrite Ho, Hn. reflexivity.
    + split.
      * reflexivity.
      * unfold filled_rows. rewrite flat_map_app.
        fold (filled_rows (_draw_menu_item ui old old_item sy th false)).
        fold (filled_rows (_draw_menu_item ui sel new_item sy th true)).
        now rewrite !filled_rows_menu_item.
  - intros old_item Ho Hn. rewrite Heq.
    destruct (Z.eqb_spec old sel); [congruence|].
    cbn [negb]. now rewrite Ho, Hn.
  - intros Ho. rewrite Heq.
    destruct (Z.eqb_spec old sel); [congruence|].
    cbn [negb]. now rewrite Ho.
Qed.

Lemma draw_menu_partial_repaint_witness :
  let ui :=
    set__last_menu_state
      {| selected_idx := 0; items := Some main_menu_items; start_y := 10;
         title_text := Some "gambling bot"%string |} main_ui in
  draw_menu ui main_menu_items 0 (Some "gambling bot"%string) 10 = Done ui [] /\
  (exists t,
     draw_menu ui main_menu_items 1 (Some "gambling bot"%string) 10 =
       Done (set__last_menu_state
               {| selected_idx := 1; items := Some main_menu_items;
                  start_y := 10; title_text := Some "gambling bot"%string |} ui)
         t /\
     filled_rows t = [30; 54]) /\
  draw_menu ui main_menu_items 4 (Some "gambling bot"%string) 10 =
    Raised IndexError ui
      (_draw_menu_item ui 0 "1. game_trust_evolution" 10 20 false).
Proof.
  intros ui.
  destruct (draw_menu_partial_repaint ui main_menu_items 0 0
              (Some "gambling bot"%string) 10 eq_refl) as (Hsame & _).
  destruct (draw_menu_partial_repaint ui main_menu_items 0 1
              (Some "gambling bot"%string) 10 eq_refl) as (_ & Hmove).
  destruct (draw_menu_partial_repaint ui main_menu_items 0 4
              (Some "gambling bot"%string) 10 eq_refl) as (_ & Hbad).
  split; [|split].
  - apply Hsame. reflexivity.
  - destruct Hmove as (Hm & _); [discriminate|].
    destruct (Hm "1. game_trust_evolution"%string "2. game_points_showdown"%string
                eq_refl eq_refl) as (t & Ht & _ & _ & Hrows).
    exists t. split; [exact Ht | exact Hrows].
  - destruct Hbad as (_ & Hb & _); [discriminate|].
    apply (Hb "1. game_trust_evolution"%string); reflexivity.
Defined.

(** *** The message box *)

Lemma message_lines_loop_within ui padding box_height lines : forall current_y,
  0 <= char_width_eng ui ->
  Forall
    (fun c => exists y0,
       cell_within padding (width ui - 2 * padding) (char_width_eng ui) y0
         (char_height ui) (height ui) c)
    (message_lines_loop ui lines padding box_height current_y).
Proof.
  induction lines as [|line lines IH]; intros current_y Hcw; [constructor|].
  cbn [message_lines_loop]. apply Forall_app. split.
  - unfold display_text_multiline.
    eapply Forall_impl; [|apply multiline_loop_within; exact Hcw].
    intros c Hc. now exists current_y.
  - destruct (_ >? _); [constructor | now apply IH].
Qed.

(** X24: [show_message_box] always starts by clearing the screen to the
    background colour and ends with the button row; everything it draws in
    between, title and message lines, consists of character cells and cell
    backgrounds that stay between the left padding (column 10) and the
    right padding (column width - 10). *)
Theorem show_message_box_layout ui lines title options sel :
  0 <= char_width_eng ui ->
  exists body,
    show_message_box ui lines title options sel =
      Fill (bg_color ui) :: body ++
      message_box_buttons ui options sel 10 (height ui - 2 * 10) /\
    Forall
      (fun c => exists y0,
         cell_within 10 (width ui - 2 * 10) (char_width_eng ui) y0
           (char_height ui) (height ui) c)
      body.
Proof.
  intros Hcw. unfold show_message_box. cbv zeta.
  eexists. split.
  - unfold clear_screen, or_default at 1. cbn [app].
    rewrite app_assoc. reflexivity.
  - apply Forall_app. split.
    + destruct (truthy title); [|constructor].
      unfold display_text_multiline.
      eapply Forall_impl; [|apply multiline_loop_within; exact Hcw].
      intros c Hc. now exists 10.
    + now apply message_lines_loop_within.
Qed.

Lemma show_message_box_layout_witness :
  exists body,
    show_message_box main_ui ["Thank you!"; "Turning off the bot..."]%string
      (Some "Good bye"%string) [] 0 =
      Fill (bg_color main_ui) :: body ++
      message_box_buttons main_ui [] 0 10 (height main_ui - 2 * 10) /\
    Forall
      (fun c => exists y0,
         cell_within 10 (width main_ui - 2 * 10) (char_width_eng main_ui) y0
           (char_height main_ui) (height main_ui) c)
      body.
Proof.
  apply (show_message_box_layout main_ui
           ["Thank you!"; "Turning off the bot..."]%string
           (Some "Good bye"%string) [] 0).
  simpl. lia.
Defined.

(** *** The highlighted row of a full repaint *)

Lemma rows_filled_with_app h a b :
  rows_filled_with h (a ++ b) = rows_filled_with h a ++ rows_filled_with h b.
Proof. apply flat_map_app. Qed.

Lemma rows_filled_with_text_line ui h text x y color bg mw : forall cx,
  match bg with Some b => b <> h | None => True end ->
  rows_filled_with h (fst (text_line_loop ui text x cx y color bg mw)) = [].
Proof.
  induction text as [|c text IH]; intros cx Hbg; [reflexivity|].
  cbn [text_line_loop].
  match goal with |- context [if ?b then _ else _] => destruct b end;
    [reflexivity|].
  specialize (IH (cx + char_width_eng ui) Hbg).
  destruct (text_line_loop ui text x (cx + char_width_eng ui) y color bg mw)
    as [t last_x].
  cbn [fst] in *. unfold _draw_char_internal.
  rewrite !rows_filled_with_app, IH.
  destruct bg as [b|]; cbn; [|reflexivity].
  destruct (Z.eqb_spec b h); [contradiction | reflexivity].
Qed.

Lemma rows_filled_with_multiline_loop ui h x mw color b lh words : forall cur y,
  b <> h ->
  rows_filled_with h (multiline_loop ui words cur x y mw color (Some b) lh) = [].
Proof.
  induction words as [|w words IH]; intros cur y Hb; cbn [multiline_loop].
  - destruct (nonempty cur); [|reflexivity].
    now apply rows_filled_with_text_line.
  - destruct (_ <=? mw); [now apply IH|].
    rewrite rows_filled_with_app.
    unfold display_text_line at 1. rewrite rows_filled_with_text_line by exact Hb.
    destruct (_ >? _); [reflexivity | now apply IH].
Qed.

Lemma rows_filled_with_menu_item ui i text sy th sel :
  highlight_bg_color ui <> bg_color ui ->
  rows_filled_with (highlight_bg_color ui) (_draw_menu_item ui i text sy th sel) =
  if sel then [sy + th + i * (char_height ui + line_spacing ui * 2)] else [].
Proof.
  intros Hne. unfold _draw_menu_item.
  change (FillRect ?x ?y ?w ?hh ?c :: ?t) with ([FillRect x y w hh c] ++ t).
  rewrite rows_filled_with_app. unfold display_text_line.
  rewrite rows_filled_with_text_line by exact I. rewrite app_nil_r.
  destruct sel; cbn.
  - now rewrite Z.eqb_refl.
  - destruct (Z.eqb_spec (bg_color ui) (highlight_bg_color ui));
      [congruence | reflexivity].
Qed.

Lemma rows_filled_with_items ui sel sy th its : forall i0,
  highlight_bg_color ui <> bg_color ui ->
  rows_filled_with (highlight_bg_color ui)
    (flat_map
       (fun '(i, item) => _draw_menu_item ui i item sy th (i =? sel))
       (enumerate i0 its)) =
  if (i0 <=? sel) && (sel <? i0 + Z.of_nat (List.length its))
  then [sy + th + sel * (char_height ui + line_spacing ui * 2)] else [].
Proof.
  induction its as [|item its IH]; intros i0 Hne.
  - cbn. destruct (Z.leb_spec i0 sel), (Z.ltb_spec sel (i0 + 0));
      try reflexivity; lia.
  - cbn [enumerate flat_map List.length].
    rewrite rows_filled_with_app, rows_filled_with_menu_item, (IH (i0 + 1))
      by exact Hne.
    rewrite Nat2Z.inj_succ.
    destruct (Z.eqb_spec i0 sel) as [-> | Hd].
    + destruct (Z.leb_spec (sel + 1) sel); [lia|]. cbn [andb app].
      destruct (Z.leb_spec sel sel), (Z.ltb_spec sel (sel + Z.succ (Z.of_nat (List.length its))));
        try reflexivity; lia.
    + cbn [app].
      destruct (Z.leb_spec (i0 + 1) sel), (Z.leb_spec i0 sel),
        (Z.ltb_spec sel (i0 + 1 + Z.of_nat (List.length its))),
        (Z.ltb_spec sel (i0 + Z.succ (Z.of_nat (List.length its))));
        try reflexivity; lia.
Qed.

(** X28: on a manager whose highlight background colour differs from its
    background colour (as with the colours the manager is built with,
    [YELLOW] on [BLACK]) and that has no menu items stored, the repaint of
    a menu with a non-empty title is a full one and fills exactly one row
    with the highlight background colour, the row of the selected index, at
    start_y + (character height + line spacing)
            + index * (character height + 2 * line spacing);
    when the index is outside the list no row is filled with that colour
    and nothing is raised. *)
Theorem full_repaint_highlights_selected ui its sel title sy :
  items (_last_menu_state ui) = None ->
  truthy title = true ->
  highlight_bg_color ui <> bg_color ui ->
  exists calls,
    draw_menu ui its sel title sy = Done ui calls /\
    rows_filled_with (highlight_bg_color ui) calls =
      if (0 <=? sel) && (sel <? Z.of_nat (List.length its))
      then [sy + (char_height ui + line_spacing ui)
            + sel * (char_height ui + line_spacing ui * 2)]
      else [].
Proof.
  intros Hnone Ht Hne.
  rewrite UIFacts.draw_menu_without_items by exact Hnone. rewrite Ht.
  eexists. split; [reflexivity|].
  change (Fill ?c :: FillRect ?x ?y ?w ?hh ?c' :: ?t)
    with ([Fill c; FillRect x y w hh c'] ++ t).
  rewrite !rows_filled_with_app.
  unfold display_text_multiline.
  rewrite rows_filled_with_multiline_loop by congruence.
  rewrite rows_filled_with_items by exact Hne.
  cbn [rows_filled_with flat_map app].
  destruct (Z.eqb_spec (bg_color ui) (highlight_bg_color ui)); [congruence|].
  reflexivity.
Qed.

Lemma full_repaint_highlights_selected_witness :
  exists calls,
    draw_menu main_ui main_menu_items 2 (Some "gambling bot"%string) 10 =
      Done main_ui calls /\
    rows_filled_with (highlight_bg_color main_ui) calls = [78].
Proof.
  destruct (full_repaint_highlights_selected main_ui main_menu_items 2
              (Some "gambling bot"%string) 10) as (calls & Hd & Hr).
  - reflexivity.
  - reflexivity.
  - discriminate.
  - exists calls. split; [exact Hd | exact Hr].
Defined.

End UIMore.

(** * Further properties of the joystick driver *)

Module JoystickMore.
Import Joystick.

Lemma is_button_down_answer j t raw : fst (is_button_down j t raw) = (raw =? 0).
Proof.
  unfold is_button_down.
  destruct j as [xc yc th db ct lbs lbt bps bds ld ldt rd wp sc lv].
  cbn [_last_button_state]. destruct (Z.eqb_spec raw lbs) as [-> | Hne]; cbn;
    destruct (_ >? db); reflexivity.
Qed.

(** X13: [is_button_down] answers [True] exactly when the pin reads 0 at
    this very poll, whatever the time since the last change: both branches
    of its debounce test return the value just stored.  It records the
    value read, and restarts the shared change timer only when the value
    differs from the recorded one. *)
Theorem is_button_down_is_raw_level j t raw :
  fst (is_button_down j t raw) = (raw =? 0) /\
  _last_button_state (snd (is_button_down j t raw)) = raw /\
  _last_button_change_time (snd (is_button_down j t raw)) =
    (if raw =? _last_button_state j then _last_button_change_time j else t) /\
  _button_state_for_click (snd (is_button_down j t raw))
    = _button_state_for_click j.
Proof.
  unfold is_button_down.
  destruct j as [xc yc th db ct lbs lbt bps bds ld ldt rd wp sc lv].
  cbn [_last_button_state]. destruct (Z.eqb_spec raw lbs) as [-> | Hne]; cbn.
  - destruct (_ >? db); cbn; auto.
  - destruct (_ >? db); cbn; auto.
Qed.

(** *** Which direction wins *)

(** X14: in both modes a reading whose x value is outside the dead band
    never answers [up] or [down], whatever the y value: the horizontal test
    comes first.  A reading inside the dead band on both axes answers
    [center] in both modes. *)
Theorem horizontal_wins j allow_repeat x y t :
  (x_center j + threshold j < x \/ x < x_center j - threshold j ->
   fst (get_direction j allow_repeat x y t) <> up /\
   fst (get_direction j allow_repeat x y t) <> down) /\
  (in_dead_zone j (x, y, t) ->
   fst (get_direction j allow_repeat x y t) = center).
Proof.
  split.
  - intros Hx.
    assert (Hcur : current_direction j x y = right \/
                   current_direction j x y = left).
    { unfold current_direction.
      destruct (Z.gtb_spec x (x_center j + threshold j)); [now left|].
      destruct (Z.ltb_spec x (x_center j - threshold j)); [now right | lia]. }
    unfold get_direction.
    destruct Hcur as [-> | ->], allow_repeat; cbn [Direction_eqb negb];
      repeat match goal with
      | |- context [if ?b then _ else _] => destruct b
      end; cbn [fst]; split; discriminate.
  - intros Hz.
    pose proof (JoystickFacts.current_direction_center j x y t Hz) as Hc.
    unfold get_direction. rewrite Hc.
    destruct allow_repeat; cbn [Direction_eqb negb];
      repeat match goal with
      | |- context [if ?b then _ else _] => destruct b
      end; reflexivity.
Qed.

Lemma horizontal_wins_witness :
  (fst (get_direction (main_joystick 0 0) false 4000 4095 0) <> up /\
   fst (get_direction (main_joystick 0 0) false 4000 4095 0) <> down) /\
  fst (get_direction (main_joystick 0 0) true 2100 1900 0) = center.
Proof.
  split.
  - apply (proj1 (horizontal_wins (main_joystick 0 0) false 4000 4095 0)).
    left. simpl. lia.
  - apply (proj2 (horizontal_wins (main_joystick 0 0) true 2100 1900 0)).
    simpl. lia.
Defined.

(** *** Repeat mode *)

Lemma repeat_step_right j x y t :
  current_direction j x y = right ->
  get_direction j true x y t =
  if negb (Direction_eqb right (_last_direction j)) ||
     (ticks_diff t (_last_direction_time j) >? direction_repeat_delay_ms j)
  then (right, set__last_direction_time t (set__last_direction right j))
  else (center, j).
Proof. intros H. unfold get_direction. rewrite H. reflexivity. Qed.

Lemma repeat_emitted_state j t :
  let j' := set__last_direction_time t (set__last_direction right j) in
  _last_direction j' = right /\ _last_direction_time j' = t /\
  direction_repeat_delay_ms j' = direction_repeat_delay_ms j /\
  same_zones j j'.
Proof. destruct j; cbn; unfold same_zones; cbn; repeat split; reflexivity. Qed.

(** After [right] was answered at clock [ce], the answers that follow while
    the stick stays right are more than the repeat delay apart, the first
    of them counted from [ce]. *)
Lemma repeat_spaced_after polls : forall j a ce,
  _last_direction j = right ->
  _last_direction_time j = ticks_ms ce ->
  a <= ce < a + TICKS_HALF ->
  Forall (pushed_right j) polls ->
  Forall (fun p => a <= snd p < a + TICKS_HALF) polls ->
  spaced (direction_repeat_delay_ms j) (ce :: repeat_emissions j polls).
Proof.
  induction polls as [|[[x y] c] polls IH]; intros j a ce Hd Ht Hce Hall Hwin.
  - cbn. exact I.
  - inversion Hall as [|? ? Hp Hrest]; subst.
    inversion Hwin as [|? ? Hc Hwrest]; subst. cbn [snd] in Hc.
    cbn [repeat_emissions].
    rewrite (repeat_step_right j x y (ticks_ms c)
               (JoystickFacts.current_direction_right j x y c Hp)).
    rewrite Hd, Ht. cbn [Direction_eqb negb orb].
    rewrite JoystickFacts.ticks_diff_real by lia.
    destruct (Z.gtb_spec (c - ce) (direction_repeat_delay_ms j)) as [Hgo | Hno].
    + cbn [Direction_eqb].
      destruct (repeat_emitted_state j (ticks_ms c)) as (Hd' & Ht' & Hdel & Hz).
      specialize (IH _ a c Hd' Ht' Hc).
      rewrite Hdel in IH.
      split; [lia|]. apply IH; [|exact Hwrest].
      eapply Forall_impl; [|exact Hrest].
      intros p. now apply JoystickFacts.pushed_right_same.
    + cbn [Direction_eqb]. now apply (IH j a ce).
Qed.

(** X15: in repeat mode, while the stick is held to the right, two
    consecutive polls that answer [right] are always more than
    [direction_repeat_delay_ms] (150 ms) apart, from whatever state the
    polling starts; the clocks of the polls lie within half a tick
    period. *)
Theorem repeat_mode_rate_limit polls : forall j a,
  Forall (pushed_right j) polls ->
  Forall (fun p => a <= snd p < a + TICKS_HALF) polls ->
  spaced (direction_repeat_delay_ms j) (repeat_emissions j polls).
Proof.
  induction polls as [|[[x y] c] polls IH]; intros j a Hall Hwin.
  - exact I.
  - inversion Hall as [|? ? Hp Hrest]; subst.
    inversion Hwin as [|? ? Hc Hwrest]; subst. cbn [snd] in Hc.
    cbn [repeat_emissions].
    rewrite (repeat_step_right j x y (ticks_ms c)
               (JoystickFacts.current_direction_right j x y c Hp)).
    match goal with |- context [if ?b then _ else _] => destruct b end.
    + cbn [Direction_eqb].
      destruct (repeat_emitted_state j (ticks_ms c)) as (Hd' & Ht' & Hdel & Hz).
      pose proof (repeat_spaced_after polls _ a c Hd' Ht' Hc) as H.
      rewrite Hdel in H. apply H; [|exact Hwrest].
      eapply Forall_impl; [|exact Hrest].
      intros p. now apply JoystickFacts.pushed_right_same.
    + cbn [Direction_eqb]. now apply (IH j a).
Qed.

Lemma repeat_mode_rate_limit_witness :
  spaced 150
    (repeat_emissions (main_joystick 0 0)
       [(3500, 2048, 20); (3500, 2048, 100); (3500, 2048, 170);
        (3500, 2048, 171); (3500, 2048, 400)]).
Proof.
  apply (repeat_mode_rate_limit
           [(3500, 2048, 20); (3500, 2048, 100); (3500, 2048, 170);
            (3500, 2048, 171); (3500, 2048, 400)] (main_joystick 0 0) 0).
  - repeat constructor; simpl; lia.
  - repeat constructor; vm_compute; first [discriminate | reflexivity].
Defined.

(** X16: in repeat mode a poll that finds the stick in the dead zone answers
    [center] and forgets the held direction, so that the next deflection to
    the right is answered [right] at once, however little time has passed
    and whatever the state before. *)
Theorem repeat_mode_recenters j x0 y0 t0 x1 y1 t1 :
  in_dead_zone j (x0, y0, t0) ->
  pushed_right j (x1, y1, t1) ->
  fst (get_direction j true x0 y0 t0) = center /\
  _last_direction (snd (get_direction j true x0 y0 t0)) = center /\
  fst (get_direction (snd (get_direction j true x0 y0 t0)) true x1 y1 t1) = right.
Proof.
  intros Hz Hr.
  pose proof (JoystickFacts.current_direction_center j x0 y0 t0 Hz) as Hc.
  assert (H0 : get_direction j true x0 y0 t0 = (center, set__last_direction center j)).
  { unfold get_direction. rewrite Hc. reflexivity. }
  rewrite H0. cbn [fst snd].
  assert (Hsz : same_zones j (set__last_direction center j))
    by (destruct j; unfold same_zones; cbn; auto).
  assert (Hl : _last_direction (set__last_direction center j) = center)
    by (destruct j; reflexivity).
  split; [reflexivity|]. split; [exact Hl|].
  rewrite repeat_step_right.
  - rewrite Hl. reflexivity.
  - apply (JoystickFacts.current_direction_right _ _ _ t1).
    eapply JoystickFacts.pushed_right_same; eassumption.
Qed.

Lemma repeat_mode_recenters_witness :
  fst (get_direction (main_joystick 0 0) true 2048 2048 10) = center /\
  _last_direction (snd (get_direction (main_joystick 0 0) true 2048 2048 10))
    = center /\
  fst (get_direction (snd (get_direction (main_joystick 0 0) true 2048 2048 10))
         true 3500 2048 11) = right.
Proof.
  apply (repeat_mode_recenters (main_joystick 0 0) 2048 2048 10 3500 2048 11).
  - simpl. lia.
  - simpl. lia.
Defined.

(** *** Calibration *)

Lemma total_bounds {A} (f : A -> Z) lo hi l :
  Forall (fun o => lo <= f o <= hi) l ->
  lo * Z.of_nat (List.length l) <= total (map f l) <= hi * Z.of_nat (List.length l).
Proof.
  induction 1 as [|o l Ho _ IH].
  - cbn. lia.
  - cbn [map total fold_right List.length]. fold (total (map f l)).
    rewrite Nat2Z.inj_succ. lia.
Qed.

(** X17: a calibration that collects at least one sample puts each centre
    within the range of the samples of its own axis: the x centre between
    any bounds that hold for every x sample, the y centre between any
    bounds that hold for every y sample (so each between the smallest and
    the largest sample of its axis, and within 0..4095 for 12-bit reads).
    It changes no other field of the instance. *)
Theorem calibrate_center_within_samples j secs start samples stop rest
    lox hix loy hiy :
  Forall (fun o => ticks_diff (fst o) start < secs * 1000) samples ->
  secs * 1000 <= ticks_diff (fst stop) start ->
  samples <> [] ->
  Forall (fun o => lox <= fst (snd o) <= hix) samples ->
  Forall (fun o => loy <= snd (snd o) <= hiy) samples ->
  exists j' printed,
    calibrate j secs start (samples ++ stop :: rest) = Some (PyNone, j', printed) /\
    lox <= x_center j' <= hix /\ loy <= y_center j' <= hiy /\
    j' = set_y_center (y_center j') (set_x_center (x_center j') j).
Proof.
  intros Hall Hstop Hne Hx Hy.
  unfold calibrate.
  rewrite (JoystickFacts.calibrate_loop_window _ _ _ _ _ 0 0 0 Hall Hstop).
  cbn [Z.add].
  set (n := Z.of_nat (List.length samples)).
  assert (Hn : 0 < n)
    by (subst n; destruct samples; [congruence | cbn [List.length]; lia]).
  destruct (Z.gtb_spec n 0); [|lia].
  pose proof (total_bounds (fun o : Z * (Z * Z) => fst (snd o)) lox hix samples Hx)
    as Bx.
  pose proof (total_bounds (fun o : Z * (Z * Z) => snd (snd o)) loy hiy samples Hy)
    as By.
  fold n in Bx, By.
  set (xs := total (map (fun o : Z * (Z * Z) => fst (snd o)) samples)) in *.
  set (ys := total (map (fun o : Z * (Z * Z) => snd (snd o)) samples)) in *.
  destruct (JoystickFacts.set_centers j (xs / n) (ys / n)) as [Hcx Hcy].
  eexists; eexists. split; [reflexivity|].
  rewrite Hcx, Hcy.
  repeat split.
  - apply Z.div_le_lower_bound; lia.
  - apply Z.div_le_upper_bound; lia.
  - apply Z.div_le_lower_bound; lia.
  - apply Z.div_le_upper_bound; lia.
Qed.

Lemma calibrate_center_within_samples_witness :
  exists j' printed,
    calibrate (main_joystick 0 0) 2 0
      [(0, (1000, 3100)); (10, (1003, 3099)); (2000, (0, 0))] =
      Some (PyNone, j', printed) /\
    1000 <= x_center j' <= 1003 /\ 3099 <= y_center j' <= 3100 /\
    j' = set_y_center (y_center j') (set_x_center (x_center j') (main_joystick 0 0)).
Proof.
  apply (calibrate_center_within_samples (main_joystick 0 0) 2 0
           [(0, (1000, 3100)); (10, (1003, 3099))] (2000, (0, 0)) []
           1000 1003 3099 3100).
  - repeat constructor; vm_compute; reflexivity.
  - vm_compute. discriminate.
  - discriminate.
  - repeat constructor; simpl; lia.
  - repeat constructor; simpl; lia.
Defined.

(** *** [is_button_clicked_once] once its attribute exists *)

(** X18: on an instance whose [_button_was_pressed_for_click] has been
    assigned, [is_button_clicked_once] never raises: it answers [True]
    exactly when the pin reads released at this call and read pressed at the
    call before, with no regard to the debounce time, and it remembers
    whether the pin reads pressed. *)
Theorem is_button_clicked_once_with_attribute j was t raw :
  _button_was_pressed_for_click j = Some was ->
  fst (is_button_clicked_once t raw j) = Ok (negb (raw =? 0) && was) /\
  _button_was_pressed_for_click (snd (is_button_clicked_once t raw j))
    = Some (raw =? 0).
Proof.
  intros Hw.
  pose proof (is_button_down_answer j t raw) as Hres.
  assert (Hkeep : _button_was_pressed_for_click (snd (is_button_down j t raw))
                  = Some was).
  { unfold is_button_down.
    destruct j as [xc yc th db ct lbs lbt bps bds ld ldt rd wp sc lv].
    cbn in *. subst wp.
    destruct (negb (raw =? lbs)); cbn;
      match goal with |- context [if ?b then _ else _] => destruct b end;
      reflexivity. }
  unfold is_button_clicked_once, bind.
  destruct (is_button_down j t raw) as [pressed_now j1].
  cbn [fst snd] in *. subst pressed_now.
  destruct j1 as [xc yc th db ct lbs lbt bps bds ld ldt rd wp sc lv].
  cbn in Hkeep. subst wp.
  destruct (raw =? 0), was, bps; cbn; split; reflexivity.
Qed.

Lemma is_button_clicked_once_with_attribute_witness :
  fst (is_button_clicked_once 500 1
         (set__button_was_pressed_for_click (Some true) (main_joystick 0 0)))
    = Ok true.
Proof.
  apply (proj1 (is_button_clicked_once_with_attribute
                  (set__button_was_pressed_for_click (Some true)
                     (main_joystick 0 0)) true 500 1 eq_refl)).
Defined.

(** *** The two button methods share one timer *)

Lemma ticks_diff_same t : ticks_diff t t = 0.
Proof.
  unfold ticks_diff. rewrite Z.sub_diag, Z.add_0_l.
  rewrite Z.mod_small; [lia|]. vm_compute. split; [discriminate | reflexivity].
Qed.

Lemma idle_step_ignored j v c :
  _button_state_for_click j = 0 ->
  (v <> 0 \/ _last_button_value_for_click j <> 1 \/
   ticks_diff c (_last_button_change_time j) <= debounce_ms j) ->
  check_for_single_click j v c = (false, set__last_button_value_for_click v j).
Proof.
  intros Hs Hwhy.
  destruct j as [xc yc th db ct lbs lbt bps bds ld ldt rd wp sc lv].
  unfold check_for_single_click. cbn in *. subst sc. cbn.
  destruct (Z.eqb_spec v 0), (Z.eqb_spec lv 1); cbn; try reflexivity.
  destruct (Z.gtb_spec (ticks_diff c lbt) db); [lia | reflexivity].
Qed.

Lemma idle_held_no_click holds tr : forall j,
  _button_state_for_click j = 0 ->
  _last_button_value_for_click j = 0 ->
  clicks (fst (poll_clicks j (map (fun c => (0, c)) holds ++ [(1, tr)]))) = 0%nat.
Proof.
  induction holds as [|c holds IH]; intros j Hs Hv.
  - cbn [map app poll_clicks].
    rewrite idle_step_ignored by (auto; left; lia). reflexivity.
  - cbn [map app poll_clicks].
    rewrite idle_step_ignored by (auto; right; left; lia).
    specialize (IH (set__last_button_value_for_click 0 j)).
    destruct (poll_clicks (set__last_button_value_for_click 0 j)
                (map (fun c => (0, c)) holds ++ [(1, tr)])) as [cs j2].
    cbn [fst] in *. unfold clicks in *. cbn.
    apply IH; destruct j; cbn in *; auto.
Qed.

(** X19: polling [is_button_down] on the tick at which the button goes down,
    before [check_for_single_click], makes the click detector lose the
    press: [is_button_down] restarts the change timer the two methods
    share, the detector then finds the press inside the debounce window and
    stays Idle, and no poll of that press and its release reports a click.
    Without the [is_button_down] call the same poll enters Pressed. *)
Theorem is_button_down_swallows_press j t holds tr :
  settled_idle j t ->
  _last_button_state j = 1 ->
  0 <= debounce_ms j ->
  _button_state_for_click (snd (check_for_single_click j 0 (ticks_ms t))) = 1 /\
  clicks
    (fst (poll_clicks (snd (is_button_down j (ticks_ms t) 0))
            ((0, t) :: map (fun c => (0, c)) holds ++ [(1, tr)]))) = 0%nat.
Proof.
  intros (Hs & Hv & Hd) Hlbs Hdb. split.
  - destruct (JoystickFacts.click_press j (ticks_ms t) Hs Hv Hd)
      as (j1 & Hstep & (Hp & _) & _).
    rewrite Hstep. exact Hp.
  - assert (Hj1 : exists j1,
      snd (is_button_down j (ticks_ms t) 0) = j1 /\
      _button_state_for_click j1 = 0 /\
      _last_button_change_time j1 = ticks_ms t /\
      debounce_ms j1 = debounce_ms j).
    { eexists. split; [reflexivity|].
      unfold is_button_down.
      destruct j as [xc yc th db ct lbs lbt bps bds ld ldt rd wp sc lv].
      cbn in *. subst lbs sc. cbn.
      match goal with |- context [if ?b then _ else _] => destruct b end;
        cbn; auto. }
    destruct Hj1 as (j1 & -> & Hs1 & Ht1 & Hdb1).
    cbn [poll_clicks].
    rewrite idle_step_ignored.
    + pose proof (idle_held_no_click holds tr
                    (set__last_button_value_for_click 0 j1)) as H.
      destruct (poll_clicks (set__last_button_value_for_click 0 j1)
                  (map (fun c => (0, c)) holds ++ [(1, tr)])) as [cs j2].
      cbn [fst] in *. unfold clicks in *. cbn.
      apply H; destruct j1; cbn in *; auto.
    + exact Hs1.
    + right; right. rewrite Ht1, ticks_diff_same, Hdb1. exact Hdb.
Qed.

Lemma is_button_down_swallows_press_witness :
  _button_state_for_click
    (snd (check_for_single_click (main_joystick 0 0) 0 (ticks_ms 100))) = 1 /\
  clicks
    (fst (poll_clicks (snd (is_button_down (main_joystick 0 0) (ticks_ms 100) 0))
            ((0, 100) :: map (fun c => (0, c)) [120; 140] ++ [(1, 200)]))) = 0%nat.
Proof.
  apply (is_button_down_swallows_press (main_joystick 0 0) 100 [120; 140] 200).
  - repeat split; vm_compute; reflexivity.
  - reflexivity.
  - simpl. lia.
Defined.

(** *** Edge mode never repeats *)

Lemma Direction_eqb_spec a b : reflect (a = b) (Direction_eqb a b).
Proof. destruct a, b; constructor; congruence. Qed.

Lemma no_repeat_tail a l : no_repeat (a :: l) -> no_repeat l.
Proof. destruct l; cbn; tauto. Qed.

Lemma no_repeat_center l : no_repeat l -> no_repeat (center :: l).
Proof. destruct l; cbn; tauto. Qed.

Lemma edge_no_repeat_from polls : forall j,
  no_repeat (_last_direction j :: fst (poll_directions j polls)).
Proof.
  induction polls as [|[[x y] c] polls IH]; intros j; [exact I|].
  cbn [poll_directions].
  destruct (JoystickFacts.edge_poll j x y (ticks_ms c)) as (j1 & Hstep & Hl1 & _).
  rewrite Hstep. specialize (IH j1). rewrite Hl1 in IH.
  destruct (poll_directions j1 polls) as [ds j2]. cbn [fst] in *.
  destruct (Direction_eqb_spec (current_direction j x y) (_last_direction j))
    as [Heq | Hne].
  - split.
    + destruct (_last_direction j); (now left) || (right; discriminate).
    + apply no_repeat_center. eapply no_repeat_tail. exact IH.
  - split; [right; congruence | exact IH].
Qed.

(** X26: in edge mode, from any state and for any readings, two
    consecutive polls never answer the same direction other than [center]:
    a held deflection is reported once. *)
Theorem edge_mode_never_repeats j polls :
  no_repeat (fst (poll_directions j polls)).
Proof.
  eapply no_repeat_tail. apply edge_no_repeat_from.
Qed.

(** *** How close two clicks can be *)

Ltac pick :=
  match goal with
  | |- _ /\ _ => split; pick
  | |- _ \/ _ => first [solve [left; pick] | solve [right; pick]]
  | _ => solve [auto | lia | congruence]
  end.

Lemma click_step_cases j v c :
  let '(b, j') := check_for_single_click j v c in
  debounce_ms j' = debounce_ms j /\
  ((_button_state_for_click j = 0 /\ b = false /\
    ((_button_state_for_click j' = 0 /\
      _last_button_change_time j' = _last_button_change_time j) \/
     (_button_state_for_click j' = 1 /\ _last_button_change_time j' = c /\
      debounce_ms j < ticks_diff c (_last_button_change_time j)))) \/
   (_button_state_for_click j = 1 /\
    ((b = false /\ _button_state_for_click j' = 1 /\
      _last_button_change_time j' = _last_button_change_time j) \/
     (_button_state_for_click j' = 0 /\ _last_button_change_time j' = c /\
      debounce_ms j < ticks_diff c (_last_button_change_time j)))) \/
   (_button_state_for_click j <> 0 /\ _button_state_for_click j <> 1 /\
    b = false /\ _button_state_for_click j' = _button_state_for_click j /\
    _last_button_change_time j' = _last_button_change_time j)).
Proof.
  destruct j as [xc yc th db ct lbs lbt bps bds ld ldt rd wp sc lv].
  unfold check_for_single_click. cbn.
  destruct (Z.eqb_spec sc 0) as [-> | H0].
  - destruct ((v =? 0) && (lv =? 1)); cbn;
      [destruct (Z.gtb_spec (ticks_diff c lbt) db); cbn|]; pick.
  - destruct (Z.eqb_spec sc 1) as [-> | H1].
    + destruct (v =? 1); cbn;
        [destruct (Z.gtb_spec (ticks_diff c lbt) db); cbn|]; pick.
    + cbn. pick.
Qed.

(** After a click at clock [ce] the detector is Idle with its last
    transition at or after [ce], or Pressed since more than a debounce
    window after [ce]; the reported clicks that follow are then more than
    two debounce windows apart, the first counted from [ce]. *)
Lemma clicks_spaced_after polls : forall j a ce,
  0 <= debounce_ms j ->
  a <= ce < a + TICKS_HALF ->
  ((_button_state_for_click j = 0 /\
    exists q, _last_button_change_time j = ticks_ms q /\
              a <= q < a + TICKS_HALF /\ ce <= q) \/
   (_button_state_for_click j = 1 /\
    exists p, _last_button_change_time j = ticks_ms p /\
              a <= p < a + TICKS_HALF /\ debounce_ms j < p - ce)) ->
  Forall (fun p => a <= snd p < a + TICKS_HALF) polls ->
  spaced (2 * debounce_ms j) (ce :: click_clocks j polls).
Proof.
  induction polls as [|[v c] polls IH]; intros j a ce Hdb Hce Hinv Hwin.
  - exact I.
  - inversion Hwin as [|? ? Hc Hrest]; subst. cbn [snd] in Hc.
    cbn [click_clocks].
    pose proof (click_step_cases j v (ticks_ms c)) as Hstep.
    destruct (check_for_single_click j v (ticks_ms c)) as [b j1].
    destruct Hstep as [Hdb1 Hcases].
    specialize (IH j1 a). rewrite Hdb1 in IH.
    destruct Hinv as [(Hs & q & Hq & Hqw & Hqce) | (Hs & p & Hp & Hpw & Hpce)].
    + (* Idle *)
      destruct Hcases as [(_ & -> & Hnext) | [(Hs1 & _) | (Hn0 & _)]];
        [|congruence|congruence].
      apply (IH ce Hdb Hce); [|exact Hrest].
      destruct Hnext as [(Hs' & Hl') | (Hs' & Hl' & Hgt)].
      * left. split; [exact Hs'|]. exists q. rewrite Hl'. auto.
      * right. split; [exact Hs'|]. exists c. split; [exact Hl'|].
        split; [exact Hc|].
        rewrite Hq, JoystickFacts.ticks_diff_real in Hgt by lia. lia.
    + (* Pressed *)
      destruct Hcases as [(Hs0 & _) | [(_ & Hnext) | (_ & Hn1 & _)]];
        [congruence| |congruence].
      destruct Hnext as [(-> & Hs' & Hl') | (Hs' & Hl' & Hgt)].
      * apply (IH ce Hdb Hce); [|exact Hrest].
        right. split; [exact Hs'|]. exists p. rewrite Hl'. auto.
      * rewrite Hp, JoystickFacts.ticks_diff_real in Hgt by lia.
        destruct b.
        -- split; [lia|].
           apply (IH c Hdb Hc); [|exact Hrest].
           left. split; [exact Hs'|]. exists c. repeat split; first [exact Hl' | lia].
        -- apply (IH ce Hdb Hce); [|exact Hrest].
           left. split; [exact Hs'|]. exists c. repeat split; first [exact Hl' | lia].
Qed.

(** X27: whatever the signal and the starting state, two clicks reported by
    [check_for_single_click] are always more than two debounce windows
    apart: after a click the next press is only accepted more than one
    window later, and its release more than one window after that.  The
    clocks of the polls lie within half a tick period. *)
Theorem clicks_two_windows_apart polls : forall j a,
  0 <= debounce_ms j ->
  Forall (fun p => a <= snd p < a + TICKS_HALF) polls ->
  spaced (2 * debounce_ms j) (click_clocks j polls).
Proof.
  induction polls as [|[v c] polls IH]; intros j a Hdb Hwin.
  - exact I.
  - inversion Hwin as [|? ? Hc Hrest]; subst. cbn [snd] in Hc.
    cbn [click_clocks].
    pose proof (click_step_cases j v (ticks_ms c)) as Hstep.
    pose proof (clicks_spaced_after polls) as Hafter.
    destruct (check_for_single_click j v (ticks_ms c)) as [b j1].
    destruct Hstep as [Hdb1 Hcases].
    specialize (IH j1 a). rewrite Hdb1 in IH.
    destruct b; [|now apply IH].
    specialize (Hafter j1 a c). rewrite Hdb1 in Hafter.
    apply Hafter; try assumption.
    left.
    destruct Hcases as [(_ & Hb & _) | [(_ & Hnext) | (_ & _ & Hb & _)]];
      try discriminate.
    destruct Hnext as [(Hb & _) | (Hs' & Hl' & _)]; [discriminate|].
    split; [exact Hs'|]. exists c. repeat split; first [exact Hl' | lia].
Qed.

Lemma clicks_two_windows_apart_witness :
  spaced 100
    (click_clocks (main_joystick 0 0)
       [(0, 100); (1, 160); (0, 170); (0, 215); (1, 270); (0, 330); (1, 400)]).
Proof.
  apply (clicks_two_windows_apart
           [(0, 100); (1, 160); (0, 170); (0, 215); (1, 270); (0, 330); (1, 400)]
           (main_joystick 0 0) 0).
  - simpl. lia.
  - repeat constructor; vm_compute; first [discriminate | reflexivity].
Defined.

End JoystickMore.

(** * Properties of the main menu and of the payoff table *)

Module MainFacts.
Import Main.

Lemma redraw_without_items g j idx :
  UI.items (UI._last_menu_state (ui g)) = None ->
  exists calls,
    redraw g j idx =
      Returned {| main_menu_selected_idx := idx;
                  current_state := current_state g;
                  game_te_instance := game_te_instance g;
                  game_ps_instance := game_ps_instance g;
                  game_auction_instance := game_auction_instance g;
                  joystick_dev := j;
                  ui := ui g |} calls /\
    UI.clears_screen calls = true.
Proof.
  intros Hnone. unfold redraw.
  rewrite UIFacts.draw_menu_without_items by exact Hnone.
  eexists. split; reflexivity.
Qed.

(** X20: in the main menu a poll that answers [up] moves the selection one
    row up and one that answers [down] one row down, wrapping around the
    four rows, so the index stays in 0..3 whatever it was; the menu is then
    redrawn with a screen clear (the menu state holding no item list), the
    program state is left as it is even when the same poll completes a
    click, and the click is not kept for a later poll.  From an index in
    0..3, an [up] followed by a [down] gives the index back. *)
Theorem main_menu_navigation g x y t b tc :
  UI.items (UI._last_menu_state (ui g)) = None ->
  let d := fst (Joystick.get_direction (joystick_dev g) false x y t) in
  (d = Joystick.up \/ d = Joystick.down ->
   exists g' calls,
     handle_main_menu_input g x y t b tc = Returned g' calls /\
     main_menu_selected_idx g' =
       (if Joystick.Direction_eqb d Joystick.up
        then (main_menu_selected_idx g - 1 + 4) mod 4
        else (main_menu_selected_idx g + 1) mod 4) /\
     0 <= main_menu_selected_idx g' < 4 /\
     current_state g' = current_state g /\
     ui g' = ui g /\
     UI.clears_screen calls = true /\
     joystick_dev g' =
       snd (Joystick.check_for_single_click
              (snd (Joystick.get_direction (joystick_dev g) false x y t)) b tc)) /\
  (0 <= main_menu_selected_idx g < 4 ->
   ((main_menu_selected_idx g - 1 + 4) mod 4 + 1) mod 4 = main_menu_selected_idx g /\
   ((main_menu_selected_idx g + 1) mod 4 - 1 + 4) mod 4 = main_menu_selected_idx g).
Proof.
  intros Hnone d. split.
  - intros Hd. unfold handle_main_menu_input. subst d.
    destruct (Joystick.get_direction (joystick_dev g) false x y t) as [dir j1].
    cbn [fst snd] in *.
    destruct (Joystick.check_for_single_click j1 b tc) as [clicked j2].
    cbn [fst snd] in *. change (Z.of_nat (List.length UI.main_menu_items)) with 4.
    destruct Hd as [-> | ->]; cbn [Joystick.Direction_eqb].
    + destruct (redraw_without_items g j2 ((main_menu_selected_idx g - 1 + 4) mod 4)
                  Hnone) as (calls & Hr & Hc).
      rewrite Hr. eexists; eexists. split; [reflexivity|].
      cbn. repeat split; try assumption; try reflexivity;
        apply Z.mod_pos_bound; lia.
    + destruct (redraw_without_items g j2 ((main_menu_selected_idx g + 1) mod 4)
                  Hnone) as (calls & Hr & Hc).
      rewrite Hr. eexists; eexists. split; [reflexivity|].
      cbn. repeat split; try assumption; try reflexivity;
        apply Z.mod_pos_bound; lia.
  - intros Hidx.
    assert (Hcase : main_menu_selected_idx g = 0 \/ main_menu_selected_idx g = 1 \/
                    main_menu_selected_idx g = 2 \/ main_menu_selected_idx g = 3)
      by lia.
    destruct Hcase as [H | [H | [H | H]]]; rewrite H; split; reflexivity.
Qed.

Lemma main_menu_navigation_witness :
  exists g' calls,
    handle_main_menu_input (at_main_menu (Joystick.main_joystick 0 0))
      2048 100 200 1 200 = Returned g' calls /\
    main_menu_selected_idx g' = 3 /\
    current_state g' = STATE_MAIN_MENU /\
    UI.clears_screen calls = true.
Proof.
  destruct (main_menu_navigation (at_main_menu (Joystick.main_joystick 0 0))
              2048 100 200 1 200 eq_refl) as [Hnav Hround].
  destruct Hnav as (g' & calls & Hout & Hidx & _ & Hst & _ & Hclr & _).
  { left. reflexivity. }
  pose proof (Hround ltac:(simpl; lia)) as _.
  exists g', calls. repeat split; assumption.
Defined.

(** X21: in the main menu a poll that answers neither [up] nor [down] and
    completes a click starts what the selected row names: rows 0, 1 and 2
    set the state to the initialisation of their game, row 3 to exiting;
    the three game instances are dropped, the selection is kept and nothing
    is drawn.  Without a click such a poll changes only the joystick. *)
Theorem main_menu_click g x y t b tc :
  let d := fst (Joystick.get_direction (joystick_dev g) false x y t) in
  let j1 := snd (Joystick.get_direction (joystick_dev g) false x y t) in
  let clicked := fst (Joystick.check_for_single_click j1 b tc) in
  let j2 := snd (Joystick.check_for_single_click j1 b tc) in
  d <> Joystick.up -> d <> Joystick.down ->
  (clicked = true -> 0 <= main_menu_selected_idx g < 4 ->
   handle_main_menu_input g x y t b tc =
     Returned {| main_menu_selected_idx := main_menu_selected_idx g;
                 current_state :=
                   nth (Z.to_nat (main_menu_selected_idx g))
                     [STATE_GAME_TE_INIT; STATE_GAME_PS_INIT;
                      STATE_GAME_AUCTION_INIT; STATE_EXITING] 0;
                 game_te_instance := false;
                 game_ps_instance := false;
                 game_auction_instance := false;
                 joystick_dev := j2;
                 ui := ui g |} []) /\
  (clicked = false ->
   handle_main_menu_input g x y t b tc =
     Returned {| main_menu_selected_idx := main_menu_selected_idx g;
                 current_state := current_state g;
                 game_te_instance := game_te_instance g;
                 game_ps_instance := game_ps_instance g;
                 game_auction_instance := game_auction_instance g;
                 joystick_dev := j2;
                 ui := ui g |} []).
Proof.
  intros d j1 clicked j2 Hup Hdown.
  unfold handle_main_menu_input. subst d j1 clicked j2.
  destruct (Joystick.get_direction (joystick_dev g) false x y t) as [dir j1].
  cbn [fst snd] in *.
  destruct (Joystick.check_for_single_click j1 b tc) as [clicked j2].
  cbn [fst snd] in *.
  assert (Hu : Joystick.Direction_eqb dir Joystick.up = false)
    by (destruct dir; try reflexivity; congruence).
  assert (Hd : Joystick.Direction_eqb dir Joystick.down = false)
    by (destruct dir; try reflexivity; congruence).
  rewrite Hu, Hd. split.
  - intros -> Hidx.
    assert (Hcase : main_menu_selected_idx g = 0 \/ main_menu_selected_idx g = 1 \/
                    main_menu_selected_idx g = 2 \/ main_menu_selected_idx g = 3)
      by lia.
    destruct Hcase as [H | [H | [H | H]]]; rewrite H; reflexivity.
  - intros ->. reflexivity.
Qed.

Lemma main_menu_click_witness :
  handle_main_menu_input
    {| main_menu_selected_idx := 3; current_state := STATE_MAIN_MENU;
       game_te_instance := true; game_ps_instance := false;
       game_auction_instance := false;
       joystick_dev :=
         snd (Joystick.poll_clicks (Joystick.main_joystick 0 0) [(0, 100)]);
       ui := UI.main_ui |} 2048 2048 200 1 200
  = Returned
      {| main_menu_selected_idx := 3; current_state := STATE_EXITING;
         game_te_instance := false; game_ps_instance := false;
         game_auction_instance := false;
         joystick_dev :=
           snd (Joystick.poll_clicks (Joystick.main_joystick 0 0)
                  [(0, 100); (1, 200)]);
         ui := UI.main_ui |} [] /\
  handle_main_menu_input (at_main_menu (Joystick.main_joystick 0 0))
    2048 2048 200 1 200
  = Returned
      (at_main_menu
         (snd (Joystick.poll_clicks (Joystick.main_joystick 0 0) [(1, 200)]))) [].
Proof.
  split.
  - destruct (main_menu_click
      {| main_menu_selected_idx := 3; current_state := STATE_MAIN_MENU;
         game_te_instance := true; game_ps_instance := false;
         game_auction_instance := false;
         joystick_dev :=
           snd (Joystick.poll_clicks (Joystick.main_joystick 0 0) [(0, 100)]);
         ui := UI.main_ui |} 2048 2048 200 1 200) as [Hclick _];
      [discriminate | discriminate |].
    rewrite Hclick; [reflexivity | reflexivity | simpl; lia].
  - destruct (main_menu_click (at_main_menu (Joystick.main_joystick 0 0))
                2048 2048 200 1 200) as [_ Hquiet];
      [discriminate | discriminate |].
    rewrite Hquiet; reflexivity.
Defined.

(** X22: the payoff table of the trust game is symmetric in the two
    players, for any two strings, and a round never pays more than 6 points
    in total; against either action of the player the computer scores more
    by defecting than by trusting. *)
Theorem calc_score_payoffs player computer :
  Trust.calc_score player computer =
    (snd (Trust.calc_score computer player), fst (Trust.calc_score computer player)) /\
  fst (Trust.calc_score player computer) + snd (Trust.calc_score player computer) <= 6 /\
  (player = "C"%string \/ player = "D"%string ->
   snd (Trust.calc_score player "C") < snd (Trust.calc_score player "D")).
Proof.
  unfold Trust.calc_score.
  destruct (String.eqb_spec player "C"), (String.eqb_spec player "D"),
    (String.eqb_spec computer "C"), (String.eqb_spec computer "D");
    subst; try discriminate; cbn; repeat split; try reflexivity; try lia;
    intros [H | H]; congruence.
Qed.

Lemma calc_score_payoffs_witness :
  snd (Trust.calc_score "D" "C") < snd (Trust.calc_score "D" "D").
Proof.
  apply (proj2 (proj2 (calc_score_payoffs "D" "C"))). right. reflexivity.
Defined.

End MainFacts.

(** * The manager on its driver *)

Module RenderFacts.
Import Display.

Lemma text_buffer_colours fb w h tc :
  exists colours,
    text_buffer fb w h tc None = flat_map be16 colours /\
    List.length colours = (Z.to_nat w * Z.to_nat h)%nat /\
    Forall (fun c => c = tc \/ c = BLACK) colours.
Proof.
  exists (flat_map
            (fun py => map (fun px => if fb px py =? 1 then tc else BLACK) (range w))
            (range h)).
  split; [|split].
  - unfold text_buffer. rewrite DisplayMore.flat_map_of_flat_map.
    apply flat_map_ext. intros py. now rewrite DisplayMore.flat_map_of_map.
  - rewrite (DisplayMore.flat_map_length_const _ (Z.to_nat w)).
    + rewrite DisplayMore.range_length. lia.
    + intros py. now rewrite length_map, DisplayMore.range_length.
  - apply Forall_flat_map, Forall_forall. intros py _.
    apply Forall_forall. intros c Hc. apply in_map_iff in Hc.
    destruct Hc as (px & <- & _). destruct (fb px py =? 1); auto.
Qed.

(** X23: a character the manager draws inside the canvas overwrites its
    whole cell.  The background rectangle of [_draw_char_internal] and the
    [text] call that follows put on the bus the same window, the 8x16 cell
    at (x, y): the rectangle then sends one transfer of 128 pixels of the
    background colour, the text one transfer of 128 pixels, each of them
    the text colour or [BLACK] (0xFFFF), whatever background was filled
    just before.  With a data/command line the device receives 128 pixels
    after the memory-write command in both calls. *)
Theorem character_overwrites_its_cell d fb ch x y color bg :
  0 <= x -> x + 8 <= width d -> 0 <= y -> y + 16 <= height d ->
  (Render.run_call d fb (UI.FillRect x y 8 16 bg) =
     set_window d x y (x + 7) (y + 15) ++ write_chunk d (pack_H bg) 128 /\
   spi_payloads (Render.run_call d fb (UI.FillRect x y 8 16 bg)) =
     window_payloads d x y (x + 7) (y + 15) ++ [solid bg 128] /\
   (dc_pin d = true ->
    pixel_transfers (Render.run_call d fb (UI.FillRect x y 8 16 bg)) = [128])) /\
  exists colours,
    Render.run_call d fb (UI.Text (String ch EmptyString) x y color) =
      set_window d x y (x + 7) (y + 15) ++ _write_data d (flat_map be16 colours) /\
    spi_payloads
      (Render.run_call d fb (UI.Text (String ch EmptyString) x y color)) =
      window_payloads d x y (x + 7) (y + 15) ++ [flat_map be16 colours] /\
    (dc_pin d = true ->
     pixel_transfers
       (Render.run_call d fb (UI.Text (String ch EmptyString) x y color)) =
       [128]) /\
    List.length colours = 128%nat /\
    Forall (fun c => c = color \/ c = BLACK) colours.
Proof.
  intros Hx Hxw Hy Hyh.
  assert (Hrect : Render.run_call d fb (UI.FillRect x y 8 16 bg) =
     set_window d x y (x + 7) (y + 15) ++
     flat_map (write_chunk d (pack_H bg)) [128]).
  { cbn [Render.run_call]. unfold fill_rect.
    rewrite DisplayFacts.fill_loop_chunks.
    replace (Z.min (x + 8 - 1) (width d - 1)) with (x + 7) by lia.
    replace (Z.min (y + 16 - 1) (height d - 1)) with (y + 15) by lia.
    reflexivity. }
  split; [split; [|split]|].
  - rewrite Hrect. cbn [flat_map]. now rewrite app_nil_r.
  - rewrite Hrect. unfold spi_payloads. rewrite flat_map_app.
    fold (spi_payloads (set_window d x y (x + 7) (y + 15))).
    fold (spi_payloads (flat_map (write_chunk d (pack_H bg)) [128])).
    now rewrite DisplayFacts.spi_payloads_set_window,
      DisplayFacts.spi_payloads_chunks.
  - intros Hdc. cbn [Render.run_call].
    rewrite DisplayFacts.pixel_transfers_fill_rect.
    + reflexivity.
    + exact Hdc.
    + change (chunks (range_len (8 * 16) chunk_size) (8 * 16)) with [128].
      constructor; [lia | constructor].
  - assert (Htext : exists colours,
      Render.run_call d fb (UI.Text (String ch EmptyString) x y color) =
        set_window d x y (x + 7) (y + 15) ++
        _write_data d (flat_map be16 colours) /\
      List.length colours = 128%nat /\
      Forall (fun c => c = color \/ c = BLACK) colours).
    { cbn [Render.run_call]. unfold text.
      change (if 16 >=? 8 then 16 / 2 else 8) with 8.
      change (Z.of_nat (String.length (String ch EmptyString)) * 8) with 8.
      replace (Z.min (x + 8) (width d)) with (x + 8) by lia.
      replace (Z.min (y + 16) (height d)) with (y + 16) by lia.
      replace (x + 8 - x) with 8 by lia. replace (y + 16 - y) with 16 by lia.
      cbn [Z.leb orb Z.compare].
      destruct (text_buffer_colours (fb (String ch EmptyString) 8 16) 8 16 color)
        as (colours & Hbuf & Hlen & Hall).
      exists colours. rewrite Hbuf.
      replace (x + 8 - 1) with (x + 7) by lia.
      replace (y + 16 - 1) with (y + 15) by lia.
      split; [reflexivity|]. split; [exact Hlen | exact Hall]. }
    destruct Htext as (colours & Heq & Hlen & Hall).
    exists colours.
    destruct (DisplayMore.window_then_data d x y (x + 7) (y + 15)
                (flat_map be16 colours)) as [Hbus Hdev].
    rewrite Heq. split; [reflexivity|]. split; [exact Hbus|].
    split; [|split; [exact Hlen | exact Hall]].
    intros Hdc. rewrite (Hdev Hdc), DisplayMore.be16_cells_length, Hlen.
    reflexivity.
Qed.

Lemma character_overwrites_its_cell_witness :
  spi_payloads
    (Render.run_call main_display (fun _ _ _ _ _ => 0)
       (UI.FillRect 5 34 8 16 YELLOW)) =
    window_payloads main_display 5 34 12 49 ++ [solid YELLOW 128] /\
  pixel_transfers
    (Render.run_call main_display (fun _ _ _ _ _ => 0)
       (UI.FillRect 5 34 8 16 YELLOW)) = [128] /\
  exists colours,
    spi_payloads
      (Render.run_call main_display (fun _ _ _ _ _ => 0)
         (UI.Text "A" 5 34 GREEN)) =
      window_payloads main_display 5 34 12 49 ++ [flat_map be16 colours] /\
    pixel_transfers
      (Render.run_call main_display (fun _ _ _ _ _ => 0)
         (UI.Text "A" 5 34 GREEN)) = [128] /\
    List.length colours = 128%nat /\
    Forall (fun c => c = GREEN \/ c = BLACK) colours.
Proof.
  destruct (character_overwrites_its_cell main_display (fun _ _ _ _ _ => 0)
              "A"%char 5 34 GREEN YELLOW)
    as ((_ & Hr & Hrd) & colours & _ & Ht & Htd & Hlen & Hall);
    try (simpl; lia).
  split; [exact Hr|]. split; [exact (Hrd eq_refl)|].
  exists colours. split; [exact Ht|]. split; [exact (Htd eq_refl)|].
  split; [exact Hlen | exact Hall].
Defined.

(** X25: on a driver with a chip-select line any sequence of screen calls
    of the manager keeps the select discipline on the bus, and no screen
    call ever sleeps: drawing costs bus transfers only. *)
Theorem manager_calls_on_the_bus d fb calls :
  cs_pin d = true ->
  framed 1 (Render.run_calls d fb calls) = true /\
  sleeps (Render.run_calls d fb calls) = [].
Proof.
  intros Hcs. split.
  - unfold Render.run_calls. apply DisplayMore.framed_flat_map.
    intros c. destruct c as [color | x y w h color | s x y color];
      cbn [Render.run_call].
    + unfold fill, fill_rect. apply DisplayMore.framed_app.
      * now apply DisplayMore.framed_set_window.
      * now apply DisplayMore.framed_fill_loop.
    + unfold fill_rect. apply DisplayMore.framed_app.
      * now apply DisplayMore.framed_set_window.
      * now apply DisplayMore.framed_fill_loop.
    + unfold text.
      match goal with |- context [if ?b then _ else _] => destruct b end;
        [reflexivity|].
      apply DisplayMore.framed_app.
      * now apply DisplayMore.framed_set_window.
      * now apply DisplayMore.framed_write_data.
  - unfold Render.run_calls.
    induction calls as [|c calls IH]; [reflexivity|].
    cbn [flat_map]. rewrite DisplayMore.sleeps_app, IH, app_nil_r.
    destruct c as [color | x y w h color | s x y color]; cbn [Render.run_call].
    + unfold fill. apply DisplayMore.sleeps_fill_rect.
    + apply DisplayMore.sleeps_fill_rect.
    + unfold text.
      match goal with |- context [if ?b then _ else _] => destruct b end;
        [reflexivity|].
      now rewrite DisplayMore.sleeps_app, DisplayMore.sleeps_set_window,
        DisplayMore.sleeps_write_data.
Qed.

Lemma manager_calls_on_the_bus_witness :
  framed 1
    (Render.run_calls (fst (init 240 320 true true true true 0))
       (fun _ _ _ _ _ => 0) (UI.show_welcome_screen UI.main_ui)) = true /\
  sleeps
    (Render.run_calls (fst (init 240 320 true true true true 0))
       (fun _ _ _ _ _ => 0) (UI.show_welcome_screen UI.main_ui)) = [].
Proof.
  apply (manager_calls_on_the_bus (fst (init 240 320 true true true true 0))
           (fun _ _ _ _ _ => 0) (UI.show_welcome_screen UI.main_ui)).
  reflexivity.
Defined.

End RenderFacts.
